(** * SMP bring-up of the x86-64 kernel: kernel/arch/x86_64/smp.c

    A shallow embedding of the C source.  Machine integers are [Z] with the
    wrap-around of their C type written out; physical memory is a function
    from physical addresses to bytes; the globals of smp.c are the fields of
    one record that the routines pass along; everything the file calls but
    does not define (frame allocator, command line, multiboot reader, GDT,
    scheduler, the LAPIC itself) is an explicit collaborator. *)

From Stdlib Require Import ZArith Lia List Bool String Ascii.
From stdpp Require Import base numbers list strings gmap.

Local Open Scope string_scope.
Local Open Scope list_scope.
Local Open Scope Z_scope.

(** ** Machine arithmetic *)

Module Mach.

(** An unsigned [w]-bit quantity. *)
Definition wrap (w x : Z) : Z := x mod 2 ^ w.

Definition u8 : Z -> Z := wrap 8.
Definition u32 : Z -> Z := wrap 32.
Definition u64 : Z -> Z := wrap 64.

(** The value of a 32-bit pattern read as a C [int]. *)
Definition s32 (x : Z) : Z :=
  let y := u32 x in if y <? 2 ^ 31 then y else y - 2 ^ 32.

(** Code point of a character constant. *)
Definition chr (c : ascii) : Z := Z.of_nat (nat_of_ascii c).

End Mach.
Import Mach.

(** ** Physical memory

    [mmu_map_from_physical] is the kernel's direct map (mmu.c, a
    collaborator): the pointer it returns for physical address [p] reads and
    writes the byte of physical memory at [p], and pointer arithmetic on it is
    arithmetic on [p].  Accesses through it are therefore modelled on the
    physical address. *)

Definition phys_mem : Type := Z -> Z.

Definition load8 (m : phys_mem) (a : Z) : Z := u8 (m a).

(** Little-endian [uint32_t] field. *)
Definition load32 (m : phys_mem) (a : Z) : Z :=
  load8 m a + 2 ^ 8 * load8 m (a + 1) + 2 ^ 16 * load8 m (a + 2)
  + 2 ^ 24 * load8 m (a + 3).

Definition in_range (lo n x : Z) : bool := (lo <=? x) && (x <? lo + n).

(** [memcpy(dst, src, n)] between two non-overlapping physical ranges. *)
Definition memcpy (m : phys_mem) (dst src n : Z) : phys_mem :=
  fun x => if in_range dst n x then m (src + (x - dst)) else m x.

(** [memcpy(dst, blob, len)] from a byte string of the kernel image. *)
Definition memcpy_from (m : phys_mem) (dst : Z) (blob : list Z) : phys_mem :=
  fun x => if in_range dst (Z.of_nat (length blob)) x
           then nth (Z.to_nat (x - dst)) blob 0 else m x.

(** ** ACPI table layouts *)

Module Acpi.
(** Modelled from the spec: [sizeof(struct rsdp_descriptor)] of
    kernel/arch/x86_64/acpi.h (not under src/), the v1 descriptor of 20
    bytes. *)
Definition sizeof_rsdp_descriptor : Z := 20.
(** Modelled from the spec: the offset of [rsdt_address], the last field of
    the packed v1 descriptor (acpi.h is not under src/). *)
Definition rsdp_rsdt_address : Z := 16.
(** Modelled from the spec: the offset of [header.length], behind the
    4-byte signature (acpi.h is not under src/). *)
Definition header_length : Z := 4.
(** Modelled from the spec: the offset of the RSDT's [pointers], the array
    behind the header (acpi.h is not under src/). *)
Definition rsdt_pointers : Z := 36.
(** Modelled from the spec: the offset of the MADT's [lapic_addr], the
    first field of the prologue behind the header (acpi.h is not under
    src/). *)
Definition madt_lapic_addr : Z := 36.
(** Modelled from the spec: the offset of the MADT's [entries], behind
    [lapic_addr] and [flags] (acpi.h is not under src/). *)
Definition madt_entries : Z := 44.
End Acpi.

(** ** Boot hand-off and command line (collaborators) *)

Record boot_info : Type := {
  mboot_is_2 : bool;
  (** [mboot2_find_tag(mboot_struct, type)], 0 when there is no such tag *)
  mboot2_find_tag : Z -> Z;
  (** [mboot_struct->config_table] *)
  config_table : Z;
  (** the kernel's argument map: key to value *)
  kernel_args : gmap string string
}.

Definition args_present (b : boot_info) (key : string) : bool :=
  bool_decide (is_Some (kernel_args b !! key)).

Definition args_value (b : boot_info) (key : string) : string :=
  default "" (kernel_args b !! key).

(** ** xtoi *)

Definition between (lo hi : ascii) (v : Z) : bool :=
  (chr lo <=? v) && (v <=? chr hi).

Fixpoint xtoi_loop (c : string) (out : Z) : Z :=
  match c with
  | EmptyString => out
  | String ch rest =>
    if chr ch =? 0 then out else
    let out := u64 (out * 0x10) in
    let v := chr ch in
    let out :=
      if between "0" "9" v then u64 (out + (v - chr "0"))
      else if between "a" "f" v then u64 (out + (v - chr "a" + 0xa))
      else if between "A" "F" v then u64 (out + (v - chr "A" + 0xa))
      else out in
    xtoi_loop rest out
  end.

Definition xtoi (c : string) : Z :=
  match c with
  | String "0" (String "x" rest) => xtoi_loop rest 0
  | _ => xtoi_loop c 0
  end.

(** ** Locating the RSDP *)

(** Where the scan starts and where it stops: lines 212-233. *)
Definition scan_range (b : boot_info) : Z * Z :=
  if mboot_is_2 b then
    let scan := u64 (mboot2_find_tag b 14) in
    let scan := if scan =? 0 then u64 (mboot2_find_tag b 15) else scan in
    let scan := u64 (scan + 8) in
    (scan, u64 (scan + 0x100000))
  else if negb (u32 (config_table b) =? 0) then
    let scan := u32 (config_table b) in
    (scan, u64 (scan + 0x100000))
  else if args_present b "acpi" then
    let scan := xtoi (args_value b "acpi") in
    (scan, u64 (scan + 0x100000))
  else (0xE0000, 0x100000).

(** The comparison of lines 237-243: seven bytes. *)
Definition rsd_ptr_match (m : phys_mem) (scan : Z) : bool :=
  (load8 m scan =? chr "R") &&
  (load8 m (scan + 1) =? chr "S") &&
  (load8 m (scan + 2) =? chr "D") &&
  (load8 m (scan + 3) =? chr " ") &&
  (load8 m (scan + 4) =? chr "P") &&
  (load8 m (scan + 5) =? chr "T") &&
  (load8 m (scan + 6) =? chr "R").

(** The loop of lines 235-247; the result is [(good, scan)] at its exit, and
    [None] when [fuel] iterations were not enough. *)
Fixpoint rsdp_scan (fuel : nat) (m : phys_mem) (scan scan_top : Z)
  : option (bool * Z) :=
  match fuel with
  | O => None
  | S fuel' =>
    if scan <? scan_top then
      if rsd_ptr_match m scan then Some (true, scan)
      else rsdp_scan fuel' m (u64 (scan + 16)) scan_top
    else Some (false, scan)
  end.

(** The 8-bit sum of lines 257-261. *)
Fixpoint checksum_loop (m : phys_mem) (tmp : Z) (n : nat) (check : Z) : Z :=
  match n with
  | O => check
  | S n' => checksum_loop m (tmp + 1) n' (u8 (check + load8 m tmp))
  end.

Definition rsdp_checksum (m : phys_mem) (rsdp : Z) : Z :=
  checksum_loop m rsdp (Z.to_nat Acpi.sizeof_rsdp_descriptor) 0.

(** ** Per-core descriptors and the globals of smp.c *)

(** Modelled from the spec: [struct ProcessorLocal] of kernel/process.h (not
    under src/), with the fields smp.c reads and writes.  Pointers (page map,
    tasks) are addresses; the model name is the 48-byte character array. *)
Record processor_local : Type := {
  cpu_id : Z;
  lapic_id : Z;
  cpu_manufacturer : string;
  cpu_model : Z;
  cpu_family : Z;
  cpu_model_name : list Z;
  current_pml : Z;
  kernel_idle_task : Z;
  current_process : Z
}.

Definition with_ids (d : processor_local) (id lapic : option Z) : processor_local :=
  {| cpu_id := default (cpu_id d) id;
     lapic_id := default (lapic_id d) lapic;
     cpu_manufacturer := cpu_manufacturer d;
     cpu_model := cpu_model d;
     cpu_family := cpu_family d;
     cpu_model_name := cpu_model_name d;
     current_pml := current_pml d;
     kernel_idle_task := kernel_idle_task d;
     current_process := current_process d |}.

Definition with_cpu_id (v : Z) (d : processor_local) := with_ids d (Some v) None.
Definition with_lapic_id (v : Z) (d : processor_local) := with_ids d None (Some v).

Definition with_cpu_info (d : processor_local)
  (manufacturer : string) (model family : option Z) (name : list Z)
  : processor_local :=
  {| cpu_id := cpu_id d;
     lapic_id := lapic_id d;
     cpu_manufacturer := manufacturer;
     cpu_model := default (cpu_model d) model;
     cpu_family := default (cpu_family d) family;
     cpu_model_name := name;
     current_pml := current_pml d;
     kernel_idle_task := kernel_idle_task d;
     current_process := current_process d |}.

Definition with_cpu_manufacturer (v : string) (d : processor_local) :=
  with_cpu_info d v None None (cpu_model_name d).
Definition with_cpu_model (v : Z) (d : processor_local) :=
  with_cpu_info d (cpu_manufacturer d) (Some v) None (cpu_model_name d).
Definition with_cpu_family (v : Z) (d : processor_local) :=
  with_cpu_info d (cpu_manufacturer d) None (Some v) (cpu_model_name d).
Definition with_cpu_model_name (v : list Z) (d : processor_local) :=
  with_cpu_info d (cpu_manufacturer d) None None v.

Definition with_tasks (d : processor_local) (pml idle cur : option Z)
  : processor_local :=
  {| cpu_id := cpu_id d;
     lapic_id := lapic_id d;
     cpu_manufacturer := cpu_manufacturer d;
     cpu_model := cpu_model d;
     cpu_family := cpu_family d;
     cpu_model_name := cpu_model_name d;
     current_pml := default (current_pml d) pml;
     kernel_idle_task := default (kernel_idle_task d) idle;
     current_process := default (current_process d) cur |}.

Definition with_current_pml (v : Z) (d : processor_local) :=
  with_tasks d (Some v) None None.
Definition with_kernel_idle_task (v : Z) (d : processor_local) :=
  with_tasks d None (Some v) None.
Definition with_current_process (v : Z) (d : processor_local) :=
  with_tasks d None None (Some v).

(** What a run does that is visible outside smp.c, in program order. *)
Inductive event : Type :=
| Printf (line : string) (args : list Z)
| MmioStore (addr value : Z)
| MmioLoad (addr value : Z)
| Pause
| ShortDelay (amount : Z)
| ArchSetCoreBase (index : Z)
| IdtApInstall
| FpuInitialize
| PatInitialize
| SpawnKidle (arg : Z)
| SwitchNext
| MapMmioRegion (paddr size : Z)
| AllocateAFrame
| FrameClear (addr : Z)
| GdtCopyToTrampoline (ap : Z) (dst : Z)
| Valloc (size : Z).

Record kstate : Type := {
  processor_local_data : list processor_local;
  processor_count : Z;
  lapic_final : Z;
  _ap_stack_base : Z;
  _ap_startup_flag : Z;
  _ap_current : Z;
  (** physical memory, reached through the direct map *)
  phys : phys_mem;
  (** what the LAPIC answers to the coming loads of its registers *)
  lapic_answers : list Z;
  (** events so far, the latest last *)
  trace : list event
}.

Definition set_processor_local_data (v : list processor_local) (s : kstate) :=
  {| processor_local_data := v; processor_count := processor_count s;
     lapic_final := lapic_final s; _ap_stack_base := _ap_stack_base s;
     _ap_startup_flag := _ap_startup_flag s; _ap_current := _ap_current s;
     phys := phys s; lapic_answers := lapic_answers s; trace := trace s |}.
Definition set_processor_count (v : Z) (s : kstate) :=
  {| processor_local_data := processor_local_data s; processor_count := v;
     lapic_final := lapic_final s; _ap_stack_base := _ap_stack_base s;
     _ap_startup_flag := _ap_startup_flag s; _ap_current := _ap_current s;
     phys := phys s; lapic_answers := lapic_answers s; trace := trace s |}.
Definition set_lapic_final (v : Z) (s : kstate) :=
  {| processor_local_data := processor_local_data s;
     processor_count := processor_count s;
     lapic_final := v; _ap_stack_base := _ap_stack_base s;
     _ap_startup_flag := _ap_startup_flag s; _ap_current := _ap_current s;
     phys := phys s; lapic_answers := lapic_answers s; trace := trace s |}.
Definition set_ap_stack_base (v : Z) (s : kstate) :=
  {| processor_local_data := processor_local_data s;
     processor_count := processor_count s;
     lapic_final := lapic_final s; _ap_stack_base := v;
     _ap_startup_flag := _ap_startup_flag s; _ap_current := _ap_current s;
     phys := phys s; lapic_answers := lapic_answers s; trace := trace s |}.
Definition set_ap_startup_flag (v : Z) (s : kstate) :=
  {| processor_local_data := processor_local_data s;
     processor_count := processor_count s;
     lapic_final := lapic_final s; _ap_stack_base := _ap_stack_base s;
     _ap_startup_flag := v; _ap_current := _ap_current s;
     phys := phys s; lapic_answers := lapic_answers s; trace := trace s |}.
Definition set_ap_current (v : Z) (s : kstate) :=
  {| processor_local_data := processor_local_data s;
     processor_count := processor_count s;
     lapic_final := lapic_final s; _ap_stack_base := _ap_stack_base s;
     _ap_startup_flag := _ap_startup_flag s; _ap_current := v;
     phys := phys s; lapic_answers := lapic_answers s; trace := trace s |}.
Definition set_phys (v : phys_mem) (s : kstate) :=
  {| processor_local_data := processor_local_data s;
     processor_count := processor_count s;
     lapic_final := lapic_final s; _ap_stack_base := _ap_stack_base s;
     _ap_startup_flag := _ap_startup_flag s; _ap_current := _ap_current s;
     phys := v; lapic_answers := lapic_answers s; trace := trace s |}.
Definition set_lapic_answers (v : list Z) (s : kstate) :=
  {| processor_local_data := processor_local_data s;
     processor_count := processor_count s;
     lapic_final := lapic_final s; _ap_stack_base := _ap_stack_base s;
     _ap_startup_flag := _ap_startup_flag s; _ap_current := _ap_current s;
     phys := phys s; lapic_answers := v; trace := trace s |}.
Definition set_trace (v : list event) (s : kstate) :=
  {| processor_local_data := processor_local_data s;
     processor_count := processor_count s;
     lapic_final := lapic_final s; _ap_stack_base := _ap_stack_base s;
     _ap_startup_flag := _ap_startup_flag s; _ap_current := _ap_current s;
     phys := phys s; lapic_answers := lapic_answers s; trace := v |}.

(** ** The monad of the routines

    A routine maps the state to its result and the state it leaves.  [None]
    is a run that does not come back with a state: a wait that is never
    answered, a loop out of fuel, or an access outside
    [processor_local_data]. *)

Definition M (A : Type) : Type := kstate -> option (A * kstate).

Definition ret {A : Type} (a : A) : M A := fun s => Some (a, s).

Definition bind {A B : Type} (c : M A) (k : A -> M B) : M B :=
  fun s => match c s with
           | Some (a, s') => k a s'
           | None => None
           end.

Definition stuck {A : Type} : M A := fun _ => None.

Declare Scope smp_scope.
Delimit Scope smp_scope with smp.
Notation "x <- c1 ;; c2" := (bind c1 (fun x => c2))
  (at level 100, c1 at next level, c2 at level 200, right associativity)
  : smp_scope.
Notation "c1 ;; c2" := (bind c1 (fun _ => c2))
  (at level 100, c2 at level 200, right associativity) : smp_scope.
Local Open Scope smp_scope.

Definition gets {A : Type} (f : kstate -> A) : M A := fun s => Some (f s, s).
Definition modify (f : kstate -> kstate) : M unit := fun s => Some (tt, f s).
Definition lift {A : Type} (o : option A) : M A :=
  fun s => match o with Some a => Some (a, s) | None => None end.
Definition when (c : bool) (k : M unit) : M unit := if c then k else ret tt.

Definition emit (e : event) : M unit :=
  modify (fun s => set_trace (trace s ++ [e]) s).

(** A log line; the terminating newline is left out. *)
Definition printf (line : string) (args : list Z) : M unit :=
  emit (Printf line args).

(** The final state of a run, when it has one. *)
Definition exec {A : Type} (c : M A) (s : kstate) : option kstate :=
  match c s with Some (_, s') => Some s' | None => None end.

(** The events a run from [s] to [s'] added. *)
Definition emitted (s s' : kstate) : list event :=
  drop (length (trace s)) (trace s').

(** [processor_local_data[i]] read and updated in place. *)
Definition core_at (i : Z) : M processor_local :=
  fun s => if i <? 0 then None
           else lift (processor_local_data s !! Z.to_nat i) s.

Definition update_core (i : Z) (f : processor_local -> processor_local)
  : M unit :=
  core_at i ;;
  modify (fun s =>
    set_processor_local_data (alter f (Z.to_nat i) (processor_local_data s)) s).

(** ** Hardware and collaborators

    What smp.c obtains from outside: the values its collaborators return and
    the constants of the kernel image. *)
Record platform : Type := {
  boot : boot_info;
  (** [cpuid] on a core: leaf to (eax, ebx, ecx, edx) *)
  cpuid : Z -> Z -> Z * Z * Z * Z;
  (** the mapping [mmu_map_mmio_region(paddr, size)] returns *)
  mmio_mapping : Z -> Z -> Z;
  (** the frame index [mmu_allocate_a_frame()] hands out *)
  frame_given : Z;
  (** the buffer [valloc] returns for the stack of AP [i] *)
  stack_given : Z -> Z;
  (** the task [spawn_kidle(arg)] returns on a core: core, arg *)
  kidle_given : Z -> Z -> Z;
  (** the bytes of [gdt[ap].pointer] *)
  gdt_pointer : Z -> list Z;
  (** the assembled bytes from [_ap_bootstrap_start] to [_ap_bootstrap_end] *)
  _ap_bootstrap : list Z;
  (** offset of the label [_ap_bootstrap_gdtp] from [_ap_bootstrap_start] *)
  _ap_bootstrap_gdtp : Z;
  KERNEL_STACK_SIZE : Z;
  (** physical address of [init_page_region] *)
  init_page_region : Z;
  (** whether the processor with this LAPIC id starts on INIT and SIPI *)
  ap_answers : Z -> bool
}.

Definition pause : M unit := emit Pause.

(** Lines 99-102: a spin on the time stamp counter, which the hardware
    advances; recorded as one event. *)
Definition short_delay (amount : Z) : M unit := emit (ShortDelay amount).

(** ** The time stamp counter: lines 93-102

    The spin of [short_delay] with the counter spelled out. *)

(** Lines 93-97: [rdtsc] leaves the low half of the counter in eax and the
    high half in edx. *)
Definition read_tsc (lo hi : Z) : Z :=
  Z.lor (u64 (Z.shiftl (u32 hi) 32)) (u32 lo).

(** The halves [rdtsc] gives for the counter value [t]. *)
Definition rdtsc (t : Z) : Z * Z := (Z.land t 0xffffffff, Z.shiftr t 32).

(** The loop of line 101 against the deadline [clock + amount *
    arch_cpu_mhz()]: each round reads the counter once.  [readings] are the
    values the counter has at the coming reads; the result is the readings
    left when the loop ends, [None] when the counter does not get to the
    deadline. *)
Fixpoint tsc_spin (deadline : Z) (readings : list Z) : option (list Z) :=
  match readings with
  | [] => None
  | t :: rest =>
    let '(lo, hi) := rdtsc t in
    if read_tsc lo hi <? deadline then tsc_spin deadline rest else Some rest
  end.

(** Lines 99-102 with the counter spelled out ([short_delay] above records
    the call as one event).  [arch_cpu_mhz] is what [arch_cpu_mhz()]
    returns, the calibrated frequency, the same at every round. *)
Definition short_delay_spin (arch_cpu_mhz amount : Z) (readings : list Z)
  : option (list Z) :=
  match readings with
  | [] => None
  | t :: rest =>
    let '(lo, hi) := rdtsc t in
    let clock := read_tsc lo hi in
    tsc_spin (u64 (clock + u64 (u64 amount * u64 arch_cpu_mhz))) rest
  end.

(** ** The LAPIC gateway: lines 173-186 *)

Definition lapic_write (addr value : Z) : M unit :=
  base <- gets lapic_final ;;
  emit (MmioStore (u64 (base + addr)) (u32 value)).

Definition lapic_read (addr : Z) : M Z :=
  base <- gets lapic_final ;;
  answers <- gets lapic_answers ;;
  match answers with
  | [] => stuck
  | v :: rest =>
    modify (set_lapic_answers rest) ;;
    emit (MmioLoad (u64 (base + addr)) (u32 v)) ;;
    ret (u32 v)
  end.

(** The do-while of line 185. *)
Fixpoint icr_wait (fuel : nat) : M unit :=
  match fuel with
  | O => stuck
  | S fuel' =>
    pause ;;
    v <- lapic_read 0x300 ;;
    if negb (Z.land v (Z.shiftl 1 12) =? 0) then icr_wait fuel' else ret tt
  end.

(** Each round of the wait takes one answer, so one round more than there
    are answers is fuel enough. *)
Definition lapic_send_ipi (i val : Z) : M unit :=
  lapic_write 0x310 (Z.shiftl i 24) ;;
  lapic_write 0x300 val ;;
  answers <- gets lapic_answers ;;
  icr_wait (S (length answers)).

(** ** CPU identification: lines 142-171 *)

Definition overwrite (src dst : list Z) : list Z :=
  src ++ drop (length src) dst.

Definition le32 (x : Z) : list Z :=
  [u8 x; u8 (Z.shiftr x 8); u8 (Z.shiftr x 16); u8 (Z.shiftr x 24)].

Definition c_string (s : string) : list Z :=
  map chr (list_ascii_of_string s) ++ [0].

Definition brand_of (p : platform) (core : Z) : list Z :=
  let regs leaf := let '(a, b, c, d) := cpuid p core leaf in [a; b; c; d] in
  flat_map le32 (regs 0x80000002 ++ regs 0x80000003 ++ regs 0x80000004).

(** [core] is the index of the descriptor [this_core] points to. *)
Definition load_processor_info (p : platform) (core : Z) : M unit :=
  let '(_, b, _, _) := cpuid p core 0 in
  update_core core (with_cpu_manufacturer "Unknown") ;;
  (if u32 b =? 0x756e6547 then
     let '(a, _, _, _) := cpuid p core 1 in
     update_core core (with_cpu_manufacturer "Intel") ;;
     update_core core (with_cpu_model (Z.land (Z.shiftr (u32 a) 4) 0x0F)) ;;
     update_core core (with_cpu_family (Z.land (Z.shiftr (u32 a) 8) 0x0F))
   else if u32 b =? 0x68747541 then
     let '(a, _, _, _) := cpuid p core 1 in
     update_core core (with_cpu_manufacturer "AMD") ;;
     update_core core (with_cpu_model (Z.land (Z.shiftr (u32 a) 4) 0x0F)) ;;
     update_core core (with_cpu_family (Z.land (Z.shiftr (u32 a) 8) 0x0F))
   else ret tt) ;;
  me <- core_at core ;;
  update_core (cpu_id me)
    (fun d => with_cpu_model_name
                (overwrite (c_string "(unknown)") (cpu_model_name d)) d) ;;
  let '(a, _, _, _) := cpuid p core 0x80000000 in
  when (0x80000004 <=? u32 a)
    (me <- core_at core ;;
     update_core (cpu_id me)
       (fun d => with_cpu_model_name
                   (overwrite (brand_of p core) (cpu_model_name d)) d)).

(** ** The C entry point of an AP: lines 110-140 *)

Definition spawn_kidle (p : platform) (core arg : Z) : M Z :=
  emit (SpawnKidle arg) ;; ret (kidle_given p core arg).

Definition ap_main (p : platform) : M unit :=
  core <- gets _ap_current ;;
  emit (ArchSetCoreBase core) ;;
  let '(_, ebx, _, _) := cpuid p core 0x1 in
  me <- core_at core ;;
  when (negb (lapic_id me =? s32 (Z.shiftr (u32 ebx) 24)))
    (printf "smp: lapic id does not match" []) ;;
  emit IdtApInstall ;;
  emit FpuInitialize ;;
  emit PatInitialize ;;
  base <- gets lapic_final ;;
  emit (MmioStore (u64 (base + 0x0F0)) 0x127) ;;
  update_core core (with_current_pml (init_page_region p)) ;;
  task <- spawn_kidle p core 0 ;;
  update_core core (with_kernel_idle_task task) ;;
  me <- core_at core ;;
  update_core core (with_current_process (kernel_idle_task me)) ;;
  load_processor_info p core ;;
  modify (set_ap_startup_flag 1) ;;
  emit SwitchNext.

(** ** IPI services: lines 346-368 *)

Definition smp_inactive : M bool :=
  base <- gets lapic_final ;;
  count <- gets processor_count ;;
  ret ((base =? 0) || (count <? 2)).

Definition arch_wakeup_others : M unit :=
  off <- smp_inactive ;;
  if off then ret tt else lapic_send_ipi 0 (Z.lor 0x7E (Z.shiftl 3 18)).

Definition arch_tick_others : M unit :=
  off <- smp_inactive ;;
  if off then ret tt else lapic_send_ipi 0 (Z.lor 0x7b (Z.shiftl 3 18)).

Definition arch_tlb_shootdown (vaddr : Z) : M unit :=
  off <- smp_inactive ;;
  if off then ret tt else lapic_send_ipi 0 (Z.lor 0x7C (Z.shiftl 3 18)).

(** ** Collaborators called for their effect *)

Definition mmu_map_mmio_region (p : platform) (paddr size : Z) : M Z :=
  emit (MapMmioRegion paddr size) ;; ret (mmio_mapping p paddr size).

Definition mmu_allocate_a_frame (p : platform) : M Z :=
  emit AllocateAFrame ;; ret (frame_given p).

Definition mmu_frame_clear (addr : Z) : M unit := emit (FrameClear addr).

Definition valloc (p : platform) (ap size : Z) : M Z :=
  emit (Valloc size) ;; ret (stack_given p ap).

(** Modelled from the spec: gdt.c is not under src/; the routine patches the
    10-byte GDT pointer descriptor of AP [ap] into the trampoline at [dst]. *)
Definition gdt_copy_to_trampoline (p : platform) (ap dst : Z) : M unit :=
  emit (GdtCopyToTrampoline ap dst) ;;
  modify (fun s =>
    set_phys (memcpy_from (phys s) dst (take 10 (gdt_pointer p ap))) s).

(** ** Walking the MADT: lines 281-296 *)

(** The result is [(toomany, cores)]: whether the walk left through
    [goto _toomany], and the count of cores so far. *)
Fixpoint madt_walk (fuel : nat) (table entry cores : Z) : M (bool * Z) :=
  match fuel with
  | O => stuck
  | S fuel' =>
    m <- gets phys ;;
    if entry <? table + load32 m (table + Acpi.header_length) then
      let next := entry + load8 m (entry + 1) in
      if load8 m entry =? 0 then
        if negb (Z.land (load8 m (entry + 4)) 0x01 =? 0) then
          if cores =? 32 then
            printf "smp: too many cores" [] ;;
            ret (true, cores)
          else
            update_core cores (with_cpu_id cores) ;;
            update_core cores (with_lapic_id (load8 m (entry + 3))) ;;
            madt_walk fuel' table next (cores + 1)
        else madt_walk fuel' table next cores
      else madt_walk fuel' table next cores
    else ret (false, cores)
  end.

Definition is_apic (m : phys_mem) (table : Z) : bool :=
  (load8 m table =? chr "A") &&
  (load8 m (table + 1) =? chr "P") &&
  (load8 m (table + 2) =? chr "I") &&
  (load8 m (table + 3) =? chr "C").

(** The loop of lines 275-298 with [n] rounds to go; the result is
    [(cores, lapic_base)] at [_toomany]. *)
Fixpoint rsdt_loop (fuel n : nat) (rsdt i cores lapic_base : Z) : M (Z * Z) :=
  match n with
  | O => ret (cores, lapic_base)
  | S n' =>
    m <- gets phys ;;
    let table := load32 m (rsdt + Acpi.rsdt_pointers + 4 * i) in
    if is_apic m table then
      let lapic_base := load32 m (table + Acpi.madt_lapic_addr) in
      r <- madt_walk fuel table (table + Acpi.madt_entries) cores ;;
      let '(toomany, cores) := r in
      if toomany then ret (cores, lapic_base)
      else rsdt_loop fuel n' rsdt (i + 1) cores lapic_base
    else rsdt_loop fuel n' rsdt (i + 1) cores lapic_base
  end.

Definition rsdt_entries (m : phys_mem) (rsdt : Z) : nat :=
  Z.to_nat (u32 (load32 m (rsdt + Acpi.header_length) - 36) / 4).

(** ** Starting the APs: lines 310-343 *)

Definition trampoline : Z := 0x1000.

(** The wait of line 336.  The processor addressed by the SIPI, when it
    starts, goes through the trampoline into [ap_main]; the BSP then sees the
    flag.  A processor that does not start leaves the BSP waiting. *)
Definition await_ap (p : platform) (lapic : Z) : M unit :=
  when (ap_answers p lapic) (ap_main p) ;;
  pause ;;
  flag <- gets _ap_startup_flag ;;
  if flag =? 0 then stuck else ret tt.

(** The body of the loop of line 317 for AP [i]. *)
Definition start_ap (p : platform) (i : Z) : M unit :=
  modify (set_ap_startup_flag 0) ;;
  gdt_copy_to_trampoline p i (trampoline + _ap_bootstrap_gdtp p) ;;
  stack <- valloc p i (KERNEL_STACK_SIZE p) ;;
  modify (set_ap_stack_base (u64 (stack + KERNEL_STACK_SIZE p))) ;;
  modify (set_ap_current i) ;;
  target <- core_at i ;;
  lapic_send_ipi (lapic_id target) 0x4500 ;;
  short_delay 5000 ;;
  target <- core_at i ;;
  lapic_send_ipi (lapic_id target) 0x4601 ;;
  target <- core_at i ;;
  await_ap p (lapic_id target).

Fixpoint start_aps (p : platform) (n : nat) (i : Z) : M unit :=
  match n with
  | O => ret tt
  | S n' => start_ap p i ;; start_aps p n' (i + 1)
  end.

(** ** smp_initialize: lines 210-344 *)

(** Lines 271-301: from the RSDP to [processor_count].  The result is
    [(cores, lapic_base)]. *)
Definition parse_tables (fuel : nat) (rsdp : Z) : M (option (Z * Z)) :=
  m <- gets phys ;;
  let rsdt := load32 m (rsdp + Acpi.rsdp_rsdt_address) in
  r <- rsdt_loop fuel (rsdt_entries m rsdt) rsdt 0 0 0x0 ;;
  let '(cores, lapic_base) := r in
  modify (set_processor_count cores) ;;
  ret (Some (cores, lapic_base)).

(** Lines 211-301.  The result is [None] when the routine has returned. *)
Definition smp_discover (fuel : nat) (p : platform) : M (option (Z * Z)) :=
  let b := boot p in
  let '(scan, scan_top) := scan_range b in
  m <- gets phys ;;
  found <- lift (rsdp_scan fuel m scan scan_top) ;;
  let '(good, scan) := found in
  load_processor_info p 0 ;;
  if negb good then
    printf "smp: No RSD PTR found" [] ;;
    ret None
  else
  let rsdp := scan in
  let check := rsdp_checksum m rsdp in
  if negb (check =? 0) && negb (args_present b "noacpichecksum") then
    printf "smp: Bad checksum on RSDP (add 'noacpichecksum' to ignore this)" [] ;;
    ret None
  else
  if args_present b "nosmp" then ret None else
  parse_tables fuel rsdp.

(** Lines 303-343. *)
Definition smp_start (p : platform) (cores lapic_base : Z) : M unit :=
  if lapic_base =? 0 then ret tt else
  mapped <- mmu_map_mmio_region p lapic_base 0x1000 ;;
  modify (set_lapic_final mapped) ;;
  if cores <=? 1 then ret tt else
  frame <- mmu_allocate_a_frame p ;;
  let tmp_space := u64 (Z.shiftl frame 12) in
  modify (fun s => set_phys (memcpy (phys s) tmp_space trampoline 0x1000) s) ;;
  modify (fun s => set_phys (memcpy_from (phys s) trampoline (_ap_bootstrap p)) s) ;;
  start_aps p (Z.to_nat (cores - 1)) 1 ;;
  modify (fun s => set_phys (memcpy (phys s) trampoline tmp_space 0x1000) s) ;;
  mmu_frame_clear tmp_space ;;
  printf "smp: enabled with %d cores" [cores].

Definition smp_initialize (fuel : nat) (p : platform) : M unit :=
  r <- smp_discover fuel p ;;
  match r with
  | None => ret tt
  | Some (cores, lapic_base) => smp_start p cores lapic_base
  end.

(** ** Vocabulary of the statements *)

(** The rounds of the delivery-status wait that read the values [vs] from
    the ICR of the LAPIC mapped at [base]. *)
Definition polls (base : Z) (vs : list Z) : list event :=
  flat_map (fun v => [Pause; MmioLoad (u64 (base + 0x300)) (u32 v)]) vs.

(** The state after a run that only took LAPIC answers and added events. *)
Definition after_io (s : kstate) (answers : list Z) (events : list event)
  : kstate :=
  set_trace (trace s ++ events) (set_lapic_answers answers s).

(** The bytes at [a] spell [sig]. *)
Definition signature_at (sig : string) (m : phys_mem) (a : Z) : Prop :=
  map (fun i => load8 m (a + Z.of_nat i)) (seq 0 (length (list_ascii_of_string sig)))
  = map chr (list_ascii_of_string sig).

(** [a] is reached from [scan] in steps of 16. *)
Definition on_stride (scan a : Z) : Prop := exists k, 0 <= k /\ a = scan + 16 * k.

(** The 64-bit [scan += 16] does not wrap below [top]. *)
Definition no_wrap (scan top : Z) : Prop :=
  top <= 2 ^ 64 - 16 \/ (top < 2 ^ 64 /\ on_stride scan top).

(** Every run of [c] that returns relates its first state to its last by [R]. *)
Definition preserves {A : Type} (R : relation kstate) (c : M A) : Prop :=
  forall s a s', c s = Some (a, s') -> R s s'.

(** The run leaves the component [f] of the state alone. *)
Definition keeps {B : Type} (f : kstate -> B) : relation kstate :=
  fun s s' => f s' = f s.

(** Only [processor_local_data] differs. *)
Definition only_cores : relation kstate :=
  fun s s' => s' = set_processor_local_data (processor_local_data s') s.

(** The descriptors correspond slot by slot through [R]. *)
Definition cores_step (R : relation processor_local) : relation kstate :=
  fun s s' => Forall2 R (processor_local_data s) (processor_local_data s').

(** The run added events, each of them satisfying [Q]. *)
Definition emits (Q : event -> Prop) : relation kstate :=
  fun s s' => exists evs, trace s' = trace s ++ evs /\ Forall Q evs.

Definition same_ids : relation processor_local :=
  fun d d' => cpu_id d' = cpu_id d /\ lapic_id d' = lapic_id d.

Definition same_tasks : relation processor_local :=
  fun d d' => current_pml d' = current_pml d /\
              kernel_idle_task d' = kernel_idle_task d /\
              current_process d' = current_process d.

Definition rel_and {T : Type} (R1 R2 : relation T) : relation T :=
  fun x y => R1 x y /\ R2 x y.

(** From a state in [I], [c] returns a result in [Q] and a state in [I]. *)
Definition returns {A : Type} (I : kstate -> Prop) (c : M A) (Q : A -> Prop)
  : Prop :=
  forall s, I s -> exists a s', c s = Some (a, s') /\ I s' /\ Q a.

(** Slot [i] of [processor_local_data] is there and carries [cpu_id = k]. *)
Definition core_has_id (i k : Z) (s : kstate) : Prop :=
  0 <= i /\
  exists d, processor_local_data s !! Z.to_nat i = Some d /\ cpu_id d = k.

(** Slot [i] of [processor_local_data] is there. *)
Definition has_core (i : Z) (s : kstate) : Prop :=
  0 <= i /\ is_Some (processor_local_data s !! Z.to_nat i).

(** What [load_processor_info] on [core] needs to come back: the descriptor
    of [core], and the one its [cpu_id] field indexes. *)
Definition info_ready (core k : Z) (s : kstate) : Prop :=
  core_has_id core k s /\ has_core k s.

(** The arguments of the calls of [spawn_kidle] among some events. *)
Definition spawn_args (evs : list event) : list Z :=
  flat_map (fun e => match e with SpawnKidle arg => [arg] | _ => [] end) evs.

(** ** Vocabulary of the MADT *)

(** The entry at [e] is a processor-local APIC entry (type 0) whose flag
    bit 0 is set. *)
Definition counts (m : phys_mem) (e : Z) : bool :=
  (load8 m e =? 0) && Z.odd (load8 m (e + 4)).

(** The end of the table at [table]: [table + madt->header.length]. *)
Definition table_end (m : phys_mem) (table : Z) : Z :=
  table + load32 m (table + Acpi.header_length).

(** [reaches m top e e']: stepping from the entry at [e] by the length bytes
    of the entries below [top] arrives at [e']. *)
Inductive reaches (m : phys_mem) (top : Z) : Z -> Z -> Prop :=
| reaches_here (e : Z) : reaches m top e e
| reaches_next (e e' : Z) :
    e < top -> reaches m top (e + load8 m (e + 1)) e' -> reaches m top e e'.

(** The table every slot of which is there: the array of MAX_CPUS
    descriptors. *)
Definition table_of_32 (s : kstate) : Prop :=
  length (processor_local_data s) = 32%nat.

(** An entry of the MADT as the walk reads it: the type byte [entry[0]],
    the length byte [entry[1]], the APIC id [entry[3]] and the flags byte
    [entry[4]]. *)
Record madt_entry : Type := {
  entry_type : Z;
  entry_length : Z;
  entry_apic_id : Z;
  entry_flags : Z
}.

(** The entries [es] lie one behind the other from [entry] up to [top]. *)
Fixpoint entries_at (m : phys_mem) (entry top : Z) (es : list madt_entry)
  : Prop :=
  match es with
  | [] => top <= entry
  | e :: rest =>
    entry < top /\
    load8 m entry = entry_type e /\
    load8 m (entry + 1) = entry_length e /\
    load8 m (entry + 3) = entry_apic_id e /\
    load8 m (entry + 4) = entry_flags e /\
    entries_at m (entry + entry_length e) top rest
  end.

(** A processor-local APIC entry (type 0) with flag bit 0 set. *)
Definition enabled_lapic (e : madt_entry) : bool :=
  (entry_type e =? 0) && Z.odd (entry_flags e).

(** The APIC ids of the enabled processors, in the order of the table. *)
Definition enabled_ids (es : list madt_entry) : list Z :=
  map entry_apic_id (filter (fun e => enabled_lapic e = true) es).

(** The table at [table] is a MADT with the entries [es]. *)
Definition madt_at (m : phys_mem) (table : Z) (es : list madt_entry) : Prop :=
  is_apic m table = true /\
  entries_at m (table + Acpi.madt_entries) (table_end m table) es.

(** The RSDT at [rsdt] lists the tables [ptrs]. *)
Definition rsdt_lists (m : phys_mem) (rsdt : Z) (ptrs : list Z) : Prop :=
  rsdt_entries m rsdt = length ptrs /\
  forall (i : nat) (t : Z),
    ptrs !! i = Some t ->
    load32 m (rsdt + Acpi.rsdt_pointers + 4 * Z.of_nat i) = t.

(** The descriptors after the processors [ids] were entered from slot
    [cores] on. *)
Fixpoint assign_cores (cores : Z) (ids : list Z) (l : list processor_local)
  : list processor_local :=
  match ids with
  | [] => l
  | id :: rest =>
    assign_cores (cores + 1) rest
      (alter (with_lapic_id id) (Z.to_nat cores)
         (alter (with_cpu_id cores) (Z.to_nat cores) l))
  end.

(** The state after a walk that entered [ids] from slot [cores] on and
    logged [evs]. *)
Definition walked (s : kstate) (cores : Z) (ids : list Z) (evs : list event)
  : kstate :=
  set_trace (trace s ++ evs)
    (set_processor_local_data
       (assign_cores cores ids (processor_local_data s)) s).

(** What the parse of a MADT with the entries [es] has produced in [s'],
    [s] being the state before smp_initialize: the count, one descriptor
    per enabled processor in table order up to 32, the other slots with
    their ids as before, and the too-many-cores line exactly when there are
    more than 32. *)
Definition parsed (es : list madt_entry) (s s' : kstate) : Prop :=
  processor_count s' = Z.min (Z.of_nat (length (enabled_ids es))) 32 /\
  (forall (j : nat) (id : Z),
     enabled_ids es !! j = Some id -> (j < 32)%nat ->
     exists d, processor_local_data s' !! j = Some d /\
               cpu_id d = Z.of_nat j /\ lapic_id d = id) /\
  (forall (j : nat) (d : processor_local),
     (Z.min (Z.of_nat (length (enabled_ids es))) 32 <= Z.of_nat j) ->
     processor_local_data s !! j = Some d ->
     exists d', processor_local_data s' !! j = Some d' /\ same_ids d d') /\
  (Printf "smp: too many cores" [] ∈ emitted s s'
   <-> 32 < Z.of_nat (length (enabled_ids es))).

Definition not_too_many (e : event) : Prop :=
  e <> Printf "smp: too many cores" [].

(** What lines 303-343 leave alone. *)
Definition start_step : relation kstate :=
  rel_and (keeps processor_count)
    (rel_and (cores_step same_ids) (emits not_too_many)).

(** ** Vocabulary of smp_initialize *)

Definition no_rsd_ptr : event := Printf "smp: No RSD PTR found" [].

Definition bad_checksum : event :=
  Printf "smp: Bad checksum on RSDP (add 'noacpichecksum' to ignore this)" [].

Definition too_many_cores : event := Printf "smp: too many cores" [].

(** The scan of smp_initialize from state [s] ends with [(good, rsdp)]. *)
Definition scan_ends (fuel : nat) (p : platform) (s : kstate)
    (good : bool) (rsdp : Z) : Prop :=
  rsdp_scan fuel (phys s) (fst (scan_range (boot p))) (snd (scan_range (boot p)))
  = Some (good, rsdp).

(** The descriptor at [rsdp] is turned away by the checksum gate. *)
Definition rejected (p : platform) (s : kstate) (rsdp : Z) : bool :=
  negb (rsdp_checksum (phys s) rsdp =? 0)
  && negb (args_present (boot p) "noacpichecksum").

(** ** Vocabulary of the AP bring-up *)

(** Where the saved copy of the trampoline page goes: [tmp_space] of
    line 311. *)
Definition scratch (p : platform) : Z := u64 (Z.shiftl (frame_given p) 12).

Definition in_page (base a : Z) : Prop := base <= a < base + 0x1000.

(** Physical memory is the same at the addresses in [P]. *)
Definition phys_at (P : Z -> Prop) : relation kstate :=
  fun s s' => forall a, P a -> phys s' a = phys s a.

(** The addresses the GDT pointer of the trampoline does not occupy. *)
Definition off_gdt_pointer (p : platform) (a : Z) : Prop :=
  ~ (trampoline + _ap_bootstrap_gdtp p <= a
     < trampoline + _ap_bootstrap_gdtp p + 10).

(** Events of the per-AP loop: no frame is allocated or freed, and the
    too-many-cores line is not logged. *)
Definition quiet (e : event) : Prop :=
  match e with
  | Printf line _ => line <> "smp: too many cores"
  | AllocateAFrame => False
  | FrameClear _ => False
  | _ => True
  end.

(** What the per-AP loop leaves alone; [P] are addresses off the GDT
    pointer. *)
Definition loop_step (P : Z -> Prop) : relation kstate :=
  rel_and (keeps processor_count)
    (rel_and (keeps lapic_final)
       (rel_and (cores_step same_ids)
          (rel_and (emits quiet) (phys_at P)))).

(** The trampoline fits its page, with the GDT pointer inside it. *)
Definition trampoline_fits (p : platform) : Prop :=
  Z.of_nat (length (_ap_bootstrap p)) <= 0x1000 /\
  0 <= _ap_bootstrap_gdtp p /\ _ap_bootstrap_gdtp p + 10 <= 0x1000.

(** The state in which the per-AP loop starts: the LAPIC mapped, the page
    saved to the scratch frame and the trampoline copied in (lines
    306-315). *)
Definition installed (p : platform) (lapic_base : Z) (s : kstate) : kstate :=
  set_phys
    (memcpy_from (memcpy (phys s) (scratch p) trampoline 0x1000)
                 trampoline (_ap_bootstrap p))
    (set_trace (trace s ++ [MapMmioRegion lapic_base 0x1000; AllocateAFrame])
       (set_lapic_final (mmio_mapping p lapic_base 0x1000) s)).

(** The state smp_initialize leaves once the loop has ended in [s]: the
    page copied back, the scratch frame freed, the line logged (lines
    340-343). *)
Definition restored (p : platform) (cores : Z) (s : kstate) : kstate :=
  set_trace
    (trace s ++ [FrameClear (scratch p);
                 Printf "smp: enabled with %d cores" [cores]])
    (set_phys (memcpy (phys s) trampoline (scratch p) 0x1000) s).

(** ** Vocabulary of xtoi and of the checksum *)

(** The value of a hexadecimal digit, by its place among the digits; every
    other character counts as the digit 0. *)
Definition digit_value (c : ascii) : Z :=
  match String.index 0 (String c EmptyString) "0123456789abcdef" with
  | Some i => Z.of_nat i
  | None =>
    match String.index 0 (String c EmptyString) "ABCDEF" with
    | Some i => 10 + Z.of_nat i
    | None => 0
    end
  end.

(** The characters of [s] read as the digits of a number in base 16. *)
Definition hex_number (s : string) : Z :=
  fold_left (fun acc c => 16 * acc + digit_value c) (list_ascii_of_string s) 0.

(** [s] is the contents of a C string: no character of it is NUL. *)
Definition c_chars (s : string) : Prop :=
  Forall (fun c => c <> Ascii.zero) (list_ascii_of_string s).

(** The sum of the [n] bytes from [a] on. *)
Fixpoint byte_sum (m : phys_mem) (a : Z) (n : nat) : Z :=
  match n with
  | O => 0
  | S n' => load8 m a + byte_sum m (a + 1) n'
  end.

(** ** Vocabulary of the CPU identification and of the AP entry *)

(** The registers of a [cpuid] result. *)
Definition eax (r : Z * Z * Z * Z) : Z := let '(a, _, _, _) := r in a.
Definition ebx (r : Z * Z * Z * Z) : Z := let '(_, b, _, _) := r in b.

(** ebx of leaf 0 is one of the two vendor words the routine knows:
    "Genu" and "Auth". *)
Definition known_vendor (b : Z) : bool :=
  (u32 b =? 0x756e6547) || (u32 b =? 0x68747541).

(** What [ap_main] on core [core] with the descriptor [me] adds to the
    trace before it calls [load_processor_info]: lines 111-131. *)
Definition ap_entry_events (p : platform) (base core : Z) (me : processor_local)
  : list event :=
  [ArchSetCoreBase core]
  ++ (if lapic_id me =? s32 (Z.shiftr (u32 (ebx (cpuid p core 0x1))) 24)
      then [] else [Printf "smp: lapic id does not match" []])
  ++ [IdtApInstall; FpuInitialize; PatInitialize;
      MmioStore (u64 (base + 0x0F0)) 0x127; SpawnKidle 0].

(** ** Vocabulary of the per-AP loop *)

(** One IPI on the LAPIC mapped at [base]: the two stores, and the rounds of
    the wait that read [vs]. *)
Definition ipi_events (base id cmd : Z) (vs : list Z) : list event :=
  [MmioStore (u64 (base + 0x310)) (u32 (Z.shiftl id 24));
   MmioStore (u64 (base + 0x300)) (u32 cmd)]
  ++ polls base vs.

(** What the BSP does for AP [i] with LAPIC id [id] before it waits for it:
    lines 318-333. *)
Definition kick_events (p : platform) (base i id : Z) (vs1 vs2 : list Z)
  : list event :=
  [GdtCopyToTrampoline i (trampoline + _ap_bootstrap_gdtp p);
   Valloc (KERNEL_STACK_SIZE p)]
  ++ ipi_events base id 0x4500 vs1
  ++ [ShortDelay 5000]
  ++ ipi_events base id 0x4601 vs2.

(** The state in which AP [i] finds the kernel when it comes up: the flag
    cleared, its GDT pointer in the trampoline, its stack and its index in
    the globals. *)
Definition ap_entry (p : platform) (i id : Z) (vs1 vs2 rest : list Z)
    (s : kstate) : kstate :=
  set_lapic_answers rest
    (set_trace (trace s ++ kick_events p (lapic_final s) i id vs1 vs2)
       (set_ap_current i
          (set_ap_stack_base (u64 (stack_given p i + KERNEL_STACK_SIZE p))
             (set_phys
                (memcpy_from (phys s) (trampoline + _ap_bootstrap_gdtp p)
                   (take 10 (gdt_pointer p i)))
                (set_ap_startup_flag 0 s))))).

(** The values stored to the register at [addr] among some events. *)
Definition stores_to (addr : Z) (evs : list event) : list Z :=
  flat_map (fun e => match e with
                     | MmioStore a v => if a =? addr then [v] else []
                     | _ => []
                     end) evs.

(** The firmware in [s] leads smp_initialize, past the gates, to an RSDT
    that lists one MADT, with the entries [es] and the LAPIC address
    [lapic_base]. *)
Definition finds_madt (fuel : nat) (p : platform) (s : kstate)
    (es : list madt_entry) (lapic_base : Z) : Prop :=
  exists (rsdp table : Z) (before after : list Z),
    scan_ends fuel p s true rsdp /\
    rejected p s rsdp = false /\
    args_present (boot p) "nosmp" = false /\
    rsdt_lists (phys s) (load32 (phys s) (rsdp + Acpi.rsdp_rsdt_address))
               (before ++ table :: after) /\
    Forall (fun t => is_apic (phys s) t = false) (before ++ after) /\
    madt_at (phys s) table es /\
    load32 (phys s) (table + Acpi.madt_lapic_addr) = lapic_base /\
    (length es < fuel)%nat.

(** The processors smp_initialize enters for a MADT with the entries [es]:
    the LAPIC ids of the first 32 enabled ones, the first of them being
    taken for the BSP and the others for the APs. *)
Definition entered_ids (es : list madt_entry) : list Z := take 32 (enabled_ids es).
Definition ap_ids (es : list madt_entry) : list Z := drop 1 (entered_ids es).

(** ** Concrete tables and runs

    A small firmware image and platform on which the routines are run: an
    RSDP at the legacy base, an RSDT with one pointer, and a MADT. *)

Module Demo.

Fixpoint mem_of (segs : list (Z * list Z)) : phys_mem :=
  match segs with
  | [] => fun _ => 0
  | (base, bs) :: rest => memcpy_from (mem_of rest) base bs
  end.

Definition str (s : string) : list Z := map chr (list_ascii_of_string s).

(** An RSDP descriptor with the given eighth signature byte and checksum
    byte, pointing at an RSDT at 0xE1000. *)
Definition rsdp_bytes (eighth sum : Z) : list Z :=
  (str "RSD PTR" ++ [eighth] ++ [sum] ++ str "OEMID " ++ [0]
   ++ le32 0xE1000)%list.

Definition sdt_header (sig : string) (len : Z) : list Z :=
  (str sig ++ le32 len ++ repeat 0 28%nat)%list.

Definition rsdt_bytes : list Z :=
  (sdt_header "RSDT" 40 ++ le32 0xE2000)%list.

(** A processor-local APIC entry (type 0) and an entry of another type. *)
Definition lapic_entry (len id flags : Z) : list Z :=
  ([0; len; id; id] ++ le32 flags)%list.
Definition other_entry (type len : Z) : list Z :=
  ([type; len] ++ repeat 0 (Z.to_nat (len - 2)))%list.

Definition madt_bytes (entries : list Z) : list Z :=
  (sdt_header "APIC" (44 + Z.of_nat (length entries)) ++ le32 0xFEE00000
   ++ le32 1 ++ entries)%list.

Definition firmware (rsdp madt_body page : list Z) : phys_mem :=
  mem_of [(0xE0000, rsdp); (0xE1000, rsdt_bytes);
          (0xE2000, madt_bytes madt_body); (0x1000, page)].

Definition legacy_boot (args : gmap string string) : boot_info :=
  {| mboot_is_2 := false; mboot2_find_tag := fun _ => 0;
     config_table := 0; kernel_args := args |}.

Definition machine (args : gmap string string) : platform :=
  {| boot := legacy_boot args;
     cpuid := fun core leaf =>
                (0, if leaf =? 1 then Z.shiftl core 24 else 0, 0, 0);
     mmio_mapping := fun _ _ => 0xffffff1fc0000000;
     frame_given := 0x300;
     stack_given := fun i => 0xffffff0000100000 + i * 0x10000;
     kidle_given := fun core _ => 0x7000 + core;
     gdt_pointer := fun ap => repeat (0x50 + ap) 10;
     _ap_bootstrap := repeat 0x90 100;
     _ap_bootstrap_gdtp := 0x40;
     KERNEL_STACK_SIZE := 0x9000;
     init_page_region := 0x200000;
     ap_answers := fun _ => true |}.

Definition blank : processor_local :=
  {| cpu_id := 0; lapic_id := 0; cpu_manufacturer := "";
     cpu_model := 0; cpu_family := 0; cpu_model_name := repeat 0 48%nat;
     current_pml := 0; kernel_idle_task := 0; current_process := 0 |}.

(** The state smp_initialize starts from: one processor, no LAPIC. *)
Definition at_boot (m : phys_mem) (answers : list Z) : kstate :=
  {| processor_local_data := repeat blank 32%nat;
     processor_count := 1; lapic_final := 0;
     _ap_stack_base := 0; _ap_startup_flag := 0; _ap_current := 0;
     phys := m; lapic_answers := answers; trace := [] |}.

Definition good_rsdp : list Z := rsdp_bytes 32 53.

(** The descriptor the MADT parse leaves for the processor with id [i]. *)
Definition core_of (i : Z) : processor_local :=
  with_lapic_id i (with_cpu_id i blank).

(** The state in which AP [i] of four processors enters [ap_main]. *)
Definition ap_window (i : Z) : kstate :=
  set_ap_current i
    (set_lapic_final 0xffffff1fc0000000
       (set_processor_count 4
          (set_processor_local_data
             (map core_of [0; 1; 2; 3] ++ repeat blank 28%nat)
             (at_boot (fun _ => 0) [])))).

(** A descriptor whose bytes sum to 0x42. *)
Definition bad_rsdp : list Z := rsdp_bytes 32 119.

(** [nosmp] and [noacpichecksum] on the command line. *)
Definition nosmp : gmap string string := {[ "nosmp" := "" ]}.
Definition noacpichecksum : gmap string string := {[ "noacpichecksum" := "" ]}.

(** A descriptor whose eighth signature byte is 'X', checksum adjusted. *)
Definition odd_rsdp : list Z := rsdp_bytes 88 253.

(** The command line [acpi=0x7fe0000]. *)
Definition acpi_boot : boot_info :=
  legacy_boot {[ "acpi" := "0x7fe0000" ]}.

Definition two_cores : list Z :=
  (lapic_entry 8 0 1 ++ lapic_entry 8 1 1)%list.

(** The entries of [mixed_entries] as the walk reads them. *)
Definition mixed_list : list madt_entry :=
  [ {| entry_type := 0; entry_length := 8; entry_apic_id := 9; entry_flags := 0 |};
    {| entry_type := 1; entry_length := 12; entry_apic_id := 0; entry_flags := 0 |};
    {| entry_type := 0; entry_length := 8; entry_apic_id := 0; entry_flags := 1 |};
    {| entry_type := 0; entry_length := 8; entry_apic_id := 4; entry_flags := 1 |} ].

(** Forty enabled processors with the APIC ids 0 to 39. *)
Definition forty_cores : list Z :=
  flat_map (fun i => lapic_entry 8 (Z.of_nat i) 1) (seq 0 40).

(** An entry of type 1 whose length byte is 0. *)
Definition stalled_entries : list Z := [1; 0; 0; 0; 0; 0; 0; 0].

(** A disabled processor, an entry of type 1 and two enabled processors. *)
Definition mixed_entries : list Z :=
  (lapic_entry 8 9 0 ++ other_entry 1 12 ++ lapic_entry 8 0 1
   ++ lapic_entry 8 4 1)%list.

(** The entries of [two_cores] as the walk reads them. *)
Definition two_list : list madt_entry :=
  [ {| entry_type := 0; entry_length := 8; entry_apic_id := 0; entry_flags := 1 |};
    {| entry_type := 0; entry_length := 8; entry_apic_id := 1; entry_flags := 1 |} ].

(** One enabled processor. *)
Definition one_core : list Z := lapic_entry 8 0 1.
Definition one_list : list madt_entry :=
  [ {| entry_type := 0; entry_length := 8; entry_apic_id := 0; entry_flags := 1 |} ].

(** A firmware whose RSDT points at a table that is not a MADT. *)
Definition facp_firmware : phys_mem :=
  mem_of [(0xE0000, good_rsdp); (0xE1000, rsdt_bytes);
          (0xE2000, sdt_header "FACP" 44)].

(** A firmware whose MADT gives the LAPIC address 0. *)
Definition no_lapic_firmware : phys_mem :=
  mem_of [(0xE0000, good_rsdp); (0xE1000, rsdt_bytes);
          (0xE2000, (sdt_header "APIC" 60 ++ le32 0 ++ le32 1 ++ two_cores)%list)].

(** A machine whose CPUID reports "GenuineIntel", family 6, model 14, and a
    brand string of 48 letters 'A'. *)
Definition intel_cpuid (core leaf : Z) : Z * Z * Z * Z :=
  if leaf =? 0 then (0x16, 0x756e6547, 0x6c65746e, 0x49656e69)
  else if leaf =? 1 then (0x906EA, Z.shiftl core 24, 0, 0)
  else if leaf =? 0x80000000 then (0x80000008, 0, 0, 0)
  else (0x41414141, 0x41414141, 0x41414141, 0x41414141).

Definition intel : platform :=
  {| boot := legacy_boot ∅;
     cpuid := intel_cpuid;
     mmio_mapping := fun _ _ => 0xffffff1fc0000000;
     frame_given := 0x300;
     stack_given := fun i => 0xffffff0000100000 + i * 0x10000;
     kidle_given := fun core _ => 0x7000 + core;
     gdt_pointer := fun ap => repeat (0x50 + ap) 10;
     _ap_bootstrap := repeat 0x90 100;
     _ap_bootstrap_gdtp := 0x40;
     KERNEL_STACK_SIZE := 0x9000;
     init_page_region := 0x200000;
     ap_answers := fun _ => true |}.

(** A machine none of whose APs starts. *)
Definition silent : platform :=
  {| boot := legacy_boot ∅;
     cpuid := fun core leaf =>
                (0, if leaf =? 1 then Z.shiftl core 24 else 0, 0, 0);
     mmio_mapping := fun _ _ => 0xffffff1fc0000000;
     frame_given := 0x300;
     stack_given := fun i => 0xffffff0000100000 + i * 0x10000;
     kidle_given := fun core _ => 0x7000 + core;
     gdt_pointer := fun ap => repeat (0x50 + ap) 10;
     _ap_bootstrap := repeat 0x90 100;
     _ap_bootstrap_gdtp := 0x40;
     KERNEL_STACK_SIZE := 0x9000;
     init_page_region := 0x200000;
     ap_answers := fun _ => false |}.

End Demo.

(** * Verification *)

(** Unfolds the plumbing of the monad and leaves the routines in place. *)
Ltac monad_unfold :=
  cbv beta iota delta
    [bind gets modify emit ret pause printf when lift stuck exec short_delay].

Tactic Notation "monad_unfold" "in" hyp(H) :=
  cbv beta iota delta
    [bind gets modify emit ret pause printf when lift stuck exec short_delay]
    in H.

Section MachineArithmetic.

Lemma u64_small x : 0 <= x < 2 ^ 64 -> u64 x = x.
Proof. intros H. unfold u64, wrap. apply Z.mod_small. exact H. Qed.

Lemma u32_small x : 0 <= x < 2 ^ 32 -> u32 x = x.
Proof. intros H. unfold u32, wrap. apply Z.mod_small. exact H. Qed.

Lemma u8_range x : 0 <= u8 x < 256.
Proof.
  unfold u8, wrap. change (2 ^ 8) with 256. apply Z.mod_pos_bound. lia.
Qed.

Lemma u32_range x : 0 <= u32 x < 2 ^ 32.
Proof. unfold u32, wrap. apply Z.mod_pos_bound. lia. Qed.

Lemma u64_range x : 0 <= u64 x < 2 ^ 64.
Proof. unfold u64, wrap. apply Z.mod_pos_bound. lia. Qed.

Lemma load8_range m a : 0 <= load8 m a < 256.
Proof. apply u8_range. Qed.

End MachineArithmetic.

(** ** The IPI services when SMP is inactive *)

Section IpiServices.

Lemma smp_inactive_true s :
  lapic_final s = 0 \/ processor_count s < 2 ->
  smp_inactive s = Some (true, s).
Proof.
  intros H. unfold smp_inactive, bind, gets, ret.
  replace ((lapic_final s =? 0) || (processor_count s <? 2)) with true;
    [reflexivity|].
  symmetry. apply orb_true_iff.
  destruct H as [H|H]; [left; apply Z.eqb_eq | right; apply Z.ltb_lt]; exact H.
Qed.

(** C9: with [lapic_final == 0] or [processor_count < 2] each of the three
    services returns at once and leaves the state as it found it: no event
    is added to the trace (no LAPIC store or load) and no LAPIC answer is
    taken.  In particular [arch_tlb_shootdown(vaddr)] with
    [processor_count == 1] adds no [MmioStore], whatever [vaddr]. *)
Theorem ipi_services_short_circuit (s : kstate) (vaddr : Z) :
  lapic_final s = 0 \/ processor_count s < 2 ->
  arch_wakeup_others s = Some (tt, s) /\
  arch_tick_others s = Some (tt, s) /\
  arch_tlb_shootdown vaddr s = Some (tt, s) /\
  (processor_count s = 1 ->
   forall s', exec (arch_tlb_shootdown vaddr) s = Some s' ->
   forall addr value, MmioStore addr value ∉ emitted s s').
Proof.
  intros H. pose proof (smp_inactive_true s H) as Hoff.
  assert (Hw : arch_wakeup_others s = Some (tt, s))
    by (unfold arch_wakeup_others, bind; rewrite Hoff; reflexivity).
  assert (Ht : arch_tick_others s = Some (tt, s))
    by (unfold arch_tick_others, bind; rewrite Hoff; reflexivity).
  assert (Hs : arch_tlb_shootdown vaddr s = Some (tt, s))
    by (unfold arch_tlb_shootdown, bind; rewrite Hoff; reflexivity).
  repeat split; try assumption.
  intros _ s' Hrun addr value. unfold exec in Hrun. rewrite Hs in Hrun.
  injection Hrun as <-. unfold emitted. rewrite drop_all.
  apply not_elem_of_nil.
Qed.

Lemma ipi_services_short_circuit_witness :
  processor_count (Demo.at_boot (fun _ => 0) []) = 1 /\
  arch_tlb_shootdown 0xDEAD000 (Demo.at_boot (fun _ => 0) [])
  = Some (tt, Demo.at_boot (fun _ => 0) []).
Proof.
  split; [reflexivity|].
  apply (ipi_services_short_circuit (Demo.at_boot (fun _ => 0) []) 0xDEAD000).
  right. simpl. lia.
Defined.

End IpiServices.

(** ** Sending an IPI *)

Section LapicGateway.

Lemma land_bit (a n : Z) :
  0 <= n -> Z.land a (2 ^ n) = if Z.testbit a n then 2 ^ n else 0.
Proof.
  intros Hn. apply Z.bits_inj'. intros i Hi.
  rewrite Z.land_spec, Z.pow2_bits_eqb by lia.
  destruct (Z.eqb_spec n i) as [->|Hne].
  - destruct (Z.testbit a i) eqn:E; simpl.
    + rewrite Z.pow2_bits_true by lia. reflexivity.
    + rewrite Z.bits_0. reflexivity.
  - rewrite andb_false_r.
    destruct (Z.testbit a n).
    + rewrite Z.pow2_bits_false by lia. reflexivity.
    + rewrite Z.bits_0. reflexivity.
Qed.

(** The test of line 185 looks at bit 12 of the value read. *)
Lemma delivery_status_bit v :
  negb (Z.land (u32 v) (Z.shiftl 1 12) =? 0) = Z.testbit v 12.
Proof.
  change (Z.shiftl 1 12) with (2 ^ 12). rewrite land_bit by lia.
  unfold u32, wrap. rewrite Z.mod_pow2_bits_low by lia.
  destruct (Z.testbit v 12); reflexivity.
Qed.

Lemma icr_wait_rounds (busy : list Z) :
  forall (fuel : nat) (s : kstate) (idle : Z) (rest : list Z),
    lapic_answers s = busy ++ idle :: rest ->
    Forall (fun v => Z.testbit v 12 = true) busy ->
    Z.testbit idle 12 = false ->
    (length busy < fuel)%nat ->
    icr_wait fuel s
    = Some (tt, after_io s rest (polls (lapic_final s) (busy ++ [idle]))).
Proof.
  induction busy as [|v busy IH]; intros fuel s idle rest Hans Hbusy Hidle Hfuel.
  - destruct fuel as [|fuel]; [simpl in Hfuel; lia|].
    simpl in Hans. cbn [icr_wait]. unfold lapic_read. monad_unfold. simpl.
    rewrite Hans. monad_unfold. simpl.
    rewrite delivery_status_bit, Hidle. simpl.
    unfold after_io, set_trace, set_lapic_answers. simpl.
    rewrite <- app_assoc. reflexivity.
  - destruct fuel as [|fuel]; [simpl in Hfuel; lia|].
    simpl in Hans. inversion Hbusy as [|? ? Hv Hbusy']; subst.
    cbn [icr_wait]. unfold lapic_read. monad_unfold. simpl.
    rewrite Hans. monad_unfold. simpl.
    rewrite delivery_status_bit, Hv. simpl.
    erewrite IH; [| simpl; reflexivity | assumption | assumption
                  | simpl in Hfuel; lia].
    f_equal. f_equal. unfold after_io, set_trace, set_lapic_answers. simpl.
    rewrite <- !app_assoc. reflexivity.
Qed.

(** C8: on a mapped LAPIC ([lapic_final != 0]) whose ICR reads busy
    (bit 12 set) some number of times and then idle,
    [lapic_send_ipi(id, cmd)] returns, and what it added to the trace is, in
    this order: the store of [id << 24] (as a 32-bit value) at offset 0x310,
    the store of [cmd] at offset 0x300, and then one pause and one load of
    offset 0x300 per value read, up to and including the first value with
    bit 12 clear.  Nothing else of the state changes.  For an 8-bit [id]
    the value stored is [id << 24] itself. *)
Theorem lapic_send_ipi_sequence
    (s : kstate) (id cmd : Z) (busy : list Z) (idle : Z) (rest : list Z) :
  lapic_final s <> 0 ->
  lapic_answers s = busy ++ idle :: rest ->
  Forall (fun v => Z.testbit v 12 = true) busy ->
  Z.testbit idle 12 = false ->
  lapic_send_ipi id cmd s
  = Some (tt, after_io s rest
                ([MmioStore (u64 (lapic_final s + 0x310)) (u32 (Z.shiftl id 24));
                  MmioStore (u64 (lapic_final s + 0x300)) (u32 cmd)]
                 ++ polls (lapic_final s) (busy ++ [idle]))) /\
  (0 <= id < 256 -> u32 (Z.shiftl id 24) = Z.shiftl id 24).
Proof.
  intros _ Hans Hbusy Hidle. split.
  - unfold lapic_send_ipi, lapic_write. monad_unfold.
    cbn [lapic_answers lapic_final trace set_trace]. rewrite Hans.
    erewrite icr_wait_rounds;
      [| simpl; exact Hans | exact Hbusy | exact Hidle
       | rewrite length_app; simpl; lia ].
    f_equal. f_equal. unfold after_io, set_trace, set_lapic_answers. simpl.
    rewrite <- !app_assoc. reflexivity.
  - intros Hid. apply u32_small. rewrite Z.shiftl_mul_pow2 by lia. lia.
Qed.

Lemma lapic_send_ipi_sequence_witness :
  lapic_send_ipi 3 0x4500
    (set_lapic_final 0xffffff1fc0000000
       (Demo.at_boot (fun _ => 0) [0x5500; 0x4500; 0]))
  = Some (tt, after_io
                (set_lapic_final 0xffffff1fc0000000
                   (Demo.at_boot (fun _ => 0) [0x5500; 0x4500; 0]))
                [0]
                [MmioStore 0xffffff1fc0000310 0x3000000;
                 MmioStore 0xffffff1fc0000300 0x4500;
                 Pause; MmioLoad 0xffffff1fc0000300 0x5500;
                 Pause; MmioLoad 0xffffff1fc0000300 0x4500]).
Proof.
  apply (lapic_send_ipi_sequence
           (set_lapic_final 0xffffff1fc0000000
              (Demo.at_boot (fun _ => 0) [0x5500; 0x4500; 0]))
           3 0x4500 [0x5500] 0x4500 [0]).
  - simpl. lia.
  - reflexivity.
  - repeat constructor.
  - reflexivity.
Defined.

End LapicGateway.

(** ** Locating the RSDP *)

Section RsdpScan.

(** The comparison of the scan is the seven bytes "RSD PTR". *)
Lemma rsd_ptr_match_seven m a :
  rsd_ptr_match m a = true <-> signature_at "RSD PTR" m a.
Proof.
  unfold rsd_ptr_match, signature_at. simpl.
  repeat match goal with
         | |- context [Z.of_nat ?n] =>
           let v := eval vm_compute in (Z.of_nat n) in
           change (Z.of_nat n) with v
         end.
  rewrite Z.add_0_r. rewrite !andb_true_iff, !Z.eqb_eq.
  split.
  - intros [[[[[[H0 H1] H2] H3] H4] H5] H6].
    rewrite H0, H1, H2, H3, H4, H5, H6. reflexivity.
  - intros H. injection H as H0 H1 H2 H3 H4 H5 H6.
    repeat split; assumption.
Qed.

Lemma on_stride_refl scan : on_stride scan scan.
Proof. exists 0. lia. Qed.

Lemma on_stride_next scan a : on_stride (scan + 16) a -> on_stride scan a.
Proof. intros [k [Hk ->]]. exists (k + 1). lia. Qed.

Lemma on_stride_later scan a :
  on_stride scan a -> a <> scan -> on_stride (scan + 16) a.
Proof. intros [k [Hk ->]] Hne. exists (k - 1). lia. Qed.

Lemma no_wrap_step scan top :
  0 <= scan -> scan < top -> no_wrap scan top ->
  u64 (scan + 16) = scan + 16 /\ no_wrap (scan + 16) top.
Proof.
  intros H0 Hlt [Hw | [Hw Hs]].
  - split; [apply u64_small; lia | left; exact Hw].
  - assert (Hs' : on_stride (scan + 16) top)
      by (apply on_stride_later; [exact Hs | lia]).
    destruct Hs' as [k [Hk Hk']].
    split; [apply u64_small; lia | right; split; [exact Hw | exists k; lia]].
Qed.

(** What the loop returns, given fuel for every stride below [top]. *)
Lemma rsdp_scan_first_match (fuel : nat) :
  forall (m : phys_mem) (scan top : Z),
    0 <= scan -> no_wrap scan top ->
    Z.max 0 (top - scan) + 16 <= 16 * Z.of_nat fuel ->
    exists good a,
      rsdp_scan fuel m scan top = Some (good, a) /\
      (forall a', on_stride scan a' -> a' < (if good then a else top) ->
                  rsd_ptr_match m a' = false) /\
      (good = true ->
       on_stride scan a /\ a < top /\ rsd_ptr_match m a = true).
Proof.
  induction fuel as [|fuel IH]; intros m scan top H0 Hw Hfuel.
  - exfalso. lia.
  - cbn [rsdp_scan]. destruct (Z.ltb_spec scan top) as [Hlt|Hge].
    + destruct (rsd_ptr_match m scan) eqn:Hm.
      * exists true, scan. split; [reflexivity|]. split.
        -- intros a' [k [Hk ->]] Hlt'. lia.
        -- intros _. split; [apply on_stride_refl|]. split; assumption.
      * destruct (no_wrap_step scan top H0 Hlt Hw) as [Hu Hw'].
        rewrite Hu.
        destruct (IH m (scan + 16) top) as [good [a [Hrun [Hbefore Hhit]]]];
          [lia | exact Hw' | lia |].
        exists good, a. split; [exact Hrun|]. split.
        -- intros a' Hs Hlt'.
           destruct (Z.eq_dec a' scan) as [->|Hne]; [exact Hm|].
           apply Hbefore; [apply on_stride_later; assumption | exact Hlt'].
        -- intros Hg. destruct (Hhit Hg) as [Hs [Ha Hma]].
           split; [apply on_stride_next; exact Hs|]. split; assumption.
    + exists false, scan. split; [reflexivity|]. split.
      * intros a' [k [Hk ->]] Hlt'. lia.
      * intros Hg. discriminate Hg.
Qed.

(** Whatever the boot hand-off and command line, the range of
    [scan_range] is scanned to its end within 65537 rounds. *)
Lemma scan_range_bounds b :
  0 <= fst (scan_range b) /\
  no_wrap (fst (scan_range b)) (snd (scan_range b)) /\
  snd (scan_range b) - fst (scan_range b) <= 0x100000.
Proof.
  assert (Hgen : forall base, 0 <= base < 2 ^ 64 ->
                   0 <= base /\ no_wrap base (u64 (base + 0x100000)) /\
                   u64 (base + 0x100000) - base <= 0x100000).
  { intros base Hb. split; [lia|].
    destruct (Z_lt_le_dec (base + 0x100000) (2 ^ 64)) as [Hlt|Hge].
    - rewrite u64_small by lia. split; [|lia].
      right. split; [lia|]. exists 0x10000. lia.
    - assert (Hu : u64 (base + 0x100000) = base + 0x100000 - 2 ^ 64).
      { unfold u64, wrap.
        symmetry. apply (Z.mod_unique _ _ 1); lia. }
      rewrite Hu. split; [left|]; lia. }
  unfold scan_range.
  destruct (mboot_is_2 b).
  - simpl. apply Hgen. apply u64_range.
  - destruct (negb (u32 (config_table b) =? 0)).
    + simpl. apply Hgen. pose proof (u32_range (config_table b)). lia.
    + destruct (args_present b "acpi").
      * simpl. apply Hgen.
        assert (Hx : forall c out, 0 <= out < 2 ^ 64 ->
                       0 <= xtoi_loop c out < 2 ^ 64).
        { induction c as [|ch c IHc]; intros out Hout; simpl; [exact Hout|].
          destruct (chr ch =? 0); [exact Hout|].
          apply IHc.
          destruct (between "0" "9" (chr ch)); [apply u64_range|].
          destruct (between "a" "f" (chr ch)); [apply u64_range|].
          destruct (between "A" "F" (chr ch)); apply u64_range. }
        unfold xtoi.
        destruct (args_value b "acpi") as [|c0 rest]; [simpl; lia|].
        destruct c0 as [[] [] [] [] [] [] [] []];
          try (apply Hx; lia).
        destruct rest as [|c1 rest]; [apply Hx; lia|].
        destruct c1 as [[] [] [] [] [] [] [] []]; apply Hx; lia.
      * simpl. split; [lia|]. split; [left|]; lia.
Qed.

Lemma rsdp_scan_returns (b : boot_info) (m : phys_mem) (fuel : nat) :
  0x10001 <= Z.of_nat fuel ->
  exists good a,
    rsdp_scan fuel m (fst (scan_range b)) (snd (scan_range b))
    = Some (good, a).
Proof.
  intros Hfuel. destruct (scan_range_bounds b) as [H0 [Hw Hlen]].
  destruct (rsdp_scan_first_match fuel m _ _ H0 Hw) as [good [a [Hrun _]]];
    [lia|].
  exists good, a. exact Hrun.
Qed.

End RsdpScan.

Section RsdpLocator.

(** C2, refuted as stated: a descriptor at the scan base that reads
    "RSD PTRX" is reported as a hit although the 8-byte signature
    "RSD PTR " (with the trailing space) is not there; its checksum being
    zero, the whole bring-up goes ahead on it. *)
Lemma rsdp_scan_eighth_byte_counterexample :
  rsdp_scan 1 (Demo.firmware Demo.odd_rsdp Demo.two_cores [])
            (fst (scan_range (Demo.legacy_boot ∅)))
            (snd (scan_range (Demo.legacy_boot ∅)))
  = Some (true, 0xE0000) /\
  ~ signature_at "RSD PTR " (Demo.firmware Demo.odd_rsdp Demo.two_cores [])
      0xE0000 /\
  (processor_count <$>
     exec (smp_initialize 9 (Demo.machine ∅))
          (Demo.at_boot (Demo.firmware Demo.odd_rsdp Demo.two_cores [])
                        [0; 0])) = Some 2.
Proof.
  split; [vm_compute; reflexivity|]. split.
  - intros H. vm_compute in H. discriminate H.
  - vm_compute. reflexivity.
Qed.

(** C2, amended: the locator examines the scan range in strides of 16
    bytes from its base and reports a hit exactly when some stride below
    the top carries the seven bytes "RSD PTR" (the eighth byte is not
    looked at); the hit is the first such stride.  A signature that sits
    only at addresses off the stride is not found. *)
Theorem rsdp_scan_stride_hit
    (fuel : nat) (m : phys_mem) (scan top : Z) :
  0 <= scan -> no_wrap scan top ->
  Z.max 0 (top - scan) + 16 <= 16 * Z.of_nat fuel ->
  exists good a,
    rsdp_scan fuel m scan top = Some (good, a) /\
    (good = true <->
     exists a', on_stride scan a' /\ a' < top /\ signature_at "RSD PTR" m a') /\
    (good = true ->
     on_stride scan a /\ a < top /\ signature_at "RSD PTR" m a /\
     forall a', on_stride scan a' -> a' < a ->
                ~ signature_at "RSD PTR" m a').
Proof.
  intros H0 Hw Hfuel.
  destruct (rsdp_scan_first_match fuel m scan top H0 Hw Hfuel)
    as [good [a [Hrun [Hbefore Hhit]]]].
  exists good, a. split; [exact Hrun|]. split.
  - split.
    + intros Hg. destruct (Hhit Hg) as [Hs [Ha Hm]].
      exists a. split; [exact Hs|]. split; [exact Ha|].
      apply rsd_ptr_match_seven. exact Hm.
    + intros [a' [Hs [Ha' Hm]]]. destruct good; [reflexivity|].
      apply rsd_ptr_match_seven in Hm.
      rewrite (Hbefore a' Hs Ha') in Hm. discriminate Hm.
  - intros Hg. destruct (Hhit Hg) as [Hs [Ha Hm]].
    split; [exact Hs|]. split; [exact Ha|].
    split; [apply rsd_ptr_match_seven; exact Hm|].
    intros a' Hs' Hlt Hm'. apply rsd_ptr_match_seven in Hm'.
    subst good. rewrite (Hbefore a' Hs' Hlt) in Hm'. discriminate Hm'.
Qed.

Lemma rsdp_scan_stride_hit_witness :
  exists good a,
    rsdp_scan (Z.to_nat 0x2001)
              (Demo.mem_of [(0xE0048, Demo.good_rsdp); (0xE0050, Demo.good_rsdp)])
              0xE0000 0x100000
    = Some (good, a) /\
    (good = true <->
     exists a', on_stride 0xE0000 a' /\ a' < 0x100000 /\
                signature_at "RSD PTR"
                  (Demo.mem_of [(0xE0048, Demo.good_rsdp); (0xE0050, Demo.good_rsdp)])
                  a') /\
    (good = true ->
     on_stride 0xE0000 a /\ a < 0x100000 /\
     signature_at "RSD PTR"
       (Demo.mem_of [(0xE0048, Demo.good_rsdp); (0xE0050, Demo.good_rsdp)]) a /\
     forall a', on_stride 0xE0000 a' -> a' < a ->
                ~ signature_at "RSD PTR"
                    (Demo.mem_of [(0xE0048, Demo.good_rsdp); (0xE0050, Demo.good_rsdp)])
                    a').
Proof.
  apply (rsdp_scan_stride_hit (Z.to_nat 0x2001)
           (Demo.mem_of [(0xE0048, Demo.good_rsdp); (0xE0050, Demo.good_rsdp)])
           0xE0000 0x100000).
  - lia.
  - left. simpl. lia.
  - rewrite Z2Nat.id; lia.
Defined.

(** C3, refuted as stated: with no multiboot hand-off and no [acpi=]
    the scan starts at 0xE0000 and stops at 0x100000, not at
    0xE0000 + 0x100000; a descriptor at 0x100000 is not found. *)
Lemma scan_top_legacy_counterexample :
  scan_range (Demo.legacy_boot ∅) = (0xE0000, 0x100000) /\
  snd (scan_range (Demo.legacy_boot ∅))
  <> fst (scan_range (Demo.legacy_boot ∅)) + 0x100000 /\
  signature_at "RSD PTR " (Demo.mem_of [(0x100000, Demo.good_rsdp)]) 0x100000 /\
  rsdp_scan (Z.to_nat 0x10001) (Demo.mem_of [(0x100000, Demo.good_rsdp)])
            (fst (scan_range (Demo.legacy_boot ∅)))
            (snd (scan_range (Demo.legacy_boot ∅)))
  = Some (false, 0x100000).
Proof.
  split; [vm_compute; reflexivity|].
  split; [vm_compute; discriminate|].
  split; vm_compute; reflexivity.
Qed.

(** C3, amended: the scan base comes from the first source that applies:
    under multiboot 2 the tag of type 14, else of type 15, plus the 8 bytes
    of the tag header (whether or not a tag was found); else a non-zero
    [config_table]; else the value of [acpi=]; else 0xE0000.  For the first
    three the scan stops at base + 0x100000 (as a 64-bit sum); for the
    legacy base it stops at 0x100000.  In every case the loop ends within
    0x10001 rounds, a hit lies in [base, top), and without a hit every stride
    of [base, top) was examined. *)
Theorem scan_range_by_source (b : boot_info) :
  (mboot_is_2 b = true ->
   forall tag,
     tag = (if u64 (mboot2_find_tag b 14) =? 0
            then u64 (mboot2_find_tag b 15) else u64 (mboot2_find_tag b 14)) ->
     scan_range b = (u64 (tag + 8), u64 (u64 (tag + 8) + 0x100000))) /\
  (mboot_is_2 b = false -> u32 (config_table b) <> 0 ->
   scan_range b = (u32 (config_table b), u32 (config_table b) + 0x100000)) /\
  (mboot_is_2 b = false -> u32 (config_table b) = 0 ->
   forall v, kernel_args b !! "acpi" = Some v ->
   scan_range b = (xtoi v, u64 (xtoi v + 0x100000))) /\
  (mboot_is_2 b = false -> u32 (config_table b) = 0 ->
   kernel_args b !! "acpi" = None ->
   scan_range b = (0xE0000, 0x100000)) /\
  (forall (m : phys_mem) (fuel : nat),
     0x10001 <= Z.of_nat fuel ->
     exists good a,
       rsdp_scan fuel m (fst (scan_range b)) (snd (scan_range b))
       = Some (good, a) /\
       (good = true ->
        fst (scan_range b) <= a < snd (scan_range b) /\
        rsd_ptr_match m a = true) /\
       (good = false ->
        forall a', on_stride (fst (scan_range b)) a' ->
                   a' < snd (scan_range b) -> rsd_ptr_match m a' = false)).
Proof.
  repeat split.
  - intros H2 tag ->. unfold scan_range. rewrite H2. reflexivity.
  - intros H2 Hct. unfold scan_range. rewrite H2.
    destruct (Z.eqb_spec (u32 (config_table b)) 0) as [E|_]; [contradiction|].
    simpl. f_equal. apply u64_small.
    pose proof (u32_range (config_table b)). lia.
  - intros H2 Hct v Hv. unfold scan_range, args_present, args_value.
    rewrite H2, Hct, Hv. simpl. reflexivity.
  - intros H2 Hct Hv. unfold scan_range, args_present.
    rewrite H2, Hct, Hv. simpl. reflexivity.
  - intros m fuel Hfuel.
    destruct (scan_range_bounds b) as [H0 [Hw Hlen]].
    destruct (rsdp_scan_first_match fuel m _ _ H0 Hw)
      as [good [a [Hrun [Hbefore Hhit]]]]; [lia|].
    exists good, a. split; [exact Hrun|]. split.
    + intros Hg. destruct (Hhit Hg) as [[k [Hk Hs]] [Ha Hm]].
      split; [lia | exact Hm].
    + intros Hg a' Hs Ha'. subst good. apply Hbefore; assumption.
Qed.

Lemma scan_range_by_source_witness :
  scan_range Demo.acpi_boot = (0x7fe0000, 0x80e0000) /\
  scan_range (Demo.legacy_boot ∅) = (0xE0000, 0x100000).
Proof.
  destruct (scan_range_by_source Demo.acpi_boot) as (_ & _ & Hacpi & _ & _).
  destruct (scan_range_by_source (Demo.legacy_boot ∅))
    as (_ & _ & _ & Hlegacy & _).
  split.
  - rewrite (Hacpi eq_refl eq_refl "0x7fe0000");
      vm_compute; reflexivity.
  - apply Hlegacy; vm_compute; reflexivity.
Defined.

End RsdpLocator.

(** ** Reasoning about runs *)

#[global] Instance keeps_preorder {B : Type} (f : kstate -> B) : PreOrder (keeps f).
Proof.
  split; [intros s; reflexivity|].
  intros s1 s2 s3 H12 H23. unfold keeps in *. congruence.
Qed.

#[global] Instance only_cores_preorder : PreOrder only_cores.
Proof.
  split.
  - intros s. unfold only_cores. destruct s; reflexivity.
  - intros s1 s2 s3 H12 H23. unfold only_cores in *.
    rewrite H23 at 1. rewrite H12. reflexivity.
Qed.

#[global] Instance cores_step_preorder (R : relation processor_local) :
  PreOrder R -> PreOrder (cores_step R).
Proof.
  intros HR. split.
  - intros s. unfold cores_step.
    apply Forall2_same_length_lookup. split; [reflexivity|].
    intros i x y Hx Hy. rewrite Hx in Hy. injection Hy as <-. reflexivity.
  - intros s1 s2 s3 H12 H23. unfold cores_step in *.
    apply Forall2_same_length_lookup. split.
    + rewrite (Forall2_length _ _ _ H12). apply (Forall2_length _ _ _ H23).
    + intros i x z Hx Hz.
      destruct (Forall2_lookup_l _ _ _ _ _ H12 Hx) as [y [Hy Hxy]].
      pose proof (Forall2_lookup_lr _ _ _ _ _ _ H23 Hy Hz) as Hyz.
      etransitivity; eassumption.
Qed.

#[global] Instance emits_preorder (Q : event -> Prop) : PreOrder (emits Q).
Proof.
  split.
  - intros s. exists []. split; [rewrite app_nil_r; reflexivity | constructor].
  - intros s1 s2 s3 [e1 [H1 Q1]] [e2 [H2 Q2]]. exists (e1 ++ e2). split.
    + rewrite H2, H1, app_assoc. reflexivity.
    + apply Forall_app. split; assumption.
Qed.

#[global] Instance same_ids_preorder : PreOrder same_ids.
Proof.
  split; [intros d; split; reflexivity|].
  intros d1 d2 d3 [H1 H2] [H3 H4]. split; congruence.
Qed.

#[global] Instance same_tasks_preorder : PreOrder same_tasks.
Proof.
  split; [intros d; repeat split; reflexivity|].
  intros d1 d2 d3 (H1 & H2 & H3) (H4 & H5 & H6). repeat split; congruence.
Qed.

#[global] Instance rel_and_preorder {T : Type} (R1 R2 : relation T) :
  PreOrder R1 -> PreOrder R2 -> PreOrder (rel_and R1 R2).
Proof.
  intros P1 P2. split.
  - intros x. split; reflexivity.
  - intros x y z [H1 H2] [H3 H4]. split; etransitivity; eassumption.
Qed.

Section Runs.

Context {R : relation kstate} {HR : PreOrder R}.

Lemma preserves_ret {A : Type} (a : A) : preserves R (ret a).
Proof. intros s a' s' H. injection H as _ <-. reflexivity. Qed.

Lemma preserves_stuck {A : Type} : preserves R (@stuck A).
Proof. intros s a s' H. discriminate H. Qed.

Lemma preserves_gets {A : Type} (f : kstate -> A) : preserves R (gets f).
Proof. intros s a s' H. injection H as _ <-. reflexivity. Qed.

Lemma preserves_lift {A : Type} (o : option A) : preserves R (lift o).
Proof.
  intros s a s' H. unfold lift in H. destruct o; [|discriminate H].
  injection H as _ <-. reflexivity.
Qed.

Lemma preserves_modify (f : kstate -> kstate) :
  (forall s, R s (f s)) -> preserves R (modify f).
Proof. intros Hf s a s' H. injection H as _ <-. apply Hf. Qed.

Lemma preserves_bind {A B : Type} (c : M A) (k : A -> M B) :
  preserves R c -> (forall a, preserves R (k a)) -> preserves R (bind c k).
Proof.
  intros Hc Hk s b s' H. unfold bind in H.
  destruct (c s) as [[a s1]|] eqn:E; [|discriminate H].
  transitivity s1; [exact (Hc _ _ _ E) | exact (Hk _ _ _ _ H)].
Qed.

Lemma preserves_when (b : bool) (c : M unit) :
  preserves R c -> preserves R (when b c).
Proof. intros Hc. destruct b; [exact Hc | apply preserves_ret]. Qed.

Lemma preserves_core_at (i : Z) : preserves R (core_at i).
Proof.
  intros s a s' H. unfold core_at in H.
  destruct (i <? 0); [discriminate H|].
  exact (preserves_lift _ _ _ _ H).
Qed.

End Runs.

(** Breaks a goal [preserves R c] down to the steps of [c], trying [leaf] on
    each before looking inside it. *)
Ltac preserves_with leaf :=
  repeat first
    [ leaf
    | apply preserves_ret
    | apply preserves_stuck
    | apply preserves_gets
    | apply preserves_lift
    | apply preserves_core_at
    | apply preserves_when
    | match goal with
      | |- preserves _ (update_core _ _) => fail 2
      | |- preserves _ (bind _ _) => apply preserves_bind; [ | intros ? ]
      | |- preserves _ (if ?b then _ else _) => destruct b
      | |- preserves _ (match ?x with (_, _) => _ end) => destruct x
      end ].

Ltac preserves_steps := preserves_with fail.

Section Returns.

Context {I : kstate -> Prop}.

Lemma returns_ret {A : Type} (a : A) (Q : A -> Prop) :
  Q a -> returns I (ret a) Q.
Proof. intros HQ s Hs. exists a, s. repeat split; assumption. Qed.

Lemma returns_bind {A B : Type} (c : M A) (k : A -> M B)
    (Q : A -> Prop) (Q' : B -> Prop) :
  returns I c Q -> (forall a, Q a -> returns I (k a) Q') ->
  returns I (bind c k) Q'.
Proof.
  intros Hc Hk s Hs. destruct (Hc s Hs) as [a [s1 [E [Hs1 Ha]]]].
  destruct (Hk a Ha s1 Hs1) as [b [s2 [E2 [Hs2 Hb]]]].
  exists b, s2. unfold bind. rewrite E. repeat split; assumption.
Qed.

Lemma returns_modify (f : kstate -> kstate) :
  (forall s, I s -> I (f s)) -> returns I (modify f) (fun _ => True).
Proof. intros Hf s Hs. exists tt, (f s). repeat split. apply Hf, Hs. Qed.

Lemma returns_gets {A : Type} (f : kstate -> A) (Q : A -> Prop) :
  (forall s, I s -> Q (f s)) -> returns I (gets f) Q.
Proof. intros Hf s Hs. exists (f s), s. repeat split; auto. Qed.

Lemma returns_emit (e : event) :
  (forall s t, I s -> I (set_trace t s)) ->
  returns I (emit e) (fun _ => True).
Proof. intros He. apply returns_modify. intros s Hs. apply He, Hs. Qed.

Lemma returns_when (b : bool) (c : M unit) :
  returns I c (fun _ => True) -> returns I (when b c) (fun _ => True).
Proof. intros Hc. destruct b; [exact Hc | apply returns_ret; exact Logic.I]. Qed.

End Returns.

(** ** CPU identification *)

Section ProcessorInfo.

Lemma Forall2_diag_alter (Rd : relation processor_local) `{!PreOrder Rd}
    (f : processor_local -> processor_local) (i : nat)
    (l : list processor_local) :
  (forall d, Rd d (f d)) -> Forall2 Rd l (alter f i l).
Proof.
  intros Hf. apply Forall2_alter_r.
  - apply Forall2_same_length_lookup. split; [reflexivity|].
    intros j x y Hx Hy. rewrite Hx in Hy. injection Hy as <-. reflexivity.
  - intros x y Hx Hy Hxy. transitivity y; [exact Hxy | apply Hf].
Qed.

Lemma update_core_cores (Rd : relation processor_local) `{!PreOrder Rd}
    (i : Z) (f : processor_local -> processor_local) :
  (forall d, Rd d (f d)) ->
  preserves (rel_and only_cores (cores_step Rd)) (update_core i f).
Proof.
  intros Hf. unfold update_core. preserves_steps.
  apply preserves_modify. intros s. split.
  - reflexivity.
  - unfold cores_step. simpl. apply Forall2_diag_alter; assumption.
Qed.

(** [load_processor_info] changes nothing but descriptors, and of those
    neither the ids nor the page map and task pointers. *)
Lemma load_processor_info_cores (p : platform) (core : Z) :
  preserves (rel_and only_cores (cores_step (rel_and same_ids same_tasks)))
            (load_processor_info p core).
Proof.
  unfold load_processor_info.
  destruct (cpuid p core 0) as [[[a0 b0] c0] d0].
  destruct (cpuid p core 1) as [[[a1 b1] c1] d1].
  destruct (cpuid p core 0x80000000) as [[[a2 b2] c2] d2].
  preserves_with
    ltac:(idtac;
          match goal with
          | |- preserves _ (update_core _ _) =>
            apply update_core_cores; [typeclasses eauto | intros d; repeat split]
          end).
Qed.

Lemma core_has_id_alter (i k : Z) (j : nat)
    (f : processor_local -> processor_local) (s : kstate) :
  (forall d, cpu_id (f d) = cpu_id d) ->
  core_has_id i k s ->
  core_has_id i k
    (set_processor_local_data (alter f j (processor_local_data s)) s).
Proof.
  intros Hf [Hi [d [Hd Hk]]]. split; [exact Hi|]. simpl.
  destruct (decide (j = Z.to_nat i)) as [->|Hne].
  - exists (f d). rewrite list_lookup_alter_eq, Hd. split; [reflexivity|].
    rewrite Hf. exact Hk.
  - exists d. rewrite list_lookup_alter_ne by exact Hne. split; assumption.
Qed.

Lemma has_core_alter (i : Z) (j : nat)
    (f : processor_local -> processor_local) (s : kstate) :
  has_core i s ->
  has_core i (set_processor_local_data (alter f j (processor_local_data s)) s).
Proof.
  intros [Hi [d Hd]]. split; [exact Hi|]. simpl.
  destruct (decide (j = Z.to_nat i)) as [->|Hne].
  - exists (f d). rewrite list_lookup_alter_eq, Hd. reflexivity.
  - exists d. rewrite list_lookup_alter_ne by exact Hne. exact Hd.
Qed.

Lemma core_at_run (i : Z) (s : kstate) (d : processor_local) :
  0 <= i -> processor_local_data s !! Z.to_nat i = Some d ->
  core_at i s = Some (d, s).
Proof.
  intros Hi Hd. unfold core_at.
  destruct (Z.ltb_spec i 0) as [Hlt|_]; [lia|]. rewrite Hd. reflexivity.
Qed.

Lemma core_at_inv (i : Z) (s s' : kstate) (d : processor_local) :
  core_at i s = Some (d, s') ->
  s' = s /\ 0 <= i /\ processor_local_data s !! Z.to_nat i = Some d.
Proof.
  unfold core_at. destruct (Z.ltb_spec i 0) as [Hlt|Hge]; [discriminate|].
  unfold lift. destruct (processor_local_data s !! Z.to_nat i) as [d'|];
    [|discriminate].
  intros H. injection H as <- <-. repeat split. exact Hge.
Qed.

Lemma update_core_run (i : Z) (f : processor_local -> processor_local)
    (s : kstate) :
  has_core i s ->
  update_core i f s
  = Some (tt, set_processor_local_data
                (alter f (Z.to_nat i) (processor_local_data s)) s).
Proof.
  intros [Hi [d Hd]]. unfold update_core, bind.
  rewrite (core_at_run i s d Hi Hd). reflexivity.
Qed.

Lemma update_core_inv (i : Z) (f : processor_local -> processor_local)
    (s s' : kstate) (u : unit) :
  update_core i f s = Some (u, s') ->
  has_core i s /\
  s' = set_processor_local_data
         (alter f (Z.to_nat i) (processor_local_data s)) s.
Proof.
  unfold update_core, bind.
  destruct (core_at i s) as [[d s1]|] eqn:E; [|discriminate].
  apply core_at_inv in E. destruct E as (-> & Hi & Hd).
  unfold modify. intros H. split; [|congruence].
  split; [exact Hi | exists d; exact Hd].
Qed.

Lemma update_core_returns (I : kstate -> Prop) (j : Z)
    (f : processor_local -> processor_local) :
  (forall s, I s -> has_core j s) ->
  (forall s, I s ->
     I (set_processor_local_data
          (alter f (Z.to_nat j) (processor_local_data s)) s)) ->
  returns I (update_core j f) (fun _ => True).
Proof.
  intros Hj Hf s Hs. eexists tt, _.
  split; [apply update_core_run, Hj, Hs|]. split; [apply Hf, Hs | exact Logic.I].
Qed.

Lemma core_at_returns (I : kstate -> Prop) (i k : Z) :
  (forall s, I s -> core_has_id i k s) ->
  returns I (core_at i) (fun d => cpu_id d = k).
Proof.
  intros HI s Hs. destruct (HI s Hs) as [Hi [d [Hd Hk]]].
  exists d, s. split; [apply core_at_run; assumption|]. split; assumption.
Qed.

Lemma info_ready_alter (core k : Z) (j : nat)
    (f : processor_local -> processor_local) (s : kstate) :
  (forall d, cpu_id (f d) = cpu_id d) ->
  info_ready core k s ->
  info_ready core k
    (set_processor_local_data (alter f j (processor_local_data s)) s).
Proof.
  intros Hf [H1 H2]. split;
    [apply core_has_id_alter | apply has_core_alter]; assumption.
Qed.

Lemma info_ready_core (core k : Z) (s : kstate) :
  info_ready core k s -> has_core core s.
Proof. intros [[Hi [d [Hd _]]] _]. split; [exact Hi | exists d; exact Hd]. Qed.

(** [load_processor_info] comes back whenever the two descriptors it
    touches are inside the table. *)
Lemma load_processor_info_returns (p : platform) (core k : Z) :
  returns (info_ready core k) (load_processor_info p core) (fun _ => True).
Proof.
  assert (Hup : forall f, (forall d, cpu_id (f d) = cpu_id d) ->
                  returns (info_ready core k) (update_core core f)
                          (fun _ => True)).
  { intros f Hf. apply update_core_returns.
    - intros s. apply info_ready_core.
    - intros s. apply info_ready_alter. exact Hf. }
  assert (Hname : forall name,
            returns (info_ready core k)
              (me <- core_at core ;;
               update_core (cpu_id me)
                 (fun d => with_cpu_model_name (name d) d))
              (fun _ => True)).
  { intros name.
    eapply returns_bind; [apply (core_at_returns _ core k); intros s Hs; apply Hs|].
    intros me <-. apply update_core_returns.
    - intros s Hs. apply Hs.
    - intros s. apply info_ready_alter. reflexivity. }
  unfold load_processor_info.
  destruct (cpuid p core 0) as [[[a0 b0] c0] d0].
  destruct (cpuid p core 1) as [[[a1 b1] c1] d1].
  destruct (cpuid p core 0x80000000) as [[[a2 b2] c2] d2].
  eapply returns_bind; [apply Hup; reflexivity|]. intros _ _.
  eapply returns_bind.
  { instantiate (1 := fun _ => True).
    destruct (u32 b0 =? 0x756e6547); [|destruct (u32 b0 =? 0x68747541)].
    - eapply returns_bind; [apply Hup; reflexivity|]. intros _ _.
      eapply returns_bind; [apply Hup; reflexivity|]. intros _ _.
      apply Hup; reflexivity.
    - eapply returns_bind; [apply Hup; reflexivity|]. intros _ _.
      eapply returns_bind; [apply Hup; reflexivity|]. intros _ _.
      apply Hup; reflexivity.
    - apply returns_ret. exact Logic.I. }
  intros _ _.
  eapply returns_bind;
    [apply (core_at_returns _ core k); intros s Hs; apply Hs|].
  intros me <-.
  eapply returns_bind.
  { apply update_core_returns.
    - intros s Hs. apply Hs.
    - intros s. apply info_ready_alter. reflexivity. }
  intros _ _. apply returns_when. apply Hname.
Qed.

End ProcessorInfo.

(** ** The AP entry point *)

Section ApMain.

(** C5, refuted as stated: AP 1, whose descriptor has [cpu_id] 1, calls
    [spawn_kidle] once, with the argument 0. *)
Lemma ap_main_spawn_kidle_counterexample :
  (cpu_id <$> processor_local_data (Demo.ap_window 1) !! 1%nat) = Some 1 /\
  ((fun s' => spawn_args (emitted (Demo.ap_window 1) s'))
     <$> exec (ap_main (Demo.machine ∅)) (Demo.ap_window 1)) = Some [0].
Proof. split; vm_compute; reflexivity. Qed.

Lemma emitted_app (s s' : kstate) (evs : list event) :
  trace s' = trace s ++ evs -> emitted s s' = evs.
Proof.
  intros H. unfold emitted. rewrite H. apply drop_app_length.
Qed.

Lemma ap_main_returns (p : platform) (core k : Z) :
  returns (fun s => _ap_current s = core /\ info_ready core k s)
          (ap_main p) (fun _ => True).
Proof.
  set (J := fun s => _ap_current s = core /\ info_ready core k s).
  assert (Hemit : forall e, returns J (emit e) (fun _ => True)).
  { intros e. apply returns_emit. intros s t Hs. exact Hs. }
  assert (Hup : forall f, (forall d, cpu_id (f d) = cpu_id d) ->
                  returns J (update_core core f) (fun _ => True)).
  { intros f Hf. apply update_core_returns.
    - intros s [_ Hs]. apply (info_ready_core _ _ _ Hs).
    - intros s [Hc Hs]. split; [exact Hc|].
      apply info_ready_alter; assumption. }
  assert (Hme : forall Q : processor_local -> Prop, (forall d, Q d) ->
                  returns J (core_at core) Q).
  { intros Q HQ s Hs. destruct Hs as [Hc [[Hi [d [Hd Hk]]] Hk']].
    exists d, s. split; [apply core_at_run; assumption|].
    split; [|apply HQ].
    split; [exact Hc|]. split; [|exact Hk'].
    split; [exact Hi|]. exists d. split; assumption. }
  unfold ap_main.
  eapply returns_bind;
    [apply (returns_gets _ (fun c => c = core)); intros s Hs; apply Hs|].
  intros c ->.
  eapply returns_bind; [apply Hemit|]. intros _ _.
  destruct (cpuid p core 1) as [[[a b] c] d].
  eapply returns_bind; [apply (Hme (fun _ => True)); intros; exact Logic.I|].
  intros me _.
  eapply returns_bind; [apply returns_when, Hemit|]. intros _ _.
  eapply returns_bind; [apply Hemit|]. intros _ _.
  eapply returns_bind; [apply Hemit|]. intros _ _.
  eapply returns_bind; [apply Hemit|]. intros _ _.
  eapply returns_bind;
    [apply (returns_gets _ (fun _ => True)); intros; exact Logic.I|].
  intros base _.
  eapply returns_bind; [apply Hemit|]. intros _ _.
  eapply returns_bind; [apply Hup; reflexivity|]. intros _ _.
  eapply returns_bind.
  { unfold spawn_kidle. eapply returns_bind; [apply Hemit|]. intros _ _.
    apply (returns_ret _ (fun _ => True)). exact Logic.I. }
  intros task _.
  eapply returns_bind; [apply Hup; reflexivity|]. intros _ _.
  eapply returns_bind; [apply (Hme (fun _ => True)); intros; exact Logic.I|].
  intros me' _.
  eapply returns_bind; [apply Hup; reflexivity|]. intros _ _.
  eapply returns_bind.
  { intros s [Hc Hs].
    destruct (load_processor_info_returns p core k s Hs) as [u [s' [E [Hs' _]]]].
    exists u, s'. split; [exact E|]. split; [|exact Logic.I].
    split; [|exact Hs'].
    apply load_processor_info_cores in E. destruct E as [Honly _].
    rewrite Honly. simpl. exact Hc. }
  intros _ _.
  eapply returns_bind.
  { apply returns_modify. intros s Hs. exact Hs. }
  intros _ _. apply Hemit.
Qed.

(** C5, amended: every run of [ap_main] that returns has called
    [spawn_kidle] exactly once, with the constant argument 0 (not the core's
    [cpu_id]), and has stored the task it returned as both
    [kernel_idle_task] and [current_process] of
    [processor_local_data[_ap_current]].  It returns whenever that descriptor
    and the one its [cpu_id] indexes are inside the table. *)
Theorem ap_main_idle_task (p : platform) (s : kstate) :
  (forall s', exec (ap_main p) s = Some s' ->
     spawn_args (emitted s s') = [0] /\
     exists d',
       processor_local_data s' !! Z.to_nat (_ap_current s) = Some d' /\
       kernel_idle_task d' = kidle_given p (_ap_current s) 0 /\
       current_process d' = kidle_given p (_ap_current s) 0) /\
  (forall k, info_ready (_ap_current s) k s ->
     exists s', exec (ap_main p) s = Some s').
Proof.
  split.
  - intros s' H. unfold exec in H.
    destruct (ap_main p s) as [[u s1]|] eqn:E; [|discriminate].
    injection H as <-.
    unfold ap_main, spawn_kidle in E. monad_unfold in E.
    destruct (cpuid p (_ap_current s) 1) as [[[a b] c] d].
    monad_unfold in E.
    destruct (core_at _ _) as [[me s2]|] eqn:H1 in E; [|discriminate].
    apply core_at_inv in H1. destruct H1 as (-> & Hi & Hme).
    simpl in Hme.
    destruct (negb (lapic_id me =? s32 (u32 b ≫ 24))); simpl in E.
    all: destruct (update_core _ _ _) as [[[] s3]|] eqn:H2 in E; [|discriminate].
    all: apply update_core_inv in H2; destruct H2 as [_ ->].
    all: destruct (update_core _ _ _) as [[[] s4]|] eqn:H3 in E; [|discriminate].
    all: apply update_core_inv in H3; destruct H3 as [_ ->].
    all: destruct (core_at _ _) as [[me' s5]|] eqn:H4 in E; [|discriminate].
    all: apply core_at_inv in H4; destruct H4 as (-> & _ & Hme').
    all: destruct (update_core _ _ _) as [[[] s6]|] eqn:H5 in E; [|discriminate].
    all: apply update_core_inv in H5; destruct H5 as [_ ->].
    all: destruct (load_processor_info _ _ _) as [[[] s7]|] eqn:H6 in E;
      [|discriminate].
    all: apply load_processor_info_cores in H6; destruct H6 as [Honly Hcores].
    all: destruct u; injection E as <-.
    all: simpl in Hme'; rewrite !list_lookup_alter_eq, Hme in Hme'.
    all: simpl in Hme'; injection Hme' as <-.
    all: split;
      [ rewrite Honly; erewrite emitted_app;
          [| simpl; rewrite <- !app_assoc; reflexivity]; reflexivity
      | unfold cores_step in Hcores; simpl in Hcores;
        eapply Forall2_lookup_l in Hcores as [d' [Hd' [_ Htasks]]];
          [| rewrite !list_lookup_alter_eq, Hme; reflexivity];
        exists d'; split; [simpl; exact Hd'|];
        destruct Htasks as (_ & Hidle & Hcur); rewrite Hidle, Hcur;
        split; reflexivity ].
  - intros k Hready.
    destruct (ap_main_returns p (_ap_current s) k s (conj eq_refl Hready))
      as [u [s' [Hrun _]]].
    exists s'. unfold exec. rewrite Hrun. reflexivity.
Qed.

Lemma ap_main_idle_task_witness :
  exists s',
    exec (ap_main (Demo.machine ∅)) (Demo.ap_window 2) = Some s' /\
    spawn_args (emitted (Demo.ap_window 2) s') = [0] /\
    exists d',
      processor_local_data s' !! 2%nat = Some d' /\
      kernel_idle_task d' = 0x7002 /\ current_process d' = 0x7002.
Proof.
  destruct (ap_main_idle_task (Demo.machine ∅) (Demo.ap_window 2))
    as [Hpost Hret].
  destruct (Hret 2) as [s' Hrun].
  - split; [split; [simpl; lia | eexists; split; reflexivity]|].
    split; [simpl; lia | eexists; reflexivity].
  - exists s'. split; [exact Hrun|]. exact (Hpost s' Hrun).
Defined.

End ApMain.

(** ** The walk over the MADT *)

Section MadtWalk.

(** The test of line 284 is flag bit 0. *)
Lemma flag_bit_0 (x : Z) : negb (Z.land x 0x01 =? 0) = Z.odd x.
Proof.
  change 0x01 with (2 ^ 0). rewrite land_bit by lia. rewrite Z.bit0_odd.
  destruct (Z.odd x); reflexivity.
Qed.

Lemma has_core_below_32 (s : kstate) (c : Z) :
  table_of_32 s -> 0 <= c < 32 -> has_core c s.
Proof.
  intros Hlen Hc. split; [lia|]. apply lookup_lt_is_Some.
  unfold table_of_32 in Hlen. rewrite Hlen. lia.
Qed.

Lemma table_of_32_alter (s : kstate) (j : nat)
    (f : processor_local -> processor_local) :
  table_of_32 s ->
  table_of_32 (set_processor_local_data (alter f j (processor_local_data s)) s).
Proof. unfold table_of_32. simpl. rewrite length_alter. auto. Qed.

(** One round of the walk on an entry that is not counted. *)
Lemma madt_walk_skip (fuel : nat) (table e c : Z) (s : kstate) :
  e < table_end (phys s) table -> counts (phys s) e = false ->
  madt_walk (S fuel) table e c s
  = madt_walk fuel table (e + load8 (phys s) (e + 1)) c s.
Proof.
  intros Hlt Hc. cbn [madt_walk]. monad_unfold.
  unfold table_end in Hlt. apply Z.ltb_lt in Hlt. rewrite Hlt.
  unfold counts in Hc. rewrite <- flag_bit_0 in Hc.
  destruct (load8 (phys s) e =? 0); [|reflexivity].
  simpl in Hc. rewrite Hc. reflexivity.
Qed.

(** One round of the walk on a counted entry, with room in the table. *)
Lemma madt_walk_count (fuel : nat) (table e c : Z) (s : kstate) :
  e < table_end (phys s) table -> counts (phys s) e = true ->
  table_of_32 s -> 0 <= c < 32 ->
  madt_walk (S fuel) table e c s
  = madt_walk fuel table (e + load8 (phys s) (e + 1)) (c + 1)
      (set_processor_local_data
         (alter (with_lapic_id (load8 (phys s) (e + 3))) (Z.to_nat c)
            (alter (with_cpu_id c) (Z.to_nat c) (processor_local_data s))) s).
Proof.
  intros Hlt Hc Hlen Hroom. cbn [madt_walk]. monad_unfold.
  unfold table_end in Hlt. apply Z.ltb_lt in Hlt. rewrite Hlt.
  unfold counts in Hc. rewrite <- flag_bit_0 in Hc.
  apply andb_true_iff in Hc. destruct Hc as [Ht Hf]. rewrite Ht, Hf.
  destruct (Z.eqb_spec c 32) as [->|_]; [lia|].
  rewrite update_core_run by (apply has_core_below_32; assumption).
  rewrite update_core_run
    by (apply has_core_below_32; [apply table_of_32_alter|]; assumption).
  reflexivity.
Qed.

(** One round of the walk on a counted entry when the table is full. *)
Lemma madt_walk_full (fuel : nat) (table e : Z) (s : kstate) :
  e < table_end (phys s) table -> counts (phys s) e = true ->
  madt_walk (S fuel) table e 32 s
  = Some ((true, 32),
          set_trace (trace s ++ [Printf "smp: too many cores" []]) s).
Proof.
  intros Hlt Hc. cbn [madt_walk]. monad_unfold.
  unfold table_end in Hlt. apply Z.ltb_lt in Hlt. rewrite Hlt.
  unfold counts in Hc. rewrite <- flag_bit_0 in Hc.
  apply andb_true_iff in Hc. destruct Hc as [Ht Hf]. rewrite Ht, Hf.
  reflexivity.
Qed.

Lemma madt_walk_end (fuel : nat) (table e c : Z) (s : kstate) :
  table_end (phys s) table <= e ->
  madt_walk (S fuel) table e c s = Some ((false, c), s).
Proof.
  intros Hge. cbn [madt_walk]. monad_unfold.
  unfold table_end in Hge.
  destruct (Z.ltb_spec e (table + load32 (phys s) (table + Acpi.header_length)));
    [lia | reflexivity].
Qed.

Lemma madt_walk_returns (fuel : nat) :
  forall (table e c : Z) (s : kstate),
    table_of_32 s -> 0 <= c <= 32 ->
    (forall e', reaches (phys s) (table_end (phys s) table) e e' ->
                e' < table_end (phys s) table ->
                1 <= load8 (phys s) (e' + 1)) ->
    Z.max 0 (table_end (phys s) table - e) < Z.of_nat fuel ->
    exists r s', madt_walk fuel table e c s = Some (r, s').
Proof.
  induction fuel as [|fuel IH]; intros table e c s Hlen Hc Hpos Hfuel.
  - lia.
  - destruct (Z_lt_le_dec e (table_end (phys s) table)) as [Hlt|Hge].
    + pose proof (Hpos e (reaches_here _ _ e) Hlt) as Hlen1.
      assert (Hnext : forall e',
                reaches (phys s) (table_end (phys s) table)
                        (e + load8 (phys s) (e + 1)) e' ->
                e' < table_end (phys s) table ->
                1 <= load8 (phys s) (e' + 1)).
      { intros e' Hr. apply Hpos. apply reaches_next; assumption. }
      destruct (counts (phys s) e) eqn:Hcnt.
      * destruct (Z.eq_dec c 32) as [->|Hne].
        -- rewrite madt_walk_full by assumption. eauto.
        -- rewrite madt_walk_count by (try assumption; lia).
           apply IH; simpl.
           ++ unfold table_of_32 in *. simpl. rewrite !length_alter.
              exact Hlen.
           ++ lia.
           ++ exact Hnext.
           ++ lia.
      * rewrite madt_walk_skip by assumption.
        apply IH; [assumption | assumption | exact Hnext | lia].
    + rewrite madt_walk_end by assumption. eauto.
Qed.

Lemma madt_walk_stalls (fuel : nat) :
  forall (table e c : Z) (s : kstate),
    e < table_end (phys s) table -> load8 (phys s) (e + 1) = 0 ->
    counts (phys s) e = false ->
    madt_walk fuel table e c s = None.
Proof.
  induction fuel as [|fuel IH]; intros table e c s Hlt Hzero Hcnt.
  - reflexivity.
  - rewrite madt_walk_skip by assumption. rewrite Hzero, Z.add_0_r.
    apply IH; assumption.
Qed.

(** A counted entry with length byte 0 is entered again and again until
    the table is full; the walk then leaves through the too-many exit. *)
Lemma madt_walk_stalls_counted (room : nat) :
  forall (fuel : nat) (table e c : Z) (s : kstate),
    e < table_end (phys s) table -> load8 (phys s) (e + 1) = 0 ->
    counts (phys s) e = true ->
    table_of_32 s -> 0 <= c -> c + Z.of_nat room = 32 ->
    (room < fuel)%nat ->
    exists s', madt_walk fuel table e c s = Some ((true, 32), s').
Proof.
  induction room as [|room IH];
    intros fuel table e c s Hlt Hzero Hcnt Hlen Hc Hroom Hfuel.
  - destruct fuel as [|fuel]; [lia|].
    replace c with 32 by lia. rewrite madt_walk_full by assumption. eauto.
  - destruct fuel as [|fuel]; [lia|].
    rewrite madt_walk_count by (try assumption; lia).
    rewrite Hzero, Z.add_0_r.
    apply IH; cbn [phys set_processor_local_data]; try assumption; try lia.
    unfold table_of_32 in *.
    cbn [processor_local_data set_processor_local_data].
    rewrite !length_alter. exact Hlen.
Qed.

(** C10: each round of the walk moves [entry] on by the entry's length byte
    [entry[1]].  When every entry the walk can reach below the end of the
    table has a length byte of at least 1, the walk returns, and it does so
    within [header.length] rounds.  The condition is needed: on an entry
    with length byte 0 the round leaves [entry] where it is, and when that
    entry is not a counted one (type 0 with flag bit 0, which would fill the
    table up to the too-many exit) no amount of fuel ends the walk. *)
Theorem madt_walk_terminates (table e c : Z) (s : kstate) :
  table_of_32 s -> 0 <= c <= 32 ->
  (forall fuel, e < table_end (phys s) table -> counts (phys s) e = false ->
     madt_walk (S fuel) table e c s
     = madt_walk fuel table (e + load8 (phys s) (e + 1)) c s) /\
  (forall fuel, e < table_end (phys s) table -> counts (phys s) e = true ->
     c < 32 ->
     exists s', phys s' = phys s /\
       madt_walk (S fuel) table e c s
       = madt_walk fuel table (e + load8 (phys s) (e + 1)) (c + 1) s') /\
  ((forall e', reaches (phys s) (table_end (phys s) table) e e' ->
               e' < table_end (phys s) table ->
               1 <= load8 (phys s) (e' + 1)) ->
   forall fuel, Z.max 0 (table_end (phys s) table - e) < Z.of_nat fuel ->
     exists r s', madt_walk fuel table e c s = Some (r, s')) /\
  (e < table_end (phys s) table -> load8 (phys s) (e + 1) = 0 ->
   e + load8 (phys s) (e + 1) = e /\
   (counts (phys s) e = false ->
    forall fuel, madt_walk fuel table e c s = None)).
Proof.
  intros Hlen Hc. split; [|split; [|split]].
  - intros fuel Hlt Hcnt. apply madt_walk_skip; assumption.
  - intros fuel Hlt Hcnt Hroom. eexists. split; [|apply madt_walk_count];
      [reflexivity | assumption | assumption | assumption | lia].
  - intros Hpos fuel Hfuel. apply madt_walk_returns; assumption.
  - intros Hlt Hzero. split; [lia|].
    intros Hcnt fuel. apply madt_walk_stalls; assumption.
Qed.

(** Settles, for a concrete table, what is asked of every entry that
    [reaches] arrives at. *)
Ltac reach_cases :=
  match goal with
  | H : reaches _ _ _ _ |- _ =>
    let Hbelow := fresh "Hbelow" in
    let Hrest := fresh "Hrest" in
    inversion H as [? | ? ? Hbelow Hrest]; subst; clear H;
    [ first [ apply Z.leb_le; vm_compute; reflexivity
            | exfalso;
              match goal with
              | Hlt : _ < _ |- _ =>
                apply Z.ltb_lt in Hlt; vm_compute in Hlt; discriminate Hlt
              end ]
    | first [ exfalso; apply Z.ltb_lt in Hbelow; vm_compute in Hbelow;
              discriminate Hbelow
            | reach_cases ] ]
  end.

Lemma madt_walk_terminates_witness :
  (exists r s',
     madt_walk 100 0xE2000 0xE202C 0
       (Demo.at_boot (Demo.firmware Demo.good_rsdp Demo.mixed_entries []) [])
     = Some (r, s')) /\
  (forall fuel,
     madt_walk fuel 0xE2000 0xE202C 0
       (Demo.at_boot (Demo.firmware Demo.good_rsdp Demo.stalled_entries []) [])
     = None).
Proof.
  split.
  - apply (madt_walk_terminates 0xE2000 0xE202C 0
             (Demo.at_boot (Demo.firmware Demo.good_rsdp Demo.mixed_entries []) [])).
    + reflexivity.
    + lia.
    + intros e' Hr Hlt. reach_cases.
    + vm_compute. reflexivity.
  - apply (madt_walk_terminates 0xE2000 0xE202C 0
             (Demo.at_boot (Demo.firmware Demo.good_rsdp Demo.stalled_entries []) [])).
    + reflexivity.
    + lia.
    + vm_compute. reflexivity.
    + reflexivity.
    + reflexivity.
Defined.

End MadtWalk.

(** ** The gates of smp_initialize *)

Section Gates.

Lemma only_cores_keeps {B : Type} (f : kstate -> B) (s s' : kstate) :
  (forall l x, f (set_processor_local_data l x) = f x) ->
  only_cores s s' -> f s' = f s.
Proof. intros Hf H. rewrite H. apply Hf. Qed.

(** The BSP's call of [load_processor_info] returns and changes
    descriptors only. *)
Lemma bsp_info (p : platform) (k : Z) (s : kstate) :
  info_ready 0 k s ->
  exists s0, load_processor_info p 0 s = Some (tt, s0) /\
             only_cores s s0 /\
             cores_step (rel_and same_ids same_tasks) s s0.
Proof.
  intros Hready.
  destruct (load_processor_info_returns p 0 k s Hready) as [[] [s0 [E _]]].
  exists s0. split; [exact E|].
  exact (load_processor_info_cores p 0 s tt s0 E).
Qed.

(** Which way [smp_discover] goes, by the outcome of the scan, the
    checksum and the command line. *)
Lemma smp_discover_cases (fuel : nat) (p : platform) (s s0 : kstate)
    (good : bool) (rsdp : Z) :
  scan_ends fuel p s good rsdp ->
  load_processor_info p 0 s = Some (tt, s0) ->
  only_cores s s0 ->
  smp_discover fuel p s =
    if negb good then Some (None, set_trace (trace s0 ++ [no_rsd_ptr]) s0)
    else if rejected p s rsdp
         then Some (None, set_trace (trace s0 ++ [bad_checksum]) s0)
    else if args_present (boot p) "nosmp" then Some (None, s0)
    else parse_tables fuel rsdp s0.
Proof.
  intros Hscan Hinfo Honly. unfold scan_ends in Hscan.
  unfold smp_discover, rejected.
  destruct (scan_range (boot p)) as [scan scan_top]. simpl in Hscan.
  monad_unfold. rewrite Hscan. rewrite Hinfo.
  destruct good; cbn [negb]; [|reflexivity].
  destruct (negb (rsdp_checksum (phys s) rsdp =? 0)
            && negb (args_present (boot p) "noacpichecksum")); [reflexivity|].
  destruct (args_present (boot p) "nosmp"); reflexivity.
Qed.

(** C4, refuted as stated: with [nosmp] on the command line and no RSDP in
    the scan range, the run logs a line. *)
Lemma nosmp_not_silent_counterexample :
  args_present (boot (Demo.machine Demo.nosmp)) "nosmp" = true /\
  ((fun s' => emitted (Demo.at_boot (fun _ => 0) []) s')
     <$> exec (smp_initialize (Z.to_nat 0x2001) (Demo.machine Demo.nosmp))
              (Demo.at_boot (fun _ => 0) []))
  = Some [Printf "smp: No RSD PTR found" []].
Proof. split; vm_compute; reflexivity. Qed.

(** C4, amended: with [nosmp] on the command line smp_initialize returns
    and leaves [processor_count] and [lapic_final] as they were (1 and 0 at
    boot), whatever the firmware tables hold.  The opt-out is looked at
    after the scan and the checksum gate: the run logs the no-RSDP line when
    the scan finds nothing, the bad-checksum line when the descriptor is
    rejected, and nothing otherwise. *)
Theorem nosmp_single_cpu (fuel : nat) (p : platform) (k : Z) (s : kstate) :
  args_present (boot p) "nosmp" = true ->
  0x10001 <= Z.of_nat fuel ->
  info_ready 0 k s ->
  exists s' good rsdp,
    exec (smp_initialize fuel p) s = Some s' /\
    processor_count s' = processor_count s /\
    lapic_final s' = lapic_final s /\
    scan_ends fuel p s good rsdp /\
    emitted s s' = (if negb good then [no_rsd_ptr]
                    else if rejected p s rsdp then [bad_checksum]
                    else []).
Proof.
  intros Hnosmp Hfuel Hready.
  destruct (rsdp_scan_returns (boot p) (phys s) fuel Hfuel)
    as [good [rsdp Hscan]].
  destruct (bsp_info p k s Hready) as [s0 [Hinfo [Honly _]]].
  pose proof (smp_discover_cases fuel p s s0 good rsdp Hscan Hinfo Honly)
    as Hcases.
  rewrite Hnosmp in Hcases.
  assert (Htrace : trace s0 = trace s)
    by (apply (only_cores_keeps trace); [reflexivity | exact Honly]).
  assert (Hcount : processor_count s0 = processor_count s)
    by (apply (only_cores_keeps processor_count); [reflexivity | exact Honly]).
  assert (Hlapic : lapic_final s0 = lapic_final s)
    by (apply (only_cores_keeps lapic_final); [reflexivity | exact Honly]).
  unfold smp_initialize, exec, bind.
  destruct (negb good) eqn:Hg; [|destruct (rejected p s rsdp) eqn:Hrej];
    rewrite Hcases; eexists _, good, rsdp; rewrite ?Hg, ?Hrej;
    (split; [reflexivity|]);
    cbn [processor_count lapic_final trace set_trace];
    (split; [exact Hcount|]); (split; [exact Hlapic|]);
    (split; [exact Hscan|]).
  - apply emitted_app. cbn [trace set_trace]. rewrite Htrace. reflexivity.
  - apply emitted_app. cbn [trace set_trace]. rewrite Htrace. reflexivity.
  - apply emitted_app. rewrite Htrace, app_nil_r. reflexivity.
Qed.

Lemma nosmp_single_cpu_witness :
  exists s',
    exec (smp_initialize (Z.to_nat 0x10001) (Demo.machine Demo.nosmp))
         (Demo.at_boot (Demo.firmware Demo.good_rsdp Demo.two_cores []) [])
    = Some s' /\
    processor_count s' = 1 /\ lapic_final s' = 0.
Proof.
  destruct (nosmp_single_cpu (Z.to_nat 0x10001) (Demo.machine Demo.nosmp) 0
              (Demo.at_boot (Demo.firmware Demo.good_rsdp Demo.two_cores []) []))
    as (s' & good & rsdp & Hrun & Hcount & Hlapic & _).
  - vm_compute. reflexivity.
  - rewrite Z2Nat.id; lia.
  - split; [split; [lia | eexists; split; reflexivity]|].
    split; [lia | eexists; reflexivity].
  - exists s'. split; [exact Hrun|]. split; assumption.
Defined.

(** C7: a discovered RSDP descriptor whose bytes do not sum to zero
    (mod 256) makes smp_initialize log the bad-checksum line and return with
    [processor_count] and [lapic_final] untouched (one CPU), unless
    [noacpichecksum] is on the command line; then nothing is logged for it
    and (the run not being opted out by [nosmp]) smp_initialize goes on to
    parse the RSDT and MADT the descriptor points to. *)
Theorem checksum_gate
    (fuel : nat) (p : platform) (k : Z) (s : kstate) (rsdp : Z) :
  scan_ends fuel p s true rsdp ->
  rsdp_checksum (phys s) rsdp <> 0 ->
  info_ready 0 k s ->
  (args_present (boot p) "noacpichecksum" = false ->
   exists s',
     exec (smp_initialize fuel p) s = Some s' /\
     emitted s s' = [bad_checksum] /\
     processor_count s' = processor_count s /\
     lapic_final s' = lapic_final s) /\
  (args_present (boot p) "noacpichecksum" = true ->
   args_present (boot p) "nosmp" = false ->
   exists s0,
     load_processor_info p 0 s = Some (tt, s0) /\
     phys s0 = phys s /\ trace s0 = trace s /\
     smp_discover fuel p s = parse_tables fuel rsdp s0).
Proof.
  intros Hscan Hsum Hready.
  destruct (bsp_info p k s Hready) as [s0 [Hinfo [Honly _]]].
  pose proof (smp_discover_cases fuel p s s0 true rsdp Hscan Hinfo Honly)
    as Hcases.
  assert (Hrej : rejected p s rsdp
                 = negb (args_present (boot p) "noacpichecksum")).
  { unfold rejected. apply Z.eqb_neq in Hsum. rewrite Hsum. reflexivity. }
  assert (Htrace : trace s0 = trace s)
    by (apply (only_cores_keeps trace); [reflexivity | exact Honly]).
  split.
  - intros Hno. rewrite Hno in Hrej. rewrite Hrej in Hcases.
    eexists. unfold smp_initialize, exec, bind. rewrite Hcases.
    split; [reflexivity|]. cbn [processor_count lapic_final trace set_trace].
    split; [apply emitted_app; cbn [trace set_trace]; rewrite Htrace; reflexivity|].
    split; [apply (only_cores_keeps processor_count)
           | apply (only_cores_keeps lapic_final)];
      solve [reflexivity | exact Honly].
  - intros Hyes Hnosmp. rewrite Hyes in Hrej. rewrite Hrej, Hnosmp in Hcases.
    exists s0. split; [exact Hinfo|].
    split; [apply (only_cores_keeps phys); [reflexivity | exact Honly]|].
    split; [exact Htrace | exact Hcases].
Qed.

Lemma checksum_gate_witness :
  (exists s',
     exec (smp_initialize 9 (Demo.machine ∅))
          (Demo.at_boot (Demo.firmware Demo.bad_rsdp Demo.two_cores []) [0; 0])
     = Some s' /\
     emitted (Demo.at_boot (Demo.firmware Demo.bad_rsdp Demo.two_cores []) [0; 0]) s'
     = [bad_checksum] /\
     processor_count s' = 1 /\ lapic_final s' = 0) /\
  (exists s0,
     smp_discover 9 (Demo.machine Demo.noacpichecksum)
       (Demo.at_boot (Demo.firmware Demo.bad_rsdp Demo.two_cores []) [0; 0])
     = parse_tables 9 0xE0000 s0).
Proof.
  split.
  - destruct (checksum_gate 9 (Demo.machine ∅) 0
                (Demo.at_boot (Demo.firmware Demo.bad_rsdp Demo.two_cores []) [0; 0])
                0xE0000) as [Hreject _].
    + vm_compute. reflexivity.
    + vm_compute. discriminate.
    + split; [split; [lia | eexists; split; reflexivity]|].
      split; [lia | eexists; reflexivity].
    + apply Hreject. vm_compute. reflexivity.
  - destruct (checksum_gate 9 (Demo.machine Demo.noacpichecksum) 0
                (Demo.at_boot (Demo.firmware Demo.bad_rsdp Demo.two_cores []) [0; 0])
                0xE0000) as [_ Hpass].
    + vm_compute. reflexivity.
    + vm_compute. discriminate.
    + split; [split; [lia | eexists; split; reflexivity]|].
      split; [lia | eexists; reflexivity].
    + destruct Hpass as (s0 & _ & _ & _ & Hgo);
        [vm_compute; reflexivity | vm_compute; reflexivity |].
      exists s0. exact Hgo.
Defined.

End Gates.

(** ** What the per-AP loop leaves alone *)

#[global] Instance phys_at_preorder (P : Z -> Prop) : PreOrder (phys_at P).
Proof.
  split; [intros s a _; reflexivity|].
  intros s1 s2 s3 H12 H23 a Ha. rewrite (H23 a Ha). apply H12, Ha.
Qed.

Section Bringup.

Variable p : platform.
Variable P : Z -> Prop.
Hypothesis P_off_gdt : forall a, P a -> off_gdt_pointer p a.

Lemma Forall2_same_ids_refl (l : list processor_local) : Forall2 same_ids l l.
Proof.
  apply Forall2_same_length_lookup. split; [reflexivity|].
  intros i x y Hx Hy. rewrite Hx in Hy. injection Hy as <-. reflexivity.
Qed.

Lemma loop_step_intro (s s' : kstate) (evs : list event) :
  processor_count s' = processor_count s ->
  lapic_final s' = lapic_final s ->
  Forall2 same_ids (processor_local_data s) (processor_local_data s') ->
  trace s' = trace s ++ evs -> Forall quiet evs ->
  (forall a, P a -> phys s' a = phys s a) ->
  loop_step P s s'.
Proof.
  intros Hc Hl Hd Ht Hq Hp.
  split; [exact Hc|]. split; [exact Hl|]. split; [exact Hd|].
  split; [exists evs; split; assumption | exact Hp].
Qed.

(** A step that touches nothing the loop relation speaks of. *)
Lemma loop_step_same (s s' : kstate) :
  processor_count s' = processor_count s ->
  lapic_final s' = lapic_final s ->
  processor_local_data s' = processor_local_data s ->
  trace s' = trace s ->
  phys s' = phys s ->
  loop_step P s s'.
Proof.
  intros Hc Hl Hd Ht Hp. apply (loop_step_intro s s' []).
  - exact Hc.
  - exact Hl.
  - rewrite Hd. apply Forall2_same_ids_refl.
  - rewrite app_nil_r. exact Ht.
  - constructor.
  - intros a _. rewrite Hp. reflexivity.
Qed.

Lemma loop_step_emit (e : event) :
  quiet e -> preserves (loop_step P) (emit e).
Proof.
  intros Hq. apply preserves_modify. intros s.
  apply (loop_step_intro _ _ [e]).
  - reflexivity.
  - reflexivity.
  - apply Forall2_same_ids_refl.
  - reflexivity.
  - repeat constructor. exact Hq.
  - intros a _. reflexivity.
Qed.

Lemma loop_step_set (f : kstate -> kstate) :
  (forall s, processor_count (f s) = processor_count s) ->
  (forall s, lapic_final (f s) = lapic_final s) ->
  (forall s, processor_local_data (f s) = processor_local_data s) ->
  (forall s, trace (f s) = trace s) ->
  (forall s, phys (f s) = phys s) ->
  preserves (loop_step P) (modify f).
Proof.
  intros Hc Hl Hd Ht Hp. apply preserves_modify. intros s.
  apply loop_step_same; auto.
Qed.

Lemma loop_step_update_core (i : Z) (f : processor_local -> processor_local) :
  (forall d, same_ids d (f d)) -> preserves (loop_step P) (update_core i f).
Proof.
  intros Hf s u s' H. apply update_core_inv in H. destruct H as [_ ->].
  apply (loop_step_intro _ _ []).
  - reflexivity.
  - reflexivity.
  - simpl. apply Forall2_diag_alter; [typeclasses eauto | exact Hf].
  - simpl. rewrite app_nil_r. reflexivity.
  - constructor.
  - intros a _. reflexivity.
Qed.

Lemma loop_step_load_processor_info (core : Z) :
  preserves (loop_step P) (load_processor_info p core).
Proof.
  intros s u s' H. apply load_processor_info_cores in H.
  destruct H as [Honly Hcores].
  apply (loop_step_intro _ _ []).
  - rewrite Honly. reflexivity.
  - rewrite Honly. reflexivity.
  - unfold cores_step in *.
    eapply Forall2_impl; [exact Hcores|]. intros d d' [Hids _]. exact Hids.
  - rewrite app_nil_r. rewrite Honly. reflexivity.
  - constructor.
  - intros a _. rewrite Honly. reflexivity.
Qed.

Lemma loop_step_icr_wait (fuel : nat) : preserves (loop_step P) (icr_wait fuel).
Proof.
  induction fuel as [|fuel IH]; cbn [icr_wait]; [apply preserves_stuck|].
  unfold pause, lapic_read.
  preserves_with
    ltac:(idtac;
          match goal with
          | |- preserves _ (emit _) => apply loop_step_emit; exact Logic.I
          | |- preserves _ (modify _) => apply loop_step_set; reflexivity
          | |- preserves _ (icr_wait fuel) => exact IH
          | |- preserves _ (match ?l with [] => _ | _ :: _ => _ end) =>
            destruct l
          end).
Qed.

Lemma loop_step_lapic_send_ipi (i val : Z) :
  preserves (loop_step P) (lapic_send_ipi i val).
Proof.
  unfold lapic_send_ipi, lapic_write.
  preserves_with
    ltac:(idtac;
          match goal with
          | |- preserves _ (emit _) => apply loop_step_emit; exact Logic.I
          | |- preserves _ (icr_wait _) => apply loop_step_icr_wait
          end).
Qed.

Lemma quiet_mismatch : quiet (Printf "smp: lapic id does not match" []).
Proof. simpl. discriminate. Qed.

Lemma loop_step_ap_main : preserves (loop_step P) (ap_main p).
Proof.
  unfold ap_main, spawn_kidle, printf.
  apply preserves_bind; [apply preserves_gets|]. intros core.
  apply preserves_bind; [apply loop_step_emit; exact Logic.I|]. intros _.
  destruct (cpuid p core 1) as [[[a b] c] d].
  preserves_with
    ltac:(idtac;
          match goal with
          | |- preserves _ (emit (Printf _ _)) =>
            apply loop_step_emit; exact quiet_mismatch
          | |- preserves _ (emit _) => apply loop_step_emit; exact Logic.I
          | |- preserves _ (modify _) => apply loop_step_set; reflexivity
          | |- preserves _ (update_core _ _) =>
            apply loop_step_update_core; intros ?; split; reflexivity
          | |- preserves _ (load_processor_info _ _) =>
            apply loop_step_load_processor_info
          end).
Qed.

Lemma loop_step_gdt_copy (i : Z) :
  preserves (loop_step P)
    (gdt_copy_to_trampoline p i (trampoline + _ap_bootstrap_gdtp p)).
Proof.
  unfold gdt_copy_to_trampoline.
  apply preserves_bind; [apply loop_step_emit; exact Logic.I|]. intros _.
  apply preserves_modify. intros s.
  apply (loop_step_intro _ _ []).
  - reflexivity.
  - reflexivity.
  - apply Forall2_same_ids_refl.
  - simpl. rewrite app_nil_r. reflexivity.
  - constructor.
  - intros a Ha. cbn [phys set_phys]. unfold memcpy_from, in_range.
    destruct (Z.leb_spec (trampoline + _ap_bootstrap_gdtp p) a) as [H1|H1];
      [|reflexivity].
    destruct (Z.ltb_spec a (trampoline + _ap_bootstrap_gdtp p
                            + Z.of_nat (length (take 10 (gdt_pointer p i)))))
      as [H2|H2]; [|reflexivity].
    exfalso. apply (P_off_gdt a Ha).
    rewrite length_take in H2. lia.
Qed.

Lemma loop_step_start_ap (i : Z) : preserves (loop_step P) (start_ap p i).
Proof.
  unfold start_ap, await_ap, valloc, short_delay, pause.
  preserves_with
    ltac:(idtac;
          match goal with
          | |- preserves _ (emit _) => apply loop_step_emit; exact Logic.I
          | |- preserves _ (modify _) => apply loop_step_set; reflexivity
          | |- preserves _ (gdt_copy_to_trampoline _ _ _) =>
            apply loop_step_gdt_copy
          | |- preserves _ (lapic_send_ipi _ _) => apply loop_step_lapic_send_ipi
          | |- preserves _ (ap_main _) => apply loop_step_ap_main
          end).
Qed.

Lemma loop_step_start_aps (n : nat) :
  forall i, preserves (loop_step P) (start_aps p n i).
Proof.
  induction n as [|n IH]; intros i; cbn [start_aps].
  - apply preserves_ret.
  - apply preserves_bind; [apply loop_step_start_ap|].
    intros _. apply IH.
Qed.

End Bringup.

(** ** The trampoline page *)

Section TrampolinePage.

Lemma keeps_phys_modify (f : kstate -> kstate) :
  (forall s, phys (f s) = phys s) -> preserves (keeps phys) (modify f).
Proof. intros Hf. apply preserves_modify. exact Hf. Qed.

Lemma keeps_phys_update_core (i : Z) (f : processor_local -> processor_local) :
  preserves (keeps phys) (update_core i f).
Proof.
  intros s u s' H. apply update_core_inv in H. destruct H as [_ ->].
  reflexivity.
Qed.

Lemma keeps_phys_load_processor_info (p : platform) (core : Z) :
  preserves (keeps phys) (load_processor_info p core).
Proof.
  intros s u s' H. apply load_processor_info_cores in H.
  destruct H as [Honly _]. unfold keeps. rewrite Honly. reflexivity.
Qed.

Ltac keeps_phys_leaf :=
  idtac;
  match goal with
  | |- preserves _ (emit _) => apply keeps_phys_modify; reflexivity
  | |- preserves _ (modify _) => apply keeps_phys_modify; reflexivity
  | |- preserves _ (update_core _ _) => apply keeps_phys_update_core
  | |- preserves _ (load_processor_info _ _) =>
    apply keeps_phys_load_processor_info
  end.

Lemma keeps_phys_madt_walk (fuel : nat) :
  forall table entry cores,
    preserves (keeps phys) (madt_walk fuel table entry cores).
Proof.
  induction fuel as [|fuel IH]; intros table entry cores; cbn [madt_walk];
    [apply preserves_stuck|].
  unfold printf.
  preserves_with
    ltac:(first [ keeps_phys_leaf | apply IH ]).
Qed.

Lemma keeps_phys_rsdt_loop (fuel n : nat) :
  forall rsdt i cores lapic_base,
    preserves (keeps phys) (rsdt_loop fuel n rsdt i cores lapic_base).
Proof.
  induction n as [|n IH]; intros rsdt i cores lapic_base; cbn [rsdt_loop];
    [apply preserves_ret|].
  preserves_with
    ltac:(first [ keeps_phys_leaf | apply IH | apply keeps_phys_madt_walk ]).
Qed.

(** Discovery reads physical memory and does not write it. *)
Lemma keeps_phys_smp_discover (fuel : nat) (p : platform) :
  preserves (keeps phys) (smp_discover fuel p).
Proof.
  unfold smp_discover, parse_tables, printf.
  destruct (scan_range (boot p)) as [scan scan_top].
  preserves_with
    ltac:(first [ keeps_phys_leaf | apply keeps_phys_rsdt_loop ]).
Qed.

(** The scratch frame is a page-aligned address. *)
Lemma scratch_aligned (p : platform) :
  exists t, 0 <= t /\ scratch p = 0x1000 * t.
Proof.
  unfold scratch, u64, wrap. rewrite Z.shiftl_mul_pow2 by lia.
  pose proof (Z.div_mod (frame_given p * 2 ^ 12) (2 ^ 64)) as Hdm.
  pose proof (Z.mod_pos_bound (frame_given p * 2 ^ 12) (2 ^ 64)) as Hb.
  set (q := (frame_given p * 2 ^ 12) / 2 ^ 64) in *.
  set (r := (frame_given p * 2 ^ 12) mod 2 ^ 64) in *.
  change (2 ^ 64) with 18446744073709551616 in *.
  change (2 ^ 12) with 4096 in *.
  exists (frame_given p - 4503599627370496 * q). lia.
Qed.

(** A scratch frame other than the trampoline page does not meet it. *)
Lemma scratch_apart (p : platform) (a : Z) :
  scratch p <> trampoline -> in_page trampoline a ->
  ~ in_page trampoline (scratch p + (a - trampoline)).
Proof.
  intros Hne Ha Hin. destruct (scratch_aligned p) as [t [Ht Hs]].
  unfold in_page, trampoline in *. lia.
Qed.

(** What a run of [smp_start] that starts APs consists of. *)
Lemma smp_start_multi (p : platform) (cores lapic_base : Z) (s s' : kstate) :
  lapic_base <> 0 -> 1 < cores ->
  smp_start p cores lapic_base s = Some (tt, s') ->
  exists s3,
    start_aps p (Z.to_nat (cores - 1)) 1 (installed p lapic_base s)
    = Some (tt, s3) /\
    s' = restored p cores s3.
Proof.
  intros Hbase Hcores. unfold smp_start.
  destruct (Z.eqb_spec lapic_base 0) as [E|_]; [contradiction|].
  unfold mmu_map_mmio_region, mmu_allocate_a_frame, mmu_frame_clear.
  monad_unfold.
  destruct (Z.leb_spec cores 1) as [E|_]; [lia|].
  cbn [trace set_trace set_lapic_final phys set_phys].
  rewrite <- app_assoc. cbn [app].
  fold (scratch p).
  change (set_phys _ (set_phys _ ?x)) with (installed p lapic_base s).
  destruct (start_aps _ _ _ _) as [[[] s3]|]; [|discriminate].
  intros H. injection H as <-. exists s3. split; [reflexivity|].
  unfold restored. cbn [trace set_trace set_phys phys].
  rewrite <- app_assoc. reflexivity.
Qed.

(** A run of [smp_start] that starts no AP leaves physical memory alone. *)
Lemma smp_start_single (p : platform) (cores lapic_base : Z) (s s' : kstate) :
  lapic_base = 0 \/ cores <= 1 ->
  smp_start p cores lapic_base s = Some (tt, s') ->
  phys s' = phys s.
Proof.
  intros Hcase. unfold smp_start.
  destruct (Z.eqb_spec lapic_base 0) as [E|Hne].
  - intros H. injection H as <-. reflexivity.
  - destruct Hcase as [E|Hle]; [contradiction|].
    unfold mmu_map_mmio_region. monad_unfold.
    destruct (Z.leb_spec cores 1) as [_|E]; [|lia].
    intros H. injection H as <-. reflexivity.
Qed.

Lemma installed_saved (p : platform) (lapic_base : Z) (s : kstate) (a : Z) :
  scratch p <> trampoline -> trampoline_fits p -> in_page trampoline a ->
  phys (installed p lapic_base s) (scratch p + (a - trampoline)) = phys s a.
Proof.
  intros Hne (Hlen & _ & _) Ha.
  pose proof (scratch_apart p a Hne Ha) as Hout.
  unfold installed. cbn [phys set_phys]. unfold memcpy_from, memcpy, in_range.
  unfold in_page in *.
  destruct (Z.leb_spec trampoline (scratch p + (a - trampoline))) as [H1|H1];
    destruct (Z.ltb_spec (scratch p + (a - trampoline))
                (trampoline + Z.of_nat (length (_ap_bootstrap p)))) as [H2|H2];
    cbn [andb]; try (exfalso; lia).
  all: destruct (Z.leb_spec (scratch p) (scratch p + (a - trampoline)))
         as [H3|H3]; [|exfalso; lia].
  all: destruct (Z.ltb_spec (scratch p + (a - trampoline)) (scratch p + 0x1000))
         as [H4|H4]; [|exfalso; lia].
  all: cbn [andb]; f_equal; lia.
Qed.

Lemma installed_blob (p : platform) (lapic_base : Z) (s : kstate) (i : Z) :
  0 <= i < Z.of_nat (length (_ap_bootstrap p)) ->
  phys (installed p lapic_base s) (trampoline + i)
  = nth (Z.to_nat i) (_ap_bootstrap p) 0.
Proof.
  intros Hi. unfold installed. cbn [phys set_phys].
  unfold memcpy_from, in_range.
  destruct (Z.leb_spec trampoline (trampoline + i)) as [_|H1]; [|lia].
  destruct (Z.ltb_spec (trampoline + i)
              (trampoline + Z.of_nat (length (_ap_bootstrap p)))) as [_|H2];
    [|lia].
  cbn [andb]. f_equal. lia.
Qed.

Lemma restored_page (p : platform) (cores : Z) (s : kstate) (a : Z) :
  in_page trampoline a ->
  phys (restored p cores s) a = phys s (scratch p + (a - trampoline)).
Proof.
  intros Ha. unfold restored. cbn [phys set_phys set_trace].
  unfold memcpy, in_range. unfold in_page in Ha.
  destruct (Z.leb_spec trampoline a) as [_|H1]; [|lia].
  destruct (Z.ltb_spec a (trampoline + 0x1000)) as [_|H2]; [|lia].
  reflexivity.
Qed.

(** The save, the loop and the restore of a run that starts APs. *)
Lemma round_trip_multi (p : platform) (cores lapic_base : Z) (s s' : kstate) :
  scratch p <> trampoline -> trampoline_fits p ->
  lapic_base <> 0 -> 1 < cores ->
  smp_start p cores lapic_base s = Some (tt, s') ->
  exists s3,
    start_aps p (Z.to_nat (cores - 1)) 1 (installed p lapic_base s)
    = Some (tt, s3) /\
    s' = restored p cores s3 /\
    (forall a, in_page trampoline a ->
       phys s3 (scratch p + (a - trampoline)) = phys s a) /\
    Forall quiet (emitted (installed p lapic_base s) s3) /\
    emitted s3 s'
    = [FrameClear (scratch p); Printf "smp: enabled with %d cores" [cores]] /\
    (forall a, in_page trampoline a -> phys s' a = phys s a).
Proof.
  intros Hne Hfits Hbase Hcores Hrun.
  destruct (smp_start_multi p cores lapic_base s s' Hbase Hcores Hrun)
    as [s3 [Hloop ->]].
  assert (Hoff : forall a, ~ in_page trampoline a -> off_gdt_pointer p a).
  { intros a Ha Hin. apply Ha. destruct Hfits as (_ & Hlo & Hhi).
    unfold in_page. lia. }
  pose proof (loop_step_start_aps p _ Hoff _ 1 _ _ _ Hloop)
    as (_ & _ & _ & [evs [Htrace Hquiet]] & Hphys).
  assert (Hcopy : forall a, in_page trampoline a ->
            phys s3 (scratch p + (a - trampoline)) = phys s a).
  { intros a Ha. rewrite Hphys by (apply scratch_apart; assumption).
    apply installed_saved; assumption. }
  exists s3. split; [exact Hloop|]. split; [reflexivity|].
  split; [exact Hcopy|]. split; [|split].
  - rewrite (emitted_app _ _ evs Htrace). exact Hquiet.
  - apply emitted_app. reflexivity.
  - intros a Ha. rewrite restored_page by exact Ha. apply Hcopy, Ha.
Qed.

(** C6: the 4096 bytes at physical 0x1000 are after smp_initialize what
    they were before it, on every run that returns, provided the frame the
    allocator hands out is not the trampoline page itself and the trampoline
    (with its GDT pointer) fits the page.  On a run that starts APs
    (a LAPIC base and more than one core) this is by saving and restoring:
    when the per-AP loop starts, the scratch frame holds the old page and
    the page holds the trampoline; when the loop has ended the scratch frame
    still holds the old page, and no frame was freed (or allocated) during
    the loop; only then is the page copied back, the scratch frame freed and
    the line logged. *)
Theorem trampoline_round_trip (fuel : nat) (p : platform) (s s' : kstate) :
  scratch p <> trampoline -> trampoline_fits p ->
  exec (smp_initialize fuel p) s = Some s' ->
  (forall a, in_page trampoline a -> phys s' a = phys s a) /\
  (forall cores lapic_base s1,
     smp_discover fuel p s = Some (Some (cores, lapic_base), s1) ->
     lapic_base <> 0 -> 1 < cores ->
     exists s3,
       start_aps p (Z.to_nat (cores - 1)) 1 (installed p lapic_base s1)
       = Some (tt, s3) /\
       s' = restored p cores s3 /\
       (forall a, in_page trampoline a ->
          phys (installed p lapic_base s1) (scratch p + (a - trampoline))
          = phys s a) /\
       (forall i, 0 <= i < Z.of_nat (length (_ap_bootstrap p)) ->
          phys (installed p lapic_base s1) (trampoline + i)
          = nth (Z.to_nat i) (_ap_bootstrap p) 0) /\
       (forall a, in_page trampoline a ->
          phys s3 (scratch p + (a - trampoline)) = phys s a) /\
       Forall quiet (emitted (installed p lapic_base s1) s3) /\
       emitted s3 s'
       = [FrameClear (scratch p); Printf "smp: enabled with %d cores" [cores]]).
Proof.
  intros Hne Hfits Hrun. unfold exec, smp_initialize, bind in Hrun.
  destruct (smp_discover fuel p s) as [[r s1]|] eqn:Hdisc; [|discriminate].
  pose proof (keeps_phys_smp_discover fuel p s r s1 Hdisc) as Hphys.
  unfold keeps in Hphys.
  split.
  - destruct r as [[cores lapic_base]|].
    + destruct (smp_start p cores lapic_base s1) as [[[] s2]|] eqn:Hstart;
        [|discriminate].
      injection Hrun as <-.
      destruct (Z.eq_dec lapic_base 0) as [Hz|Hnz];
        [|destruct (Z_le_gt_dec cores 1) as [Hle|Hgt]].
      * intros a _.
        rewrite (smp_start_single p cores lapic_base s1 s2 (or_introl Hz) Hstart).
        rewrite Hphys. reflexivity.
      * intros a _.
        rewrite (smp_start_single p cores lapic_base s1 s2 (or_intror Hle) Hstart).
        rewrite Hphys. reflexivity.
      * destruct (round_trip_multi p cores lapic_base s1 s2 Hne Hfits Hnz
                    ltac:(lia) Hstart) as (s3 & _ & _ & _ & _ & _ & Hpage).
        intros a Ha. rewrite (Hpage a Ha), Hphys. reflexivity.
    + unfold ret in Hrun. injection Hrun as <-.
      intros a _. rewrite Hphys. reflexivity.
  - intros cores lapic_base s1' Hd Hnz Hgt.
    injection Hd as -> <-.
    destruct (smp_start p cores lapic_base s1) as [[[] s2]|] eqn:Hstart;
      [|discriminate].
    injection Hrun as <-.
    destruct (round_trip_multi p cores lapic_base s1 s2 Hne Hfits Hnz Hgt Hstart)
      as (s3 & Hloop & Hs' & Hcopy & Hquiet & Hlast & _).
    exists s3. split; [exact Hloop|]. split; [exact Hs'|].
    split; [intros a Ha; rewrite <- Hphys; apply installed_saved; assumption|].
    split; [intros i Hi; apply installed_blob; exact Hi|].
    split; [intros a Ha; rewrite <- Hphys; apply Hcopy, Ha|].
    split; assumption.
Qed.

Lemma trampoline_round_trip_witness :
  exists s',
    exec (smp_initialize 9 (Demo.machine ∅))
         (Demo.at_boot
            (Demo.firmware Demo.good_rsdp Demo.two_cores [1; 2; 3; 4])
            [0x1000; 0; 0])
    = Some s' /\
    processor_count s' = 2 /\
    (forall a, in_page trampoline a ->
       phys s' a
       = phys (Demo.at_boot
                 (Demo.firmware Demo.good_rsdp Demo.two_cores [1; 2; 3; 4])
                 [0x1000; 0; 0]) a).
Proof.
  assert (Hcount :
    processor_count <$>
      exec (smp_initialize 9 (Demo.machine ∅))
           (Demo.at_boot
              (Demo.firmware Demo.good_rsdp Demo.two_cores [1; 2; 3; 4])
              [0x1000; 0; 0]) = Some 2)
    by (vm_compute; reflexivity).
  destruct (exec (smp_initialize 9 (Demo.machine ∅))
              (Demo.at_boot
                 (Demo.firmware Demo.good_rsdp Demo.two_cores [1; 2; 3; 4])
                 [0x1000; 0; 0])) as [s'|] eqn:Hrun; [|discriminate Hcount].
  exists s'. split; [reflexivity|]. split.
  - injection Hcount as Hcount. exact Hcount.
  - apply (trampoline_round_trip 9 (Demo.machine ∅) _ s').
    + vm_compute. discriminate.
    + unfold trampoline_fits. simpl. lia.
    + exact Hrun.
Defined.

End TrampolinePage.

(** ** Parsing the MADT *)

Section MadtParse.

Lemma walked_nothing (s : kstate) (c : Z) : walked s c [] [] = s.
Proof.
  unfold walked. cbn [assign_cores]. destruct s. unfold set_trace,
    set_processor_local_data. cbn. rewrite app_nil_r. reflexivity.
Qed.

Lemma counts_entry (m : phys_mem) (entry : Z) (e : madt_entry) :
  load8 m entry = entry_type e -> load8 m (entry + 4) = entry_flags e ->
  counts m entry = enabled_lapic e.
Proof. intros H0 H4. unfold counts, enabled_lapic. rewrite H0, H4. reflexivity. Qed.

Lemma enabled_ids_nil : enabled_ids [] = [].
Proof. reflexivity. Qed.

Lemma enabled_ids_cons (e : madt_entry) (es : list madt_entry) :
  enabled_ids (e :: es)
  = if enabled_lapic e then entry_apic_id e :: enabled_ids es
    else enabled_ids es.
Proof.
  unfold enabled_ids. rewrite filter_cons.
  destruct (decide (enabled_lapic e = true)) as [H|H].
  - rewrite H. reflexivity.
  - apply not_true_is_false in H. rewrite H. reflexivity.
Qed.

(** The walk over a table with the entries [es], from a count of [c]: it
    enters the enabled processors in table order while there is room, and
    leaves through the too-many exit on the first one for which there is
    none. *)
Lemma madt_walk_entries (es : list madt_entry) :
  forall (fuel : nat) (table entry c : Z) (s : kstate),
    entries_at (phys s) entry (table_end (phys s) table) es ->
    table_of_32 s -> 0 <= c <= 32 ->
    (length es < fuel)%nat ->
    madt_walk fuel table entry c s
    = Some ((Nat.ltb (Z.to_nat (32 - c)) (length (enabled_ids es)),
             c + Z.of_nat (length (take (Z.to_nat (32 - c)) (enabled_ids es)))),
            walked s c (take (Z.to_nat (32 - c)) (enabled_ids es))
              (if Nat.ltb (Z.to_nat (32 - c)) (length (enabled_ids es))
               then [too_many_cores] else [])).
Proof.
  induction es as [|e es IH]; intros fuel table entry c s Hat Hlen Hc Hfuel.
  - destruct fuel as [|fuel]; [simpl in Hfuel; lia|].
    simpl in Hat. rewrite madt_walk_end by exact Hat.
    rewrite enabled_ids_nil, take_nil.
    cbn [length]. rewrite Z.add_0_r.
    replace (Nat.ltb (Z.to_nat (32 - c)) 0) with false
      by (symmetry; apply Nat.ltb_ge; lia).
    rewrite walked_nothing. reflexivity.
  - destruct fuel as [|fuel]; [simpl in Hfuel; lia|].
    cbn [entries_at] in Hat.
    destruct Hat as (Hlt & H0 & H1 & H3 & H4 & Hrest).
    pose proof (counts_entry _ _ _ H0 H4) as Hcnt.
    rewrite enabled_ids_cons.
    destruct (enabled_lapic e) eqn:Hen.
    + cbn [length].
      destruct (Z.eq_dec c 32) as [->|Hne].
      * rewrite madt_walk_full by assumption.
        change (Z.to_nat (32 - 32)) with 0%nat.
        cbn [Nat.ltb Nat.leb take length Z.of_nat].
        unfold walked. cbn [assign_cores].
        destruct s. reflexivity.
      * rewrite madt_walk_count by (try assumption; lia).
        rewrite H1, H3.
        rewrite (IH fuel table (entry + entry_length e) (c + 1));
          [ | exact Hrest
            | unfold table_of_32 in *; cbn [processor_local_data
                set_processor_local_data]; rewrite !length_alter; exact Hlen
            | lia | simpl in Hfuel; lia ].
        replace (Z.to_nat (32 - c)) with (S (Z.to_nat (32 - (c + 1)))) by lia.
        cbn [take length Nat.ltb Nat.leb].
        f_equal.
        apply (f_equal2 pair); [apply (f_equal2 pair); [reflexivity | lia]|].
        unfold walked. cbn [assign_cores trace phys processor_local_data
          set_processor_local_data set_trace]. reflexivity.
    + rewrite madt_walk_skip by assumption. rewrite H1.
      apply IH; [exact Hrest | exact Hlen | exact Hc | simpl in Hfuel; lia].
Qed.

(** Tables that are not MADTs are passed over. *)
Lemma rsdt_loop_pass (fuel : nat) (ptrs : list Z) :
  forall (rsdt i c lb : Z) (s : kstate),
    (forall (j : nat) (t : Z), ptrs !! j = Some t ->
       load32 (phys s) (rsdt + Acpi.rsdt_pointers + 4 * (i + Z.of_nat j)) = t) ->
    Forall (fun t => is_apic (phys s) t = false) ptrs ->
    rsdt_loop fuel (length ptrs) rsdt i c lb s = Some ((c, lb), s).
Proof.
  induction ptrs as [|t ptrs IH]; intros rsdt i c lb s Hptr Hnot.
  - reflexivity.
  - cbn [length rsdt_loop]. monad_unfold.
    pose proof (Hptr 0%nat t eq_refl) as H0.
    rewrite Z.add_0_r in H0. rewrite H0.
    inversion Hnot as [|? ? Ht Hnot']; subst.
    rewrite Ht. apply IH; [|exact Hnot'].
    intros j t' Hj. rewrite <- (Hptr (S j) t' Hj). f_equal. lia.
Qed.

(** The loop over an RSDT that lists one MADT among other tables. *)
Lemma rsdt_loop_one_madt (fuel : nat) (before : list Z) :
  forall (after : list Z) (table rsdt i lb : Z) (es : list madt_entry)
         (s : kstate),
    (forall (j : nat) (t : Z), (before ++ table :: after) !! j = Some t ->
       load32 (phys s) (rsdt + Acpi.rsdt_pointers + 4 * (i + Z.of_nat j)) = t) ->
    Forall (fun t => is_apic (phys s) t = false) (before ++ after) ->
    madt_at (phys s) table es ->
    table_of_32 s -> (length es < fuel)%nat ->
    rsdt_loop fuel (length (before ++ table :: after)) rsdt i 0 lb s
    = Some ((Z.of_nat (length (take 32 (enabled_ids es))),
             load32 (phys s) (table + Acpi.madt_lapic_addr)),
            walked s 0 (take 32 (enabled_ids es))
              (if Nat.ltb 32 (length (enabled_ids es))
               then [too_many_cores] else [])).
Proof.
  induction before as [|t before IH];
    intros after table rsdt i lb es s Hptr Hnot [Hapic Hat] Hlen Hfuel.
  - cbn [app length rsdt_loop]. monad_unfold.
    pose proof (Hptr 0%nat table eq_refl) as H0.
    rewrite Z.add_0_r in H0. rewrite H0, Hapic.
    rewrite (madt_walk_entries es fuel table _ 0 s Hat Hlen ltac:(lia) Hfuel).
    change (Z.to_nat (32 - 0)) with 32%nat. rewrite Z.add_0_l.
    destruct (Nat.ltb 32 (length (enabled_ids es))); [reflexivity|].
    rewrite rsdt_loop_pass; [reflexivity | | ].
    + intros j t' Hj. cbn [phys walked set_trace set_processor_local_data].
      rewrite <- (Hptr (S j) t' Hj). f_equal. lia.
    + exact Hnot.
  - cbn [app length rsdt_loop]. monad_unfold.
    pose proof (Hptr 0%nat t eq_refl) as H0.
    rewrite Z.add_0_r in H0. rewrite H0.
    cbn [app] in Hnot. inversion Hnot as [|? ? Ht Hnot']; subst.
    rewrite Ht. apply IH; try assumption; [|split; assumption].
    intros j t' Hj. rewrite <- (Hptr (S j) t' Hj). f_equal. lia.
Qed.

(** Slots outside the ones entered keep their descriptor. *)
Lemma assign_cores_other (ids : list Z) :
  forall (c : Z) (l : list processor_local) (j : nat),
    0 <= c ->
    (j < Z.to_nat c \/ Z.to_nat c + length ids <= j)%nat ->
    assign_cores c ids l !! j = l !! j.
Proof.
  induction ids as [|id ids IH]; intros c l j Hc Hj; cbn [assign_cores];
    [reflexivity|].
  rewrite IH by (try lia; cbn [length] in Hj; lia).
  cbn [length] in Hj.
  rewrite !list_lookup_alter_ne by lia. reflexivity.
Qed.

(** Slot [c + j] carries the [j]-th of the processors entered. *)
Lemma assign_cores_slot (ids : list Z) :
  forall (c : Z) (l : list processor_local) (j : nat) (id : Z),
    0 <= c -> ids !! j = Some id ->
    (Z.to_nat c + j < length l)%nat ->
    exists d, assign_cores c ids l !! (Z.to_nat c + j)%nat = Some d /\
              cpu_id d = c + Z.of_nat j /\ lapic_id d = id.
Proof.
  induction ids as [|id0 ids IH]; intros c l j id Hc Hj Hlen;
    [discriminate Hj|].
  cbn [assign_cores]. destruct j as [|j].
  - injection Hj as ->.
    rewrite assign_cores_other by lia.
    rewrite Nat.add_0_r in *.
    destruct (lookup_lt_is_Some_2 l (Z.to_nat c) Hlen) as [d Hd].
    rewrite !list_lookup_alter_eq, Hd. eexists. split; [reflexivity|].
    split; [cbn; lia | reflexivity].
  - cbn in Hj.
    destruct (IH (c + 1) (alter (with_lapic_id id0) (Z.to_nat c)
                            (alter (with_cpu_id c) (Z.to_nat c) l)) j id)
      as [d [Hd [Hid Hlap]]]; [lia | exact Hj | rewrite !length_alter; lia |].
    exists d. replace (Z.to_nat c + S j)%nat with (Z.to_nat (c + 1) + j)%nat by lia.
    split; [exact Hd|]. split; [lia | exact Hlap].
Qed.

End MadtParse.

(** ** What smp_initialize produces from the MADT *)

Section Discovery.

Lemma preserves_weaken {A : Type} (R1 R2 : relation kstate) (c : M A) :
  (forall s s', R1 s s' -> R2 s s') -> preserves R1 c -> preserves R2 c.
Proof. intros Himp Hc s a s' H. apply Himp. exact (Hc s a s' H). Qed.

Lemma quiet_not_too_many (e : event) : quiet e -> not_too_many e.
Proof.
  intros Hq He. unfold not_too_many in He. subst e. simpl in Hq.
  apply Hq. reflexivity.
Qed.

Lemma loop_step_start_step (P : Z -> Prop) (s s' : kstate) :
  loop_step P s s' -> start_step s s'.
Proof.
  intros (Hc & _ & Hd & [evs [Ht Hq]] & _).
  split; [exact Hc|]. split; [exact Hd|].
  exists evs. split; [exact Ht|].
  eapply Forall_impl; [exact Hq|]. exact quiet_not_too_many.
Qed.

Lemma start_step_emit (e : event) :
  not_too_many e -> preserves start_step (emit e).
Proof.
  intros He. apply preserves_modify. intros s.
  split; [reflexivity|]. split; [apply Forall2_same_ids_refl|].
  exists [e]. split; [reflexivity | repeat constructor; exact He].
Qed.

Lemma start_step_set (f : kstate -> kstate) :
  (forall s, processor_count (f s) = processor_count s) ->
  (forall s, processor_local_data (f s) = processor_local_data s) ->
  (forall s, trace (f s) = trace s) ->
  preserves start_step (modify f).
Proof.
  intros Hc Hd Ht. apply preserves_modify. intros s.
  split; [apply Hc|]. split.
  - unfold cores_step. rewrite Hd. apply Forall2_same_ids_refl.
  - exists []. rewrite app_nil_r. split; [apply Ht | constructor].
Qed.

(** Starting the APs changes neither the count nor the ids, and does not
    log the too-many-cores line. *)
Lemma start_step_smp_start (p : platform) (cores lapic_base : Z) :
  preserves start_step (smp_start p cores lapic_base).
Proof.
  unfold smp_start, mmu_map_mmio_region, mmu_allocate_a_frame,
    mmu_frame_clear, printf.
  preserves_with
    ltac:(idtac;
          match goal with
          | |- preserves _ (emit _) =>
            apply start_step_emit; intros H; discriminate H
          | |- preserves _ (modify _) => apply start_step_set; reflexivity
          | |- preserves _ (start_aps _ _ _) =>
            apply (preserves_weaken (loop_step (fun _ => False)));
            [ apply loop_step_start_step
            | apply loop_step_start_aps; intros ? [] ]
          end).
Qed.

Lemma length_take_32 (ids : list Z) :
  Z.of_nat (length (take 32 ids)) = Z.min (Z.of_nat (length ids)) 32.
Proof. rewrite length_take. lia. Qed.

(** Lines 271-301 on an RSDT that lists one MADT. *)
Lemma parse_tables_one_madt (fuel : nat) (rsdp table : Z)
    (before after : list Z) (es : list madt_entry) (s0 : kstate) :
  rsdt_lists (phys s0) (load32 (phys s0) (rsdp + Acpi.rsdp_rsdt_address))
             (before ++ table :: after) ->
  Forall (fun t => is_apic (phys s0) t = false) (before ++ after) ->
  madt_at (phys s0) table es ->
  (length es < fuel)%nat ->
  table_of_32 s0 ->
  parse_tables fuel rsdp s0
  = Some (Some (Z.min (Z.of_nat (length (enabled_ids es))) 32,
                load32 (phys s0) (table + Acpi.madt_lapic_addr)),
          set_processor_count
            (Z.min (Z.of_nat (length (enabled_ids es))) 32)
            (walked s0 0 (take 32 (enabled_ids es))
               (if Nat.ltb 32 (length (enabled_ids es))
                then [too_many_cores] else []))).
Proof.
  intros [Hn Hptr] Hnot Hmadt Hfuel Hlen.
  unfold parse_tables. monad_unfold. rewrite Hn.
  rewrite (rsdt_loop_one_madt fuel before after table _ 0 0 es s0);
    try assumption.
  rewrite length_take_32. reflexivity.
Qed.

(** The state the parse leaves, against the state before smp_initialize. *)
Lemma parsed_after_walk (es : list madt_entry) (s s0 : kstate) :
  only_cores s s0 ->
  cores_step (rel_and same_ids same_tasks) s s0 ->
  table_of_32 s ->
  parsed es s
    (set_processor_count
       (Z.min (Z.of_nat (length (enabled_ids es))) 32)
       (walked s0 0 (take 32 (enabled_ids es))
          (if Nat.ltb 32 (length (enabled_ids es))
           then [too_many_cores] else []))).
Proof.
  intros Honly Hcores Hlen.
  assert (Hlen0 : length (processor_local_data s0) = 32%nat).
  { unfold cores_step in Hcores. rewrite <- (Forall2_length _ _ _ Hcores).
    exact Hlen. }
  assert (Htrace : trace s0 = trace s)
    by (apply (only_cores_keeps trace); [reflexivity | exact Honly]).
  split; [reflexivity|]. split; [|split].
  - intros j id Hj Hj32.
    cbn [processor_local_data set_processor_count walked set_trace
         set_processor_local_data].
    destruct (assign_cores_slot (take 32 (enabled_ids es)) 0
                (processor_local_data s0) j id) as [d [Hd [Hid Hlap]]].
    + lia.
    + rewrite lookup_take_lt by exact Hj32. exact Hj.
    + rewrite Hlen0. simpl. lia.
    + exists d. split; [exact Hd|]. split; [lia | exact Hlap].
  - intros j d Hj Hd.
    cbn [processor_local_data set_processor_count walked set_trace
         set_processor_local_data].
    rewrite assign_cores_other.
    + unfold cores_step in Hcores.
      destruct (Forall2_lookup_l _ _ _ _ _ Hcores Hd) as [d' [Hd' [Hids _]]].
      exists d'. split; assumption.
    + lia.
    + right. rewrite <- length_take_32 in Hj. simpl. lia.
  - cbn [set_processor_count].
    rewrite (emitted_app s _
               (if Nat.ltb 32 (length (enabled_ids es))
                then [too_many_cores] else []))
      by (unfold walked; cbn [trace set_trace]; rewrite Htrace; reflexivity).
    destruct (Nat.ltb_spec 32 (length (enabled_ids es))) as [Hgt|Hle].
    + split; [intros _; lia|]. intros _. apply list_elem_of_singleton.
      reflexivity.
    + split; [|lia]. intros Hin. apply not_elem_of_nil in Hin. contradiction.
Qed.

(** Lines 303-343 do not undo what the parse produced. *)
Lemma parsed_start_step (es : list madt_entry) (s s1 s' : kstate) :
  (exists evs, trace s1 = trace s ++ evs) ->
  parsed es s s1 -> start_step s1 s' -> parsed es s s'.
Proof.
  intros [ev1 Ht1] (Hcount & Hin & Hout & Hlog) (Hc & Hd & [ev2 [Ht2 Hq]]).
  unfold keeps in Hc. unfold cores_step in Hd.
  split; [rewrite Hc; exact Hcount|]. split; [|split].
  - intros j id Hj Hj32. destruct (Hin j id Hj Hj32) as [d [Hd1 [Hid Hlap]]].
    destruct (Forall2_lookup_l _ _ _ _ _ Hd Hd1) as [d' [Hd' [Hid' Hlap']]].
    exists d'. split; [exact Hd'|]. split; congruence.
  - intros j d Hj Hs. destruct (Hout j d Hj Hs) as [d1 [Hd1 Hids1]].
    destruct (Forall2_lookup_l _ _ _ _ _ Hd Hd1) as [d' [Hd' Hids']].
    exists d'. split; [exact Hd'|]. etransitivity; eassumption.
  - rewrite <- Hlog.
    rewrite (emitted_app s s1 ev1 Ht1).
    rewrite (emitted_app s s' (ev1 ++ ev2))
      by (rewrite Ht2, Ht1, app_assoc; reflexivity).
    rewrite elem_of_app. split; [|intros H; left; exact H].
    intros [H|H]; [exact H|].
    exfalso. rewrite Forall_forall in Hq. exact (Hq _ H eq_refl).
Qed.

(** C1: for a MADT with the entries [es], reached from a discovered RSDP
    that passes the checksum gate, with [nosmp] absent and the RSDT listing
    this one MADT (among tables of other kinds), smp_initialize produces
    exactly [min(K, 32)] descriptors, [K] being the number of entries of
    type 0 with flag bit 0 set: after the parse, and in every state
    smp_initialize returns, [processor_count] is [min(K, 32)], slot [j]
    below that has [cpu_id = j] and as [lapic_id] the APIC id byte of the
    [j]-th such entry in table order, the other slots keep their ids, and
    the too-many-cores line has been logged exactly when [K > 32].  The
    parse itself returns, given fuel for the entries. *)
Theorem madt_parse (fuel : nat) (p : platform) (k : Z) (s : kstate)
    (rsdp table : Z) (before after : list Z) (es : list madt_entry) :
  scan_ends fuel p s true rsdp ->
  rejected p s rsdp = false ->
  args_present (boot p) "nosmp" = false ->
  rsdt_lists (phys s) (load32 (phys s) (rsdp + Acpi.rsdp_rsdt_address))
             (before ++ table :: after) ->
  Forall (fun t => is_apic (phys s) t = false) (before ++ after) ->
  madt_at (phys s) table es ->
  (length es < fuel)%nat ->
  table_of_32 s -> info_ready 0 k s ->
  (exists s1,
     smp_discover fuel p s
     = Some (Some (Z.min (Z.of_nat (length (enabled_ids es))) 32,
                   load32 (phys s) (table + Acpi.madt_lapic_addr)), s1) /\
     parsed es s s1) /\
  (forall s', exec (smp_initialize fuel p) s = Some s' -> parsed es s s').
Proof.
  intros Hscan Hrej Hnosmp Hrsdt Hnot Hmadt Hfuel Hlen Hready.
  destruct (bsp_info p k s Hready) as [s0 [Hinfo [Honly Hcores]]].
  pose proof (smp_discover_cases fuel p s s0 true rsdp Hscan Hinfo Honly)
    as Hcases.
  rewrite Hrej, Hnosmp in Hcases.
  assert (Hphys : phys s0 = phys s)
    by (apply (only_cores_keeps phys); [reflexivity | exact Honly]).
  assert (Hlen0 : table_of_32 s0).
  { unfold table_of_32, cores_step in *.
    rewrite <- (Forall2_length _ _ _ Hcores). exact Hlen. }
  rewrite <- Hphys in Hrsdt, Hnot, Hmadt.
  pose proof (parse_tables_one_madt fuel rsdp table before after es s0
                Hrsdt Hnot Hmadt Hfuel Hlen0) as Hparse.
  pose proof (parsed_after_walk es s s0 Honly Hcores Hlen) as Hparsed.
  assert (Hdisc : smp_discover fuel p s
                  = Some (Some (Z.min (Z.of_nat (length (enabled_ids es))) 32,
                                load32 (phys s) (table + Acpi.madt_lapic_addr)),
                          set_processor_count
                            (Z.min (Z.of_nat (length (enabled_ids es))) 32)
                            (walked s0 0 (take 32 (enabled_ids es))
                               (if Nat.ltb 32 (length (enabled_ids es))
                                then [too_many_cores] else [])))).
  { rewrite Hcases. cbn [negb]. rewrite Hparse, Hphys. reflexivity. }
  split.
  - eexists. split; [exact Hdisc | exact Hparsed].
  - intros s' Hrun. unfold exec, smp_initialize, bind in Hrun.
    rewrite Hdisc in Hrun. cbv beta iota in Hrun.
    destruct (smp_start _ _ _ _) as [[[] s2]|] eqn:Hstart in Hrun;
      [|discriminate].
    injection Hrun as <-.
    eapply parsed_start_step; [| exact Hparsed |].
    + eexists. unfold walked. cbn [trace set_trace set_processor_count].
      rewrite (only_cores_keeps trace s s0) by (reflexivity || exact Honly).
      reflexivity.
    + exact (start_step_smp_start p _ _ _ _ _ Hstart).
Qed.

Lemma madt_parse_witness :
  exists s',
    exec (smp_initialize 9 (Demo.machine ∅))
         (Demo.at_boot (Demo.firmware Demo.good_rsdp Demo.mixed_entries [])
                       [0; 0])
    = Some s' /\
    parsed Demo.mixed_list
      (Demo.at_boot (Demo.firmware Demo.good_rsdp Demo.mixed_entries []) [0; 0])
      s'.
Proof.
  assert (Hcount :
    processor_count <$>
      exec (smp_initialize 9 (Demo.machine ∅))
           (Demo.at_boot (Demo.firmware Demo.good_rsdp Demo.mixed_entries [])
                         [0; 0]) = Some 2)
    by (vm_compute; reflexivity).
  destruct (exec (smp_initialize 9 (Demo.machine ∅))
              (Demo.at_boot (Demo.firmware Demo.good_rsdp Demo.mixed_entries [])
                            [0; 0])) as [s'|] eqn:Hrun; [|discriminate Hcount].
  exists s'. split; [reflexivity|].
  apply (madt_parse 9 (Demo.machine ∅) 0
           (Demo.at_boot (Demo.firmware Demo.good_rsdp Demo.mixed_entries [])
                         [0; 0])
           0xE0000 0xE2000 [] [] Demo.mixed_list).
  - vm_compute. reflexivity.
  - vm_compute. reflexivity.
  - vm_compute. reflexivity.
  - split; [vm_compute; reflexivity|].
    intros [|i] t Ht; [|discriminate Ht].
    injection Ht as <-. vm_compute. reflexivity.
  - constructor.
  - split; [vm_compute; reflexivity|].
    cbn [entries_at Demo.mixed_list].
    repeat split; first [vm_compute; reflexivity | vm_compute; discriminate].
  - simpl. lia.
  - reflexivity.
  - split; [split; [lia | eexists; split; reflexivity]|].
    split; [lia | eexists; reflexivity].
  - exact Hrun.
Defined.

(** Forty enabled processors: thirty-two descriptors, the line logged. *)
Example forty_cores_clamped :
  (fun s' => (processor_count s',
              lapic_id <$> processor_local_data s' !! 31%nat,
              take 1 (emitted (Demo.at_boot (fun _ => 0) []) s')))
    <$> exec (smp_initialize 50 (Demo.machine ∅))
             (Demo.at_boot (Demo.firmware Demo.good_rsdp Demo.forty_cores [])
                           (repeat 0 62))
  = Some (32, Some 31, [Printf "smp: too many cores" []]).
Proof. vm_compute. reflexivity. Qed.

End Discovery.

(** * Further properties of the code *)

(** ** xtoi *)

Section Xtoi.

Lemma digit_value_ranges (c : ascii) :
  digit_value c
  = if between "0" "9" (chr c) then chr c - chr "0"
    else if between "a" "f" (chr c) then chr c - chr "a" + 0xa
    else if between "A" "F" (chr c) then chr c - chr "A" + 0xa
    else 0.
Proof. destruct c as [[] [] [] [] [] [] [] []]; vm_compute; reflexivity. Qed.

Lemma chr_zero (c : ascii) : (chr c =? 0) = true -> c = Ascii.zero.
Proof.
  destruct c as [[] [] [] [] [] [] [] []]; vm_compute; intros H;
    first [discriminate H | reflexivity].
Qed.

Lemma u64_add_l (x y : Z) : u64 (u64 x + y) = u64 (x + y).
Proof. unfold u64, wrap. apply Zplus_mod_idemp_l. Qed.

Lemma u64_mul_l (x y : Z) : u64 (u64 x * y) = u64 (x * y).
Proof. unfold u64, wrap. apply Zmult_mod_idemp_l. Qed.

(** One round of the loop of lines 195-205. *)
Lemma xtoi_loop_digit (c : ascii) (rest : string) (x : Z) :
  c <> Ascii.zero ->
  xtoi_loop (String c rest) (u64 x)
  = xtoi_loop rest (u64 (16 * x + digit_value c)).
Proof.
  intros Hc. cbn [xtoi_loop].
  destruct (chr c =? 0) eqn:E; [apply chr_zero in E; contradiction|].
  f_equal. rewrite digit_value_ranges.
  rewrite u64_mul_l.
  destruct (between "0" "9" (chr c));
    [|destruct (between "a" "f" (chr c));
      [|destruct (between "A" "F" (chr c))]];
    rewrite ?u64_add_l; f_equal; lia.
Qed.

Lemma xtoi_loop_fold (cs : list ascii) :
  forall (x : Z),
    Forall (fun c => c <> Ascii.zero) cs ->
    xtoi_loop (string_of_list_ascii cs) (u64 x)
    = u64 (fold_left (fun acc c => 16 * acc + digit_value c) cs x).
Proof.
  induction cs as [|c cs IH]; intros x Hcs; [reflexivity|].
  inversion Hcs as [|? ? Hc Hcs']; subst.
  cbn [string_of_list_ascii fold_left].
  rewrite xtoi_loop_digit by exact Hc. apply IH. exact Hcs'.
Qed.

Lemma xtoi_loop_number (s : string) :
  c_chars s -> xtoi_loop s 0 = u64 (hex_number s).
Proof.
  intros Hs. unfold hex_number.
  rewrite <- (xtoi_loop_fold _ 0 Hs).
  rewrite string_of_list_ascii_of_string. reflexivity.
Qed.

(** The test of line 191. *)
Lemma xtoi_prefix (s : string) :
  xtoi s
  = match s with
    | String c0 (String c1 rest) =>
      if Ascii.eqb c0 "0" && Ascii.eqb c1 "x" then xtoi_loop rest 0
      else xtoi_loop s 0
    | _ => xtoi_loop s 0
    end.
Proof.
  destruct s as [|c0 [|c1 rest]]; [reflexivity | |].
  - destruct c0 as [[] [] [] [] [] [] [] []]; reflexivity.
  - destruct c0 as [[] [] [] [] [] [] [] []]; try reflexivity.
    destruct c1 as [[] [] [] [] [] [] [] []]; reflexivity.
Qed.

Lemma xtoi_number (s : string) : c_chars s -> xtoi s = u64 (hex_number s).
Proof.
  intros Hs. rewrite xtoi_prefix. destruct s as [|c0 [|c1 rest]];
    try (apply xtoi_loop_number; exact Hs).
  destruct (Ascii.eqb c0 "0" && Ascii.eqb c1 "x") eqn:E;
    [|apply xtoi_loop_number; exact Hs].
  apply andb_true_iff in E. destruct E as [E0 E1].
  apply Ascii.eqb_eq in E0, E1. subst c0 c1.
  unfold c_chars in Hs. cbn [list_ascii_of_string] in Hs.
  inversion Hs as [|? ? _ Hs1]; subst. inversion Hs1 as [|? ? _ Hs2]; subst.
  rewrite xtoi_loop_number by exact Hs2. reflexivity.
Qed.

(** X1: [xtoi] reads its argument as a number in base 16 and returns it
    modulo 2^64: the digits 0-9, a-f and A-F have their usual values, every
    other character (the [x] of a leading [0x] too) counts as the digit 0,
    and nothing is ever rejected.  A leading [0x] therefore changes
    nothing. *)
Theorem xtoi_hex_number (s : string) :
  c_chars s ->
  xtoi s = u64 (hex_number s) /\
  xtoi (String "0" (String "x" s)) = xtoi s.
Proof.
  intros Hs. split; [apply xtoi_number; exact Hs|].
  rewrite (xtoi_number s Hs). rewrite xtoi_prefix.
  cbn [Ascii.eqb Bool.eqb andb].
  apply xtoi_loop_number. exact Hs.
Qed.

Lemma xtoi_hex_number_witness :
  xtoi "7Fe0000" = 0x7fe0000 /\ xtoi "0x7Fe0000" = xtoi "7Fe0000".
Proof.
  destruct (xtoi_hex_number "7Fe0000") as [H1 H2].
  - unfold c_chars. simpl. repeat constructor; discriminate.
  - split; [rewrite H1; vm_compute; reflexivity | exact H2].
Defined.

Lemma list_ascii_of_string_append (s1 s2 : string) :
  list_ascii_of_string (String.append s1 s2)
  = list_ascii_of_string s1 ++ list_ascii_of_string s2.
Proof.
  induction s1 as [|c s1 IH]; [reflexivity|].
  change (String.append (String c s1) s2) with (String c (String.append s1 s2)).
  cbn [list_ascii_of_string app]. rewrite IH. reflexivity.
Qed.

Lemma length_list_ascii (s : string) :
  length (list_ascii_of_string s) = String.length s.
Proof.
  induction s as [|c s IH]; [reflexivity|].
  cbn [list_ascii_of_string length String.length]. rewrite IH. reflexivity.
Qed.

Lemma hex_fold_shift (cs : list ascii) :
  forall x,
    fold_left (fun acc c => 16 * acc + digit_value c) cs x
    = x * 16 ^ Z.of_nat (length cs)
      + fold_left (fun acc c => 16 * acc + digit_value c) cs 0.
Proof.
  induction cs as [|c cs IH]; intros x.
  - cbn [fold_left length Z.of_nat]. lia.
  - cbn [fold_left length]. rewrite IH.
    rewrite (IH (16 * 0 + digit_value c)).
    rewrite Nat2Z.inj_succ, Z.pow_succ_r by lia. lia.
Qed.

(** X2: [xtoi] does not notice an overflow: of a string of more than
    sixteen characters only the last sixteen count. *)
Theorem xtoi_last_sixteen (s1 s2 : string) :
  c_chars s1 -> c_chars s2 -> String.length s2 = 16%nat ->
  xtoi (String.append s1 s2) = xtoi s2.
Proof.
  intros H1 H2 Hlen.
  assert (H12 : c_chars (String.append s1 s2)).
  { unfold c_chars in *. rewrite list_ascii_of_string_append.
    apply Forall_app. split; assumption. }
  rewrite (xtoi_number _ H12), (xtoi_number _ H2).
  unfold hex_number. rewrite list_ascii_of_string_append, fold_left_app.
  rewrite hex_fold_shift.
  rewrite length_list_ascii, Hlen.
  unfold u64, wrap. change (16 ^ Z.of_nat 16) with (2 ^ 64).
  rewrite Z.add_comm. apply Z_mod_plus_full.
Qed.

Lemma xtoi_last_sixteen_witness :
  xtoi (String.append "1234" "00000000fee00000") = xtoi "00000000fee00000".
Proof.
  apply (xtoi_last_sixteen "1234" "00000000fee00000").
  - unfold c_chars. simpl. repeat constructor; discriminate.
  - unfold c_chars. simpl. repeat constructor; discriminate.
  - reflexivity.
Defined.

End Xtoi.

(** ** The checksum, the RSDT header and the time stamp counter *)

Section Checksum.

Lemma u8_add_l (x y : Z) : u8 (u8 x + y) = u8 (x + y).
Proof. unfold u8, wrap. apply Zplus_mod_idemp_l. Qed.

Lemma checksum_loop_sum (m : phys_mem) (n : nat) :
  forall (a c : Z), checksum_loop m a n (u8 c) = u8 (c + byte_sum m a n).
Proof.
  induction n as [|n IH]; intros a c; cbn [checksum_loop byte_sum].
  - rewrite Z.add_0_r. reflexivity.
  - rewrite u8_add_l, IH. f_equal. lia.
Qed.

Lemma rsdp_checksum_sum (m : phys_mem) (rsdp : Z) :
  rsdp_checksum m rsdp = u8 (byte_sum m rsdp 20).
Proof.
  unfold rsdp_checksum. change 0 with (u8 0) at 1.
  rewrite checksum_loop_sum. reflexivity.
Qed.

Lemma byte_sum_seq (m : phys_mem) (n : nat) :
  forall a,
    byte_sum m a n
    = fold_right Z.add 0 (map (fun i => load8 m (a + Z.of_nat i)) (seq 0 n)).
Proof.
  induction n as [|n IH]; intros a; [reflexivity|].
  cbn [byte_sum seq map fold_right]. rewrite Z.add_0_r. f_equal.
  rewrite IH, <- seq_shift, map_map. f_equal.
  apply map_ext. intros i. f_equal. lia.
Qed.

Lemma byte_sum_ext (m m' : phys_mem) (n : nat) :
  forall a,
    (forall i, 0 <= i < Z.of_nat n -> load8 m' (a + i) = load8 m (a + i)) ->
    byte_sum m' a n = byte_sum m a n.
Proof.
  induction n as [|n IH]; intros a H; cbn [byte_sum]; [reflexivity|].
  rewrite <- (Z.add_0_r a) at 1 3. rewrite (H 0) by lia. rewrite Z.add_0_r.
  f_equal. apply IH. intros i Hi.
  replace (a + 1 + i) with (a + (1 + i)) by lia. apply H. lia.
Qed.

Lemma byte_sum_patch (m : phys_mem) (v : Z) (n : nat) :
  forall (a k : Z),
    0 <= k < Z.of_nat n ->
    byte_sum (memcpy_from m (a + k) [v]) a n
    = byte_sum m a n - load8 m (a + k) + u8 v.
Proof.
  assert (Hout : forall x y, x <> y -> load8 (memcpy_from m x [v]) y = load8 m y).
  { intros x y Hne. unfold load8, memcpy_from, in_range.
    change (Z.of_nat (length [v])) with 1.
    destruct (Z.leb_spec x y); destruct (Z.ltb_spec y (x + 1));
      cbn [andb]; try reflexivity. exfalso. lia. }
  assert (Hin : forall x, load8 (memcpy_from m x [v]) x = u8 v).
  { intros x. unfold load8, memcpy_from, in_range.
    change (Z.of_nat (length [v])) with 1.
    destruct (Z.leb_spec x x); [|lia]. destruct (Z.ltb_spec x (x + 1)); [|lia].
    cbn [andb]. rewrite Z.sub_diag. reflexivity. }
  induction n as [|n IH]; intros a k Hk; [simpl in Hk; lia|].
  cbn [byte_sum].
  destruct (Z.eq_dec k 0) as [->|Hne].
  - rewrite Z.add_0_r, Hin.
    rewrite (byte_sum_ext m _ n (a + 1)); [lia|].
    intros i Hi. apply Hout. lia.
  - rewrite Hout by lia.
    replace (a + k) with (a + 1 + (k - 1)) by lia.
    rewrite IH by lia. lia.
Qed.

(** X3: the check of lines 257-261 is the sum of the twenty bytes of the
    descriptor modulo 256; nothing behind them is looked at (the length,
    the XSDT address and the extended checksum of a version 2 descriptor
    among it). *)
Theorem rsdp_checksum_twenty_bytes (m m' : phys_mem) (rsdp : Z) :
  rsdp_checksum m rsdp
  = u8 (fold_right Z.add 0
          (map (fun i => load8 m (rsdp + Z.of_nat i)) (seq 0 20))) /\
  ((forall i, 0 <= i < 20 -> load8 m' (rsdp + i) = load8 m (rsdp + i)) ->
   rsdp_checksum m' rsdp = rsdp_checksum m rsdp).
Proof.
  split.
  - rewrite rsdp_checksum_sum, byte_sum_seq. reflexivity.
  - intros H. rewrite !rsdp_checksum_sum. f_equal.
    apply byte_sum_ext. exact H.
Qed.

Lemma rsdp_checksum_twenty_bytes_witness :
  rsdp_checksum (Demo.firmware Demo.good_rsdp Demo.two_cores [1; 2]) 0xE0000
  = rsdp_checksum (Demo.firmware Demo.good_rsdp [] []) 0xE0000.
Proof.
  apply (rsdp_checksum_twenty_bytes
           (Demo.firmware Demo.good_rsdp [] [])
           (Demo.firmware Demo.good_rsdp Demo.two_cores [1; 2]) 0xE0000).
  intros i Hi.
  assert (Hcases : i = 0 \/ i = 1 \/ i = 2 \/ i = 3 \/ i = 4 \/ i = 5 \/ i = 6
                   \/ i = 7 \/ i = 8 \/ i = 9 \/ i = 10 \/ i = 11 \/ i = 12
                   \/ i = 13 \/ i = 14 \/ i = 15 \/ i = 16 \/ i = 17 \/ i = 18
                   \/ i = 19) by lia.
  repeat (destruct Hcases as [->|Hcases]; [vm_compute; reflexivity|]).
  subst i. vm_compute. reflexivity.
Defined.

(** X4: whatever the twenty bytes are, taking the check away from any one
    of them (modulo 256) gives a descriptor that passes: the check of the
    patched descriptor is 0. *)
Theorem rsdp_checksum_patch (m : phys_mem) (rsdp k : Z) :
  0 <= k < 20 ->
  rsdp_checksum
    (memcpy_from m (rsdp + k) [load8 m (rsdp + k) - rsdp_checksum m rsdp])
    rsdp = 0.
Proof.
  intros Hk. rewrite (rsdp_checksum_sum (memcpy_from _ _ _)).
  rewrite byte_sum_patch by (simpl; lia).
  rewrite rsdp_checksum_sum.
  unfold u8, wrap. change (2 ^ 8) with 256.
  set (S := byte_sum m rsdp 20). set (b := load8 m (rsdp + k)).
  rewrite Zplus_mod_idemp_r.
  replace (S - b + (b - S mod 256)) with (S - S mod 256) by lia.
  rewrite Zminus_mod_idemp_r. rewrite Z.sub_diag. reflexivity.
Qed.

Lemma rsdp_checksum_patch_witness :
  rsdp_checksum (Demo.firmware Demo.bad_rsdp [] []) 0xE0000 = 0x42 /\
  rsdp_checksum
    (memcpy_from (Demo.firmware Demo.bad_rsdp [] []) (0xE0000 + 8)
       [load8 (Demo.firmware Demo.bad_rsdp [] []) (0xE0000 + 8)
        - rsdp_checksum (Demo.firmware Demo.bad_rsdp [] []) 0xE0000])
    0xE0000 = 0.
Proof.
  split; [vm_compute; reflexivity|].
  apply (rsdp_checksum_patch (Demo.firmware Demo.bad_rsdp [] []) 0xE0000 8).
  lia.
Defined.

End Checksum.

Section RsdtHeader.

Lemma load32_range (m : phys_mem) (a : Z) : 0 <= load32 m a < 2 ^ 32.
Proof.
  unfold load32.
  pose proof (load8_range m a). pose proof (load8_range m (a + 1)).
  pose proof (load8_range m (a + 2)). pose proof (load8_range m (a + 3)).
  change (2 ^ 8) with 256. change (2 ^ 16) with 65536.
  change (2 ^ 24) with 16777216. change (2 ^ 32) with 4294967296. lia.
Qed.

(** X5: the bound of the loop of line 275 is computed in 32 bits without
    sign: for a header length of 36 or more it is the number of whole
    4-byte pointers behind the header (a rest of 1 to 3 bytes is dropped),
    and for a header length below 36 the subtraction wraps and the loop is
    set for more than a thousand million rounds, not for none. *)
Theorem rsdt_entries_bound (m : phys_mem) (rsdt : Z) :
  (36 <= load32 m (rsdt + Acpi.header_length) ->
   Z.of_nat (rsdt_entries m rsdt)
   = (load32 m (rsdt + Acpi.header_length) - 36) / 4) /\
  (load32 m (rsdt + Acpi.header_length) < 36 ->
   Z.of_nat (rsdt_entries m rsdt)
   = (load32 m (rsdt + Acpi.header_length) + (2 ^ 32 - 36)) / 4 /\
   0x3FFFFFF7 <= Z.of_nat (rsdt_entries m rsdt)).
Proof.
  unfold rsdt_entries. change Acpi.header_length with 4.
  pose proof (load32_range m (rsdt + 4)) as Hr.
  set (len := load32 m (rsdt + 4)) in *.
  change (2 ^ 32) with 4294967296 in *.
  split; intros Hlen.
  - rewrite u32_small by (change (2 ^ 32) with 4294967296; lia).
    rewrite Z2Nat.id; [reflexivity|]. apply Z.div_pos; lia.
  - assert (Hu : u32 (len - 36) = len + (4294967296 - 36)).
    { unfold u32, wrap. change (2 ^ 32) with 4294967296.
      symmetry. apply (Z.mod_unique _ _ (-1)); lia. }
    rewrite Hu. rewrite Z2Nat.id by (apply Z.div_pos; lia).
    split; [reflexivity|].
    apply Z.div_le_lower_bound; lia.
Qed.

Lemma rsdt_entries_bound_witness :
  0x3FFFFFF7
  <= Z.of_nat (rsdt_entries (Demo.mem_of [(0xE1000, Demo.sdt_header "RSDT" 20)])
                            0xE1000).
Proof.
  apply (rsdt_entries_bound (Demo.mem_of [(0xE1000, Demo.sdt_header "RSDT" 20)])
                            0xE1000).
  vm_compute. reflexivity.
Defined.

End RsdtHeader.

Section TimeStampCounter.

Lemma read_tsc_sum (lo hi : Z) :
  read_tsc lo hi = 2 ^ 32 * u32 hi + u32 lo.
Proof.
  unfold read_tsc.
  pose proof (u32_range hi) as Hhi. pose proof (u32_range lo) as Hlo.
  rewrite Z.shiftl_mul_pow2 by lia.
  rewrite u64_small by (change (2 ^ 64) with (2 ^ 32 * 2 ^ 32); nia).
  rewrite <- Z.shiftl_mul_pow2 by lia.
  assert (Hland : Z.land (Z.shiftl (u32 hi) 32) (u32 lo) = 0).
  { apply Z.bits_inj'. intros i Hi. rewrite Z.land_spec, Z.bits_0.
    destruct (Z_lt_le_dec i 32).
    - rewrite Z.shiftl_spec_low by lia. reflexivity.
    - unfold u32 at 2, wrap. rewrite Z.mod_pow2_bits_high by lia.
      apply andb_false_r. }
  rewrite <- Z.lxor_lor by exact Hland.
  rewrite <- Z.add_nocarry_lxor by exact Hland.
  rewrite Z.shiftl_mul_pow2 by lia. lia.
Qed.

Lemma read_tsc_rdtsc (t : Z) :
  0 <= t < 2 ^ 64 ->
  read_tsc (fst (rdtsc t)) (snd (rdtsc t)) = t.
Proof.
  intros Ht. rewrite read_tsc_sum. unfold rdtsc. cbn [fst snd].
  change 0xffffffff with (Z.ones 32). rewrite Z.land_ones by lia.
  rewrite Z.shiftr_div_pow2 by lia.
  assert (Hhi : 0 <= t / 2 ^ 32 < 2 ^ 32).
  { split; [apply Z.div_pos; lia|]. apply Z.div_lt_upper_bound; lia. }
  rewrite (u32_small (t / 2 ^ 32)) by exact Hhi.
  rewrite (u32_small (t mod 2 ^ 32)) by (apply Z.mod_pos_bound; lia).
  pose proof (Z.div_mod t (2 ^ 32)). lia.
Qed.

(** X6: [read_tsc] puts the counter together from its halves without
    loss: the result is [hi * 2^32 + lo] for the 32-bit values the two
    registers hold, so that reading a 64-bit counter gives its value. *)
Theorem read_tsc_whole (lo hi t : Z) :
  read_tsc lo hi = 2 ^ 32 * u32 hi + u32 lo /\
  (0 <= t < 2 ^ 64 -> read_tsc (fst (rdtsc t)) (snd (rdtsc t)) = t).
Proof. split; [apply read_tsc_sum | apply read_tsc_rdtsc]. Qed.

Lemma read_tsc_whole_witness :
  read_tsc (fst (rdtsc 0x123456789ABCDEF0)) (snd (rdtsc 0x123456789ABCDEF0))
  = 0x123456789ABCDEF0.
Proof.
  apply (read_tsc_whole 0 0 0x123456789ABCDEF0). lia.
Defined.

Lemma tsc_spin_step (deadline t : Z) (rest : list Z) :
  0 <= t < 2 ^ 64 ->
  tsc_spin deadline (t :: rest)
  = if t <? deadline then tsc_spin deadline rest else Some rest.
Proof.
  intros Ht. cbn [tsc_spin].
  pose proof (read_tsc_rdtsc t Ht) as H.
  destruct (rdtsc t) as [lo hi]. cbn [fst snd] in H. rewrite H. reflexivity.
Qed.

Lemma tsc_spin_ends (deadline : Z) (readings : list Z) :
  Forall (fun t => 0 <= t < 2 ^ 64) readings ->
  forall rest,
    tsc_spin deadline readings = Some rest <->
    exists early last,
      readings = early ++ last :: rest /\
      Forall (fun t => t < deadline) early /\ deadline <= last.
Proof.
  induction 1 as [|t readings Ht Hrs IH]; intros rest.
  - cbn [tsc_spin]. split; [discriminate|].
    intros (early & last & H & _). destruct early; discriminate H.
  - rewrite tsc_spin_step by exact Ht.
    destruct (Z.ltb_spec t deadline) as [Hlt|Hge].
    + rewrite IH. split.
      * intros (early & last & -> & Hearly & Hlast).
        exists (t :: early), last. split; [reflexivity|].
        split; [constructor; assumption | exact Hlast].
      * intros (early & last & Heq & Hearly & Hlast).
        destruct early as [|t0 early]; cbn [app] in Heq.
        -- injection Heq as -> _. lia.
        -- injection Heq as -> ->. inversion Hearly; subst.
           exists early, last. split; [reflexivity|]. split; assumption.
    + split.
      * intros H. injection H as <-. exists [], t.
        split; [reflexivity|]. split; [constructor | exact Hge].
      * intros (early & last & Heq & Hearly & Hlast).
        destruct early as [|t0 early]; cbn [app] in Heq.
        -- injection Heq as _ ->. reflexivity.
        -- injection Heq as -> _. inversion Hearly; subst. lia.
Qed.

Lemma short_delay_spin_deadline (mhz amount clock : Z) (readings : list Z) :
  0 <= clock < 2 ^ 64 ->
  short_delay_spin mhz amount (clock :: readings)
  = tsc_spin (u64 (clock + u64 (u64 amount * u64 mhz))) readings.
Proof.
  intros Hc. cbn [short_delay_spin].
  pose proof (read_tsc_rdtsc clock Hc) as H.
  destruct (rdtsc clock) as [lo hi]. cbn [fst snd] in H. rewrite H. reflexivity.
Qed.

(** X7: how long [short_delay] lasts.  With the first reading of the
    counter at [clock] and the deadline [clock + amount * arch_cpu_mhz()]
    not beyond 64 bits, the routine returns exactly at the first later
    reading that is not below the deadline: every reading before it was
    below, and none behind it is taken.  So at least [amount *
    arch_cpu_mhz()] counts lie between its first reading and its last. *)
Theorem short_delay_spin_elapsed
    (mhz amount clock : Z) (readings rest : list Z) :
  Forall (fun t => 0 <= t < 2 ^ 64) (clock :: readings) ->
  0 <= amount -> 0 <= mhz -> clock + amount * mhz < 2 ^ 64 ->
  (short_delay_spin mhz amount (clock :: readings) = Some rest <->
   exists early last,
     readings = early ++ last :: rest /\
     Forall (fun t => t < clock + amount * mhz) early /\
     amount * mhz <= last - clock).
Proof.
  intros Hall Ha Hm Hno. inversion Hall as [|? ? Hc Hrs]; subst.
  rewrite short_delay_spin_deadline by exact Hc.
  assert (Hd : u64 (clock + u64 (u64 amount * u64 mhz)) = clock + amount * mhz).
  { assert (0 <= amount * mhz) by nia.
    destruct (Z.eq_dec mhz 0) as [->|Hm0].
    - rewrite Z.mul_0_r. change (u64 0) with 0. rewrite !Z.mul_0_r.
      change (u64 0) with 0. rewrite Z.add_0_r. apply u64_small. lia.
    - destruct (Z.eq_dec amount 0) as [->|Ha0].
      + rewrite Z.mul_0_l. change (u64 0) with 0. rewrite Z.mul_0_l.
        change (u64 0) with 0. rewrite Z.add_0_r. apply u64_small. lia.
      + rewrite (u64_small amount) by nia. rewrite (u64_small mhz) by nia.
        rewrite (u64_small (amount * mhz)) by lia. apply u64_small. lia. }
  rewrite Hd. rewrite (tsc_spin_ends _ _ Hrs rest).
  split; intros (early & last & H1 & H2 & H3); exists early, last;
    (split; [exact H1|]); (split; [exact H2|]); lia.
Qed.

Lemma short_delay_spin_elapsed_witness :
  short_delay_spin 3000 5000 [1000; 2000; 15001000; 15002000]
  = Some [15002000].
Proof.
  apply (proj2 (short_delay_spin_elapsed 3000 5000 1000
                  [2000; 15001000; 15002000] [15002000]
                  ltac:(repeat constructor; lia) ltac:(lia) ltac:(lia)
                  ltac:(lia))).
  exists [2000], 15001000. split; [reflexivity|].
  split; [repeat constructor; lia | lia].
Defined.

(** X8: when [short_delay] does not wait.  If [arch_cpu_mhz()] is 0, or
    if the deadline [clock + amount * arch_cpu_mhz()] does not fit 64 bits
    and wraps, the first reading behind [clock] that has not itself wrapped
    already ends the loop, whatever [amount] asks for. *)
Theorem short_delay_spin_cut_short
    (mhz amount clock t1 : Z) (rest : list Z) :
  0 <= clock -> clock <= t1 -> t1 < 2 ^ 64 ->
  0 <= amount < 2 ^ 64 -> 0 <= mhz < 2 ^ 64 ->
  mhz = 0 \/ (amount * mhz < 2 ^ 64 /\ 2 ^ 64 <= clock + amount * mhz) ->
  short_delay_spin mhz amount (clock :: t1 :: rest) = Some rest.
Proof.
  intros Hc Hct Ht Ha Hm Hcase.
  rewrite short_delay_spin_deadline by lia.
  rewrite tsc_spin_step by lia.
  rewrite (u64_small amount) by lia. rewrite (u64_small mhz) by lia.
  assert (Hd : u64 (clock + u64 (amount * mhz)) <= clock).
  { destruct Hcase as [->|[Hp Hw]].
    - rewrite Z.mul_0_r. change (u64 0) with 0. rewrite Z.add_0_r.
      rewrite u64_small by lia. lia.
    - rewrite (u64_small (amount * mhz)) by nia.
      assert (Hu : u64 (clock + amount * mhz) = clock + amount * mhz - 2 ^ 64).
      { unfold u64, wrap. symmetry. apply (Z.mod_unique _ _ 1); lia. }
      rewrite Hu. lia. }
  destruct (Z.ltb_spec t1 (u64 (clock + u64 (amount * mhz)))) as [H|_];
    [lia | reflexivity].
Qed.

Lemma short_delay_spin_cut_short_witness :
  short_delay_spin 0 5000 [1000; 1001; 7] = Some [7].
Proof.
  apply (short_delay_spin_cut_short 0 5000 1000 1001 [7]); try lia.
Defined.

End TimeStampCounter.

(** ** What load_processor_info leaves *)

Section ProcessorInfoContents.

Lemma lookup_alter_cpu_id (f : processor_local -> processor_local)
    (j i : nat) (l : list processor_local) (x : processor_local) :
  (forall y, cpu_id (f y) = cpu_id y) ->
  alter f j l !! i = Some x ->
  exists y, l !! i = Some y /\ cpu_id x = cpu_id y.
Proof.
  intros Hf H. rewrite list_lookup_alter in H.
  destruct (decide (j = i)) as [->|_].
  - destruct (l !! i) as [y|]; [|discriminate].
    injection H as <-. exists y. split; [reflexivity | apply Hf].
  - exists x. split; [exact H | reflexivity].
Qed.

(** The state [load_processor_info] leaves: the vendor fields of the
    descriptor of [core] and the model name of the descriptor its [cpu_id]
    indexes. *)
Lemma load_processor_info_inv (p : platform) (core : Z) (s s' : kstate) (u : unit) :
  load_processor_info p core s = Some (u, s') ->
  exists d,
    0 <= core /\ processor_local_data s !! Z.to_nat core = Some d /\
    0 <= cpu_id d /\
    s' = set_processor_local_data
           (alter
              (fun x =>
                 with_cpu_model_name
                   (if 0x80000004 <=? u32 (eax (cpuid p core 0x80000000))
                    then overwrite (brand_of p core)
                           (overwrite (c_string "(unknown)") (cpu_model_name x))
                    else overwrite (c_string "(unknown)") (cpu_model_name x)) x)
              (Z.to_nat (cpu_id d))
              (alter
                 (fun x =>
                    with_cpu_info x
                      (if u32 (ebx (cpuid p core 0)) =? 0x756e6547 then "Intel"
                       else if u32 (ebx (cpuid p core 0)) =? 0x68747541 then "AMD"
                       else "Unknown")
                      (if known_vendor (ebx (cpuid p core 0))
                       then Some (Z.land (Z.shiftr (u32 (eax (cpuid p core 1))) 4) 0x0F)
                       else None)
                      (if known_vendor (ebx (cpuid p core 0))
                       then Some (Z.land (Z.shiftr (u32 (eax (cpuid p core 1))) 8) 0x0F)
                       else None)
                      (cpu_model_name x))
                 (Z.to_nat core) (processor_local_data s)))
           s.
Proof.
  intros H. unfold load_processor_info in H. unfold known_vendor.
  destruct (cpuid p core 0) as [[[a0 b0] c0] d0].
  destruct (cpuid p core 1) as [[[a1 b1] c1] d1].
  destruct (cpuid p core 0x80000000) as [[[a2 b2] c2] d2].
  cbn [eax ebx].
  assert (Hset : forall a b x,
            set_processor_local_data a (set_processor_local_data b x)
            = set_processor_local_data a x) by reflexivity.
  unfold bind at 1 in H.
  destruct (update_core core _ s) as [[[] s1]|] eqn:H1; [|discriminate].
  apply update_core_inv in H1. destruct H1 as [[Hcore [d Hd]] ->].
  exists d. split; [exact Hcore|]. split; [exact Hd|].
  destruct (u32 b0 =? 0x756e6547) eqn:Ei;
    [|destruct (u32 b0 =? 0x68747541) eqn:Ea];
    destruct (0x80000004 <=? u32 a2) eqn:Ex; cbn [orb when] in *.
  all: monad_unfold in H.
  all: repeat
    (match type of H with
     | context [update_core ?i ?f ?x] =>
       let E := fresh "E" in
       destruct (update_core i f x) as [[[] ?]|] eqn:E; [|discriminate];
       apply update_core_inv in E; destruct E as [[? _] ->];
       cbn [processor_local_data set_processor_local_data] in H
     | context [core_at ?i ?x] =>
       let E := fresh "E" in
       let Hid := fresh "Hid" in
       destruct (core_at i x) as [[? ?]|] eqn:E; [|discriminate];
       apply core_at_inv in E; destruct E as (-> & _ & E);
       cbn [processor_local_data set_processor_local_data] in E;
       repeat (apply lookup_alter_cpu_id in E;
               [ destruct E as (? & E & Hid); rewrite Hid in H; clear Hid
               | intros ?; reflexivity ]);
       rewrite Hd in E; injection E as <-
     end).
  all: destruct u; injection H as <-.
  all: split; [assumption|].
  all: rewrite !Hset; f_equal.
  all: rewrite !list_alter_alter_eq.
  all: apply list_alter_ext; [intros y _; reflexivity|].
  all: apply list_alter_ext; [intros y _; destruct y; reflexivity | reflexivity].
Qed.

Lemma length_brand_of (p : platform) (core : Z) :
  length (brand_of p core) = 48%nat.
Proof.
  unfold brand_of.
  destruct (cpuid p core 0x80000002) as [[[? ?] ?] ?].
  destruct (cpuid p core 0x80000003) as [[[? ?] ?] ?].
  destruct (cpuid p core 0x80000004) as [[[? ?] ?] ?].
  reflexivity.
Qed.

Lemma land_0x0F_range (x : Z) : 0 <= Z.land x 0x0F < 16.
Proof.
  change 0x0F with (Z.ones 4). rewrite Z.land_ones by lia.
  apply Z.mod_pos_bound. lia.
Qed.

(** X9: what [load_processor_info] leaves in the descriptor of the core it
    runs on.  The manufacturer is "Intel" when ebx of CPUID leaf 0 is
    0x756e6547, "AMD" when it is 0x68747541 and "Unknown" otherwise.  For
    the two known vendors the model is bits 4-7 and the family bits 8-11 of
    eax of leaf 1, both below 16 (the extended model and family of bits
    16-27 are not taken in); for any other vendor model and family stay as
    they were.  The ids and the page map and task pointers are left
    alone. *)
Theorem load_processor_info_vendor
    (p : platform) (core : Z) (s s' : kstate) (d : processor_local) :
  exec (load_processor_info p core) s = Some s' ->
  processor_local_data s !! Z.to_nat core = Some d ->
  exists d',
    processor_local_data s' !! Z.to_nat core = Some d' /\
    same_ids d d' /\ same_tasks d d' /\
    cpu_manufacturer d'
    = (if u32 (ebx (cpuid p core 0)) =? 0x756e6547 then "Intel"
       else if u32 (ebx (cpuid p core 0)) =? 0x68747541 then "AMD"
       else "Unknown") /\
    (known_vendor (ebx (cpuid p core 0)) = true ->
     cpu_model d' = Z.land (Z.shiftr (u32 (eax (cpuid p core 1))) 4) 0x0F /\
     cpu_family d' = Z.land (Z.shiftr (u32 (eax (cpuid p core 1))) 8) 0x0F /\
     0 <= cpu_model d' < 16 /\ 0 <= cpu_family d' < 16) /\
    (known_vendor (ebx (cpuid p core 0)) = false ->
     cpu_model d' = cpu_model d /\ cpu_family d' = cpu_family d).
Proof.
  intros Hrun Hd. unfold exec in Hrun.
  destruct (load_processor_info p core s) as [[u s1]|] eqn:E; [|discriminate].
  injection Hrun as <-.
  apply load_processor_info_inv in E.
  destruct E as (d0 & Hcore & Hd0 & Hk & ->).
  rewrite Hd in Hd0. injection Hd0 as <-.
  cbn [processor_local_data set_processor_local_data].
  rewrite list_lookup_alter.
  destruct (decide (Z.to_nat (cpu_id d) = Z.to_nat core)) as [e|n].
  - rewrite e, list_lookup_alter_eq, Hd. eexists. split; [reflexivity|].
    unfold known_vendor.
    destruct (u32 (ebx (cpuid p core 0)) =? 0x756e6547);
      [|destruct (u32 (ebx (cpuid p core 0)) =? 0x68747541)]; cbn [orb].
    all: (split; [split; reflexivity|]); (split; [repeat split; reflexivity|]).
    all: (split; [reflexivity|]).
    all: split; intros Hv; try discriminate Hv; cbn; repeat split;
      try reflexivity; apply land_0x0F_range.
  - rewrite list_lookup_alter_eq, Hd. eexists. split; [reflexivity|].
    unfold known_vendor.
    destruct (u32 (ebx (cpuid p core 0)) =? 0x756e6547);
      [|destruct (u32 (ebx (cpuid p core 0)) =? 0x68747541)]; cbn [orb].
    all: (split; [split; reflexivity|]); (split; [repeat split; reflexivity|]).
    all: (split; [reflexivity|]).
    all: split; intros Hv; try discriminate Hv; cbn; repeat split;
      try reflexivity; apply land_0x0F_range.
Qed.

Lemma load_processor_info_vendor_witness :
  exists s' d',
    exec (load_processor_info Demo.intel 0) (Demo.at_boot (fun _ => 0) [])
    = Some s' /\
    processor_local_data s' !! 0%nat = Some d' /\
    cpu_manufacturer d' = "Intel" /\ cpu_model d' = 14 /\ cpu_family d' = 6.
Proof.
  assert (Hsome :
    (fun _ => tt) <$>
      exec (load_processor_info Demo.intel 0) (Demo.at_boot (fun _ => 0) [])
    = Some tt) by (vm_compute; reflexivity).
  destruct (exec (load_processor_info Demo.intel 0)
              (Demo.at_boot (fun _ => 0) [])) as [s'|] eqn:Hrun;
    [|discriminate Hsome].
  destruct (load_processor_info_vendor Demo.intel 0
              (Demo.at_boot (fun _ => 0) []) s' Demo.blank Hrun eq_refl)
    as (d' & Hd' & _ & _ & Hman & Hknown & _).
  destruct (Hknown eq_refl) as (Hmodel & Hfamily & _).
  exists s', d'. split; [reflexivity|]. split; [exact Hd'|].
  split; [exact Hman|]. split; [exact Hmodel | exact Hfamily].
Defined.

Lemma overwrite_parts (src dst : list Z) :
  take (length src) (overwrite src dst) = src /\
  drop (length src) (overwrite src dst) = drop (length src) dst.
Proof.
  unfold overwrite. split; [apply take_app_length | apply drop_app_length].
Qed.

Lemma overwrite_twice (src1 src2 dst : list Z) :
  (length src1 <= length src2)%nat ->
  overwrite src2 (overwrite src1 dst) = overwrite src2 dst.
Proof.
  intros Hle. unfold overwrite. f_equal.
  rewrite drop_app_ge by exact Hle. rewrite drop_drop. f_equal. lia.
Qed.

(** X10: where [load_processor_info] puts the model name.  It goes into
    the descriptor that the [cpu_id] field of the running core's descriptor
    indexes (line 160 and line 169), which need not be the running core's
    own.  When CPUID reports the extended leaf 0x80000004, the first 48
    bytes of the name are the twelve brand registers, each least
    significant byte first, and nothing is left of the "(unknown)" written
    before; otherwise the first ten bytes are "(unknown)" with its NUL and
    the bytes behind them stay.  The name of every other descriptor is left
    alone. *)
Theorem load_processor_info_model_name
    (p : platform) (core : Z) (s s' : kstate) (d dk : processor_local) :
  exec (load_processor_info p core) s = Some s' ->
  processor_local_data s !! Z.to_nat core = Some d ->
  processor_local_data s !! Z.to_nat (cpu_id d) = Some dk ->
  (exists dk',
     processor_local_data s' !! Z.to_nat (cpu_id d) = Some dk' /\
     if 0x80000004 <=? u32 (eax (cpuid p core 0x80000000))
     then take 48 (cpu_model_name dk') = brand_of p core /\
          drop 48 (cpu_model_name dk') = drop 48 (cpu_model_name dk)
     else take 10 (cpu_model_name dk') = c_string "(unknown)" /\
          drop 10 (cpu_model_name dk') = drop 10 (cpu_model_name dk)) /\
  (forall (j : nat) (dj : processor_local),
     j <> Z.to_nat (cpu_id d) ->
     processor_local_data s !! j = Some dj ->
     exists dj',
       processor_local_data s' !! j = Some dj' /\
       cpu_model_name dj' = cpu_model_name dj).
Proof.
  intros Hrun Hd Hdk. unfold exec in Hrun.
  destruct (load_processor_info p core s) as [[u s1]|] eqn:E; [|discriminate].
  injection Hrun as <-.
  apply load_processor_info_inv in E.
  destruct E as (d0 & Hcore & Hd0 & Hk & ->).
  rewrite Hd in Hd0. injection Hd0 as <-.
  cbn [processor_local_data set_processor_local_data].
  split.
  - rewrite list_lookup_alter_eq.
    assert (Hmid : exists x,
              alter
                (fun x =>
                   with_cpu_info x
                     (if u32 (ebx (cpuid p core 0)) =? 0x756e6547 then "Intel"
                      else if u32 (ebx (cpuid p core 0)) =? 0x68747541
                           then "AMD" else "Unknown")
                     (if known_vendor (ebx (cpuid p core 0))
                      then Some (Z.land (Z.shiftr (u32 (eax (cpuid p core 1))) 4) 0x0F)
                      else None)
                     (if known_vendor (ebx (cpuid p core 0))
                      then Some (Z.land (Z.shiftr (u32 (eax (cpuid p core 1))) 8) 0x0F)
                      else None)
                     (cpu_model_name x))
                (Z.to_nat core) (processor_local_data s)
              !! Z.to_nat (cpu_id d) = Some x /\
              cpu_model_name x = cpu_model_name dk).
    { rewrite list_lookup_alter.
      destruct (decide (Z.to_nat core = Z.to_nat (cpu_id d))) as [e|n].
      - rewrite e, Hdk. eexists. split; reflexivity.
      - exists dk. split; [exact Hdk | reflexivity]. }
    destruct Hmid as (x & -> & Hx). eexists. split; [reflexivity|].
    cbn [cpu_model_name with_cpu_model_name with_cpu_info]. rewrite Hx.
    destruct (0x80000004 <=? u32 (eax (cpuid p core 0x80000000))).
    + rewrite overwrite_twice by (rewrite length_brand_of; simpl; lia).
      rewrite <- (length_brand_of p core). apply overwrite_parts.
    + apply (overwrite_parts (c_string "(unknown)")).
  - intros j dj Hj Hdj. rewrite list_lookup_alter_ne by (intros e; apply Hj; symmetry; exact e).
    rewrite list_lookup_alter.
    destruct (decide (Z.to_nat core = j)) as [e|n].
    + rewrite e, Hdj. eexists. split; reflexivity.
    + exists dj. split; [exact Hdj | reflexivity].
Qed.

Lemma load_processor_info_model_name_witness :
  exists s' d',
    exec (load_processor_info Demo.intel 0) (Demo.at_boot (fun _ => 0) [])
    = Some s' /\
    processor_local_data s' !! 0%nat = Some d' /\
    take 48 (cpu_model_name d') = repeat 0x41 48.
Proof.
  assert (Hsome :
    (fun _ => tt) <$>
      exec (load_processor_info Demo.intel 0) (Demo.at_boot (fun _ => 0) [])
    = Some tt) by (vm_compute; reflexivity).
  destruct (exec (load_processor_info Demo.intel 0)
              (Demo.at_boot (fun _ => 0) [])) as [s'|] eqn:Hrun;
    [|discriminate Hsome].
  destruct (load_processor_info_model_name Demo.intel 0
              (Demo.at_boot (fun _ => 0) []) s' Demo.blank Demo.blank
              Hrun eq_refl eq_refl)
    as ((d' & Hd' & Hname) & _).
  exists s', d'. split; [reflexivity|]. split; [exact Hd'|].
  exact (proj1 Hname).
Defined.

End ProcessorInfoContents.

(** ** What ap_main leaves *)

(** Brings states built by the setters to one record. *)
Ltac state_norm :=
  cbn [processor_local_data processor_count lapic_final _ap_stack_base
       _ap_startup_flag _ap_current phys lapic_answers trace
       set_processor_local_data set_processor_count set_lapic_final
       set_ap_stack_base set_ap_startup_flag set_ap_current set_phys
       set_lapic_answers set_trace].

Tactic Notation "state_norm" "in" hyp(H) :=
  cbn [processor_local_data processor_count lapic_final _ap_stack_base
       _ap_startup_flag _ap_current phys lapic_answers trace
       set_processor_local_data set_processor_count set_lapic_final
       set_ap_stack_base set_ap_startup_flag set_ap_current set_phys
       set_lapic_answers set_trace] in H.

Lemma kstate_eq (s1 s2 : kstate) :
  processor_local_data s1 = processor_local_data s2 ->
  processor_count s1 = processor_count s2 ->
  lapic_final s1 = lapic_final s2 ->
  _ap_stack_base s1 = _ap_stack_base s2 ->
  _ap_startup_flag s1 = _ap_startup_flag s2 ->
  _ap_current s1 = _ap_current s2 ->
  phys s1 = phys s2 ->
  lapic_answers s1 = lapic_answers s2 ->
  trace s1 = trace s2 ->
  s1 = s2.
Proof.
  destruct s1, s2. cbn. intros. subst. reflexivity.
Qed.

Section ApMainRun.

(** The run of [ap_main], step by step. *)
Lemma ap_main_inv (p : platform) (s s' : kstate) (u : unit) :
  ap_main p s = Some (u, s') ->
  exists me s7,
    0 <= _ap_current s /\
    processor_local_data s !! Z.to_nat (_ap_current s) = Some me /\
    load_processor_info p (_ap_current s)
      (set_processor_local_data
         (alter
            (fun x =>
               with_tasks x (Some (init_page_region p))
                 (Some (kidle_given p (_ap_current s) 0))
                 (Some (kidle_given p (_ap_current s) 0)))
            (Z.to_nat (_ap_current s)) (processor_local_data s))
         (set_trace
            (trace s
             ++ ap_entry_events p (lapic_final s) (_ap_current s) me) s))
    = Some (tt, s7) /\
    s' = set_trace (trace s7 ++ [SwitchNext]) (set_ap_startup_flag 1 s7).
Proof.
  intros E. unfold ap_main, spawn_kidle in E. monad_unfold in E.
  unfold ap_entry_events, ebx.
  destruct (cpuid p (_ap_current s) 1) as [[[a b] c] d].
  monad_unfold in E. state_norm in E.
  destruct (core_at _ _) as [[me s2]|] eqn:H1 in E; [|discriminate].
  apply core_at_inv in H1. destruct H1 as (-> & Hi & Hme).
  state_norm in Hme.
  exists me.
  destruct (lapic_id me =? s32 (u32 b ≫ 24)); cbn [negb] in E;
    state_norm in E.
  all: destruct (update_core _ _ _) as [[[] s3]|] eqn:H2 in E; [|discriminate].
  all: apply update_core_inv in H2; destruct H2 as [_ ->]; state_norm in E.
  all: destruct (update_core _ _ _) as [[[] s4]|] eqn:H3 in E; [|discriminate].
  all: apply update_core_inv in H3; destruct H3 as [_ ->]; state_norm in E.
  all: destruct (core_at _ _) as [[me' s5]|] eqn:H4 in E; [|discriminate].
  all: apply core_at_inv in H4; destruct H4 as (-> & _ & Hme');
    state_norm in Hme'.
  all: destruct (update_core _ _ _) as [[[] s6]|] eqn:H5 in E; [|discriminate].
  all: apply update_core_inv in H5; destruct H5 as [_ ->]; state_norm in E.
  all: destruct (load_processor_info _ _ _) as [[[] s7]|] eqn:H6 in E;
    [|discriminate].
  all: destruct u; injection E as <-.
  all: exists s7; split; [exact Hi|]; split; [exact Hme|]; split; [|reflexivity].
  all: rewrite <- H6; f_equal.
  all: rewrite !list_lookup_alter_eq, Hme in Hme'.
  all: cbn in Hme'; injection Hme' as <-.
  all: apply kstate_eq; state_norm; try reflexivity.
  all: first
    [ rewrite !list_alter_alter_eq; apply list_alter_ext;
      [intros y _; destruct y; reflexivity | reflexivity]
    | rewrite <- !app_assoc; reflexivity ].
Qed.

Lemma only_cores_fields (s s' : kstate) :
  only_cores s s' ->
  processor_count s' = processor_count s /\
  lapic_final s' = lapic_final s /\
  _ap_stack_base s' = _ap_stack_base s /\
  _ap_startup_flag s' = _ap_startup_flag s /\
  _ap_current s' = _ap_current s /\
  phys s' = phys s /\
  lapic_answers s' = lapic_answers s /\
  trace s' = trace s.
Proof. intros H. rewrite H. repeat split. Qed.

(** The descriptor of an AP once [ap_main] has run on it. *)
Lemma ap_main_effect (p : platform) (s s' : kstate) (u : unit)
    (me : processor_local) :
  ap_main p s = Some (u, s') ->
  processor_local_data s !! Z.to_nat (_ap_current s) = Some me ->
  trace s'
  = trace s ++ ap_entry_events p (lapic_final s) (_ap_current s) me
    ++ [SwitchNext] /\
  _ap_startup_flag s' = 1 /\
  processor_count s' = processor_count s /\
  lapic_final s' = lapic_final s /\
  _ap_current s' = _ap_current s /\
  _ap_stack_base s' = _ap_stack_base s /\
  phys s' = phys s /\
  lapic_answers s' = lapic_answers s /\
  Forall2 same_ids (processor_local_data s) (processor_local_data s') /\
  (forall (j : nat) (d : processor_local),
     processor_local_data s !! j = Some d ->
     exists d',
       processor_local_data s' !! j = Some d' /\
       if decide (j = Z.to_nat (_ap_current s))
       then current_pml d' = init_page_region p /\
            kernel_idle_task d' = kidle_given p (_ap_current s) 0 /\
            current_process d' = kidle_given p (_ap_current s) 0
       else same_tasks d d').
Proof.
  intros E Hme.
  apply ap_main_inv in E. destruct E as (me0 & s7 & Hi & Hme0 & Hinfo & ->).
  rewrite Hme in Hme0. injection Hme0 as <-.
  pose proof (load_processor_info_cores p _ _ _ _ Hinfo) as [Honly Hcores].
  apply only_cores_fields in Honly.
  destruct Honly as (Hc & Hl & Hsb & Hf & Hcur & Hph & Hans & Htr).
  unfold cores_step in Hcores.
  state_norm. state_norm in Hc. state_norm in Hl. state_norm in Hsb.
  state_norm in Hcur. state_norm in Hph. state_norm in Hans.
  state_norm in Htr. state_norm in Hcores.
  split; [rewrite Htr, <- app_assoc; reflexivity|].
  split; [reflexivity|].
  do 6 (split; [assumption|]).
  split.
  - apply Forall2_same_length_lookup. split.
    + rewrite <- (Forall2_length _ _ _ Hcores), length_alter. reflexivity.
    + intros j x y Hx Hy.
      destruct (Forall2_lookup_r _ _ _ _ _ Hcores Hy) as [x' [Hx' [Hids _]]].
      rewrite list_lookup_alter in Hx'.
      destruct (decide (Z.to_nat (_ap_current s) = j)) as [e|n].
      * rewrite e, Hx in Hx'. cbn in Hx'. injection Hx' as <-.
        destruct Hids as [H1 H2]. split; [rewrite H1 | rewrite H2]; reflexivity.
      * rewrite Hx in Hx'. injection Hx' as <-. exact Hids.
  - intros j d Hd.
    destruct (decide (j = Z.to_nat (_ap_current s))) as [->|n].
    + eapply Forall2_lookup_l in Hcores as [d' [Hd' [_ Htasks]]];
        [| rewrite list_lookup_alter_eq, Hd; reflexivity].
      exists d'. split; [exact Hd'|].
      destruct Htasks as (H1 & H2 & H3). rewrite H1, H2, H3.
      repeat split.
    + eapply Forall2_lookup_l in Hcores as [d' [Hd' [_ Htasks]]];
        [| rewrite list_lookup_alter_ne by (intros e; apply n; symmetry; exact e);
           exact Hd].
      exists d'. split; assumption.
Qed.

(** X11: what a run of [ap_main] does besides the idle task.  It adds to
    the trace, in this order: [arch_set_core_base] for the descriptor of
    [_ap_current]; the line "smp: lapic id does not match" exactly when the
    [lapic_id] of that descriptor differs from bits 24-31 of ebx of CPUID
    leaf 1; [idt_ap_install], [fpu_initialize], [pat_initialize]; the store
    of 0x127 to the spurious vector register at [lapic_final + 0x0F0];
    [spawn_kidle(0)]; and last [switch_next].  The mismatch is only logged:
    in either case [_ap_startup_flag] is 1 afterwards, the descriptor's
    [current_pml] is [init_page_region], and the other globals and physical
    memory are as before. *)
Theorem ap_main_ready (p : platform) (s s' : kstate) (me : processor_local) :
  exec (ap_main p) s = Some s' ->
  processor_local_data s !! Z.to_nat (_ap_current s) = Some me ->
  emitted s s'
  = ap_entry_events p (lapic_final s) (_ap_current s) me ++ [SwitchNext] /\
  (Printf "smp: lapic id does not match" [] ∈ emitted s s' <->
   lapic_id me
   <> s32 (Z.shiftr (u32 (ebx (cpuid p (_ap_current s) 0x1))) 24)) /\
  _ap_startup_flag s' = 1 /\
  (exists d',
     processor_local_data s' !! Z.to_nat (_ap_current s) = Some d' /\
     current_pml d' = init_page_region p) /\
  processor_count s' = processor_count s /\
  lapic_final s' = lapic_final s /\
  _ap_current s' = _ap_current s /\
  _ap_stack_base s' = _ap_stack_base s /\
  phys s' = phys s.
Proof.
  intros Hrun Hme. unfold exec in Hrun.
  destruct (ap_main p s) as [[u s1]|] eqn:E; [|discriminate].
  injection Hrun as <-.
  destruct (ap_main_effect p s s1 u me E Hme)
    as (Htr & Hflag & Hc & Hl & Hcur & Hsb & Hph & _ & _ & Htasks).
  assert (Hev : emitted s s1
                = ap_entry_events p (lapic_final s) (_ap_current s) me
                  ++ [SwitchNext]).
  { apply emitted_app. exact Htr. }
  split; [exact Hev|]. split.
  { rewrite Hev. unfold ap_entry_events.
    destruct (Z.eqb_spec (lapic_id me)
                (s32 (Z.shiftr (u32 (ebx (cpuid p (_ap_current s) 1))) 24)))
      as [Heq|Hne].
    - split; [|intros H; contradiction].
      intros Hin. cbn [app] in Hin.
      repeat (apply elem_of_cons in Hin; destruct Hin as [Hin|Hin];
              [discriminate Hin|]).
      apply not_elem_of_nil in Hin. contradiction.
    - split; [intros _; exact Hne|]. intros _. cbn [app].
      apply elem_of_cons. right. apply elem_of_cons. left. reflexivity. }
  split; [exact Hflag|]. split.
  { destruct (Htasks _ me Hme) as [d' [Hd' Hd]].
    destruct (decide (Z.to_nat (_ap_current s) = Z.to_nat (_ap_current s)))
      as [_|n]; [|contradiction].
    exists d'. split; [exact Hd' | apply Hd]. }
  repeat split; assumption.
Qed.

Lemma ap_main_ready_witness :
  exists s',
    exec (ap_main (Demo.machine ∅)) (Demo.ap_window 2) = Some s' /\
    emitted (Demo.ap_window 2) s'
    = [ArchSetCoreBase 2; IdtApInstall; FpuInitialize; PatInitialize;
       MmioStore 0xffffff1fc00000f0 0x127; SpawnKidle 0; SwitchNext] /\
    _ap_startup_flag s' = 1.
Proof.
  assert (Hsome :
    (fun _ => tt) <$> exec (ap_main (Demo.machine ∅)) (Demo.ap_window 2)
    = Some tt) by (vm_compute; reflexivity).
  destruct (exec (ap_main (Demo.machine ∅)) (Demo.ap_window 2))
    as [s'|] eqn:Hrun; [|discriminate Hsome].
  destruct (ap_main_ready (Demo.machine ∅) (Demo.ap_window 2) s'
              (Demo.core_of 2) Hrun eq_refl)
    as (Hev & _ & Hflag & _).
  exists s'. split; [reflexivity|]. split; [exact Hev | exact Hflag].
Defined.

End ApMainRun.

(** ** The LAPIC gateway and the IPI services at work *)

Section LapicGatewayRuns.

(** A wait that comes back has read busy values and then an idle one. *)
Lemma icr_wait_inv (fuel : nat) :
  forall (s s' : kstate) (u : unit),
    icr_wait fuel s = Some (u, s') ->
    exists busy idle rest,
      lapic_answers s = busy ++ idle :: rest /\
      Forall (fun v => Z.testbit v 12 = true) busy /\
      Z.testbit idle 12 = false /\
      s' = after_io s rest (polls (lapic_final s) (busy ++ [idle])).
Proof.
  induction fuel as [|fuel IH]; intros s s' u H; [discriminate H|].
  cbn [icr_wait] in H. unfold lapic_read in H. monad_unfold in H.
  cbn [lapic_answers lapic_final trace set_trace] in H.
  destruct (lapic_answers s) as [|v rest] eqn:Hans; [discriminate H|].
  monad_unfold in H.
  cbn [lapic_answers lapic_final trace set_trace set_lapic_answers] in H.
  rewrite delivery_status_bit in H.
  destruct (Z.testbit v 12) eqn:Hv.
  - apply IH in H. destruct H as (busy & idle & rest' & Hrest & Hbusy & Hidle & ->).
    cbn [lapic_answers lapic_final trace set_trace set_lapic_answers] in Hrest.
    exists (v :: busy), idle, rest'. split; [rewrite Hrest; reflexivity|].
    split; [constructor; assumption|]. split; [exact Hidle|].
    unfold after_io. apply kstate_eq;
      cbn [processor_local_data processor_count lapic_final _ap_stack_base
           _ap_startup_flag _ap_current phys lapic_answers trace
           set_lapic_answers set_trace]; try reflexivity.
    rewrite <- !app_assoc. reflexivity.
  - destruct u. injection H as <-.
    exists [], v, rest. split; [reflexivity|]. split; [constructor|].
    split; [exact Hv|].
    unfold after_io. apply kstate_eq;
      cbn [processor_local_data processor_count lapic_final _ap_stack_base
           _ap_startup_flag _ap_current phys lapic_answers trace
           set_lapic_answers set_trace]; try reflexivity.
    rewrite <- !app_assoc. reflexivity.
Qed.

Lemma lapic_send_ipi_run
    (s : kstate) (id cmd : Z) (busy : list Z) (idle : Z) (rest : list Z) :
  lapic_answers s = busy ++ idle :: rest ->
  Forall (fun v => Z.testbit v 12 = true) busy ->
  Z.testbit idle 12 = false ->
  lapic_send_ipi id cmd s
  = Some (tt, after_io s rest
                ([MmioStore (u64 (lapic_final s + 0x310)) (u32 (Z.shiftl id 24));
                  MmioStore (u64 (lapic_final s + 0x300)) (u32 cmd)]
                 ++ polls (lapic_final s) (busy ++ [idle]))).
Proof.
  intros Hans Hbusy Hidle.
  unfold lapic_send_ipi, lapic_write. monad_unfold.
  cbn [lapic_answers lapic_final trace set_trace]. rewrite Hans.
  erewrite icr_wait_rounds;
    [| simpl; exact Hans | exact Hbusy | exact Hidle
     | rewrite length_app; simpl; lia ].
  f_equal. f_equal. unfold after_io, set_trace, set_lapic_answers. simpl.
  rewrite <- !app_assoc. reflexivity.
Qed.

Lemma lapic_send_ipi_inv (s s' : kstate) (id cmd : Z) (u : unit) :
  lapic_send_ipi id cmd s = Some (u, s') ->
  exists busy idle rest,
    lapic_answers s = busy ++ idle :: rest /\
    Forall (fun v => Z.testbit v 12 = true) busy /\
    Z.testbit idle 12 = false /\
    s' = after_io s rest
           ([MmioStore (u64 (lapic_final s + 0x310)) (u32 (Z.shiftl id 24));
             MmioStore (u64 (lapic_final s + 0x300)) (u32 cmd)]
            ++ polls (lapic_final s) (busy ++ [idle])).
Proof.
  intros H. unfold lapic_send_ipi, lapic_write in H. monad_unfold in H.
  cbn [lapic_answers lapic_final trace set_trace] in H.
  apply icr_wait_inv in H.
  destruct H as (busy & idle & rest & Hans & Hbusy & Hidle & ->).
  cbn [lapic_answers lapic_final trace set_trace] in Hans.
  exists busy, idle, rest. split; [exact Hans|]. split; [exact Hbusy|].
  split; [exact Hidle|].
  unfold after_io. apply kstate_eq;
    cbn [processor_local_data processor_count lapic_final _ap_stack_base
         _ap_startup_flag _ap_current phys lapic_answers trace
         set_lapic_answers set_trace]; try reflexivity.
  rewrite <- !app_assoc. reflexivity.
Qed.

(** X12: [lapic_send_ipi] comes back only on an idle ICR: whenever it
    returns, the values it read from offset 0x300 were some with bit 12 set
    followed by one with bit 12 clear, and it read no further; what it did
    is the two stores and one pause and load per value read.  There is no
    bound on the rounds: as long as every value read has bit 12 set the
    routine does not return. *)
Theorem lapic_send_ipi_returns_idle (s : kstate) (id cmd : Z) :
  (forall s', exec (lapic_send_ipi id cmd) s = Some s' ->
     exists busy idle rest,
       lapic_answers s = busy ++ idle :: rest /\
       Forall (fun v => Z.testbit v 12 = true) busy /\
       Z.testbit idle 12 = false /\
       s' = after_io s rest
              ([MmioStore (u64 (lapic_final s + 0x310)) (u32 (Z.shiftl id 24));
                MmioStore (u64 (lapic_final s + 0x300)) (u32 cmd)]
               ++ polls (lapic_final s) (busy ++ [idle]))) /\
  (Forall (fun v => Z.testbit v 12 = true) (lapic_answers s) ->
   lapic_send_ipi id cmd s = None).
Proof.
  split.
  - intros s' H. unfold exec in H.
    destruct (lapic_send_ipi id cmd s) as [[u s1]|] eqn:E; [|discriminate].
    injection H as <-. exact (lapic_send_ipi_inv _ _ _ _ _ E).
  - intros Hall.
    destruct (lapic_send_ipi id cmd s) as [[u s1]|] eqn:E; [|reflexivity].
    apply lapic_send_ipi_inv in E.
    destruct E as (busy & idle & rest & Hans & _ & Hidle & _).
    rewrite Hans in Hall. apply Forall_app in Hall. destruct Hall as [_ Hall].
    inversion Hall as [|? ? Hbit _]; subst. congruence.
Qed.

Lemma lapic_send_ipi_returns_idle_witness :
  lapic_send_ipi 3 0x4500
    (set_lapic_final 0xffffff1fc0000000
       (Demo.at_boot (fun _ => 0) [0x1000; 0x5500; 0x1000]))
  = None.
Proof.
  apply (lapic_send_ipi_returns_idle
           (set_lapic_final 0xffffff1fc0000000
              (Demo.at_boot (fun _ => 0) [0x1000; 0x5500; 0x1000]))
           3 0x4500).
  repeat constructor.
Defined.

End LapicGatewayRuns.

Section IpiBroadcast.

Lemma smp_inactive_false (s : kstate) :
  lapic_final s <> 0 -> 2 <= processor_count s ->
  smp_inactive s = Some (false, s).
Proof.
  intros Hl Hc. unfold smp_inactive, bind, gets, ret.
  destruct (Z.eqb_spec (lapic_final s) 0) as [E|_]; [contradiction|].
  destruct (Z.ltb_spec (processor_count s) 2) as [E|_]; [lia|]. reflexivity.
Qed.

(** X13: with a mapped LAPIC and two or more processors each of the three
    services sends one IPI: destination field 0, and as command its vector
    (0x7E for [arch_wakeup_others], 0x7B for [arch_tick_others], 0x7C for
    [arch_tlb_shootdown]) with the destination shorthand 3, every processor
    but the sender, in bits 18-19.  The address given to
    [arch_tlb_shootdown] is not passed on: the IPI is the same for every
    [vaddr]. *)
Theorem ipi_services_broadcast
    (s : kstate) (vaddr : Z) (busy : list Z) (idle : Z) (rest : list Z) :
  lapic_final s <> 0 -> 2 <= processor_count s ->
  lapic_answers s = busy ++ idle :: rest ->
  Forall (fun v => Z.testbit v 12 = true) busy ->
  Z.testbit idle 12 = false ->
  let sent vector :=
    Some (tt, after_io s rest
                ([MmioStore (u64 (lapic_final s + 0x310)) 0;
                  MmioStore (u64 (lapic_final s + 0x300))
                            (3 * 2 ^ 18 + vector)]
                 ++ polls (lapic_final s) (busy ++ [idle]))) in
  arch_wakeup_others s = sent 0x7E /\
  arch_tick_others s = sent 0x7B /\
  arch_tlb_shootdown vaddr s = sent 0x7C.
Proof.
  intros Hl Hc Hans Hbusy Hidle sent. subst sent. cbv beta.
  pose proof (smp_inactive_false s Hl Hc) as Hon.
  unfold arch_wakeup_others, arch_tick_others, arch_tlb_shootdown, bind.
  rewrite Hon.
  rewrite !(lapic_send_ipi_run s 0 _ busy idle rest Hans Hbusy Hidle).
  repeat split.
Qed.

Lemma ipi_services_broadcast_witness :
  arch_tlb_shootdown 0xDEAD000
    (set_processor_count 2
       (set_lapic_final 0xffffff1fc0000000 (Demo.at_boot (fun _ => 0) [0])))
  = Some (tt, after_io
                (set_processor_count 2
                   (set_lapic_final 0xffffff1fc0000000
                      (Demo.at_boot (fun _ => 0) [0])))
                []
                [MmioStore 0xffffff1fc0000310 0;
                 MmioStore 0xffffff1fc0000300 0xC007C;
                 Pause; MmioLoad 0xffffff1fc0000300 0]).
Proof.
  apply (ipi_services_broadcast
           (set_processor_count 2
              (set_lapic_final 0xffffff1fc0000000
                 (Demo.at_boot (fun _ => 0) [0])))
           0xDEAD000 [] 0 []).
  - simpl. lia.
  - simpl. lia.
  - reflexivity.
  - constructor.
  - reflexivity.
Defined.

End IpiBroadcast.

(** ** The early returns of smp_initialize *)

(** Discharges [finds_madt] on a firmware image by evaluation. *)
Ltac finds_madt_by_evaluation rsdp table :=
  exists rsdp, table, [], [];
  split; [vm_compute; reflexivity|];
  split; [vm_compute; reflexivity|];
  split; [vm_compute; reflexivity|];
  split; [split; [vm_compute; reflexivity|];
          intros [|?] ? Ht; [|discriminate Ht];
          injection Ht as <-; vm_compute; reflexivity|];
  split; [constructor|];
  split; [split; [vm_compute; reflexivity|];
          repeat split; first [vm_compute; reflexivity | vm_compute; discriminate]|];
  split; [vm_compute; reflexivity | simpl; lia].

(** Discharges [info_ready 0 0] on a boot state by evaluation. *)
Ltac info_ready_by_evaluation :=
  split; [split; [lia | eexists; split; reflexivity]|];
  split; [lia | eexists; reflexivity].

Section EarlyReturns.

(** X14: when no address of the scan range that the 16-byte stride reaches
    carries the bytes "RSD PTR", smp_initialize logs "smp: No RSD PTR
    found" and returns: that line is all it adds to the trace, and
    [processor_count], [lapic_final] and physical memory are as before. *)
Theorem no_rsdp_found (fuel : nat) (p : platform) (k : Z) (s : kstate) :
  0x10001 <= Z.of_nat fuel ->
  info_ready 0 k s ->
  (forall a, on_stride (fst (scan_range (boot p))) a ->
             a < snd (scan_range (boot p)) ->
             ~ signature_at "RSD PTR" (phys s) a) ->
  exists s',
    exec (smp_initialize fuel p) s = Some s' /\
    emitted s s' = [no_rsd_ptr] /\
    processor_count s' = processor_count s /\
    lapic_final s' = lapic_final s /\
    phys s' = phys s.
Proof.
  intros Hfuel Hready Hnone.
  destruct (scan_range_bounds (boot p)) as [H0 [Hw Hlen]].
  destruct (rsdp_scan_first_match fuel (phys s) _ _ H0 Hw)
    as [good [rsdp [Hscan [_ Hhit]]]]; [lia|].
  assert (Hgood : good = false).
  { destruct good; [|reflexivity]. exfalso.
    destruct (Hhit eq_refl) as (Hs & Hlt & Hm).
    apply rsd_ptr_match_seven in Hm. exact (Hnone rsdp Hs Hlt Hm). }
  subst good.
  destruct (bsp_info p k s Hready) as [s0 [Hinfo [Honly _]]].
  pose proof (smp_discover_cases fuel p s s0 false rsdp Hscan Hinfo Honly)
    as Hcases.
  cbn [negb] in Hcases.
  eexists. unfold smp_initialize, exec, bind. rewrite Hcases.
  split; [reflexivity|].
  cbn [processor_count lapic_final phys trace set_trace].
  split; [apply emitted_app; cbn [trace set_trace];
          rewrite (only_cores_keeps trace s s0) by (reflexivity || exact Honly);
          reflexivity|].
  repeat split;
    [ apply (only_cores_keeps processor_count)
    | apply (only_cores_keeps lapic_final)
    | apply (only_cores_keeps phys) ];
    solve [reflexivity | exact Honly].
Qed.

Lemma no_rsdp_found_witness :
  exists s',
    exec (smp_initialize (Z.to_nat 0x10001) (Demo.machine ∅))
         (Demo.at_boot (fun _ => 0) []) = Some s' /\
    emitted (Demo.at_boot (fun _ => 0) []) s' = [no_rsd_ptr].
Proof.
  destruct (no_rsdp_found (Z.to_nat 0x10001) (Demo.machine ∅) 0
              (Demo.at_boot (fun _ => 0) []))
    as (s' & Hrun & Hlog & _).
  - rewrite Z2Nat.id; lia.
  - split; [split; [lia | eexists; split; reflexivity]|].
    split; [lia | eexists; reflexivity].
  - intros a _ _ H. unfold signature_at in H. cbn in H. discriminate H.
  - exists s'. split; assumption.
Defined.

(** Lines 271-301 on an RSDT none of whose tables is a MADT. *)
Lemma parse_tables_no_madt (fuel : nat) (rsdp : Z) (ptrs : list Z)
    (s0 : kstate) :
  rsdt_lists (phys s0) (load32 (phys s0) (rsdp + Acpi.rsdp_rsdt_address)) ptrs ->
  Forall (fun t => is_apic (phys s0) t = false) ptrs ->
  parse_tables fuel rsdp s0 = Some (Some (0, 0), set_processor_count 0 s0).
Proof.
  intros [Hn Hptr] Hnot. unfold parse_tables. monad_unfold. rewrite Hn.
  rewrite rsdt_loop_pass; [reflexivity | | exact Hnot].
  intros j t Hj. rewrite Z.add_0_l. apply Hptr. exact Hj.
Qed.

(** X15: a descriptor that passes the gates and whose RSDT lists no table
    with the signature "APIC" leaves [processor_count] at 0, the number of
    processors counted, not at 1: smp_initialize returns without a line
    logged, with [lapic_final] and physical memory as before. *)
Theorem no_madt_counts_zero
    (fuel : nat) (p : platform) (k : Z) (s : kstate) (rsdp : Z)
    (ptrs : list Z) :
  scan_ends fuel p s true rsdp ->
  rejected p s rsdp = false ->
  args_present (boot p) "nosmp" = false ->
  rsdt_lists (phys s) (load32 (phys s) (rsdp + Acpi.rsdp_rsdt_address)) ptrs ->
  Forall (fun t => is_apic (phys s) t = false) ptrs ->
  info_ready 0 k s ->
  exists s',
    exec (smp_initialize fuel p) s = Some s' /\
    processor_count s' = 0 /\
    lapic_final s' = lapic_final s /\
    emitted s s' = [] /\
    phys s' = phys s.
Proof.
  intros Hscan Hrej Hnosmp Hrsdt Hnot Hready.
  destruct (bsp_info p k s Hready) as [s0 [Hinfo [Honly _]]].
  pose proof (smp_discover_cases fuel p s s0 true rsdp Hscan Hinfo Honly)
    as Hcases.
  rewrite Hrej, Hnosmp in Hcases. cbn [negb] in Hcases.
  assert (Hphys : phys s0 = phys s)
    by (apply (only_cores_keeps phys); [reflexivity | exact Honly]).
  rewrite <- Hphys in Hrsdt, Hnot.
  rewrite (parse_tables_no_madt fuel rsdp ptrs s0 Hrsdt Hnot) in Hcases.
  eexists. unfold smp_initialize, exec, bind. rewrite Hcases.
  cbv beta iota. unfold smp_start. cbn [Z.eqb]. unfold ret.
  split; [reflexivity|].
  cbn [processor_count lapic_final phys trace set_processor_count].
  split; [reflexivity|].
  split; [apply (only_cores_keeps lapic_final); [reflexivity | exact Honly]|].
  split; [|exact Hphys].
  apply emitted_app. cbn [trace set_processor_count].
  rewrite (only_cores_keeps trace s s0) by (reflexivity || exact Honly).
  rewrite app_nil_r. reflexivity.
Qed.

Lemma no_madt_counts_zero_witness :
  exists s',
    exec (smp_initialize 9 (Demo.machine ∅)) (Demo.at_boot Demo.facp_firmware [])
    = Some s' /\
    processor_count s' = 0 /\ lapic_final s' = 0.
Proof.
  destruct (no_madt_counts_zero 9 (Demo.machine ∅) 0
              (Demo.at_boot Demo.facp_firmware []) 0xE0000 [0xE2000])
    as (s' & Hrun & Hcount & Hlapic & _).
  - vm_compute. reflexivity.
  - vm_compute. reflexivity.
  - vm_compute. reflexivity.
  - split; [vm_compute; reflexivity|].
    intros [|i] t Ht; [|discriminate Ht].
    injection Ht as <-. vm_compute. reflexivity.
  - repeat constructor.
  - info_ready_by_evaluation.
  - exists s'. split; [exact Hrun|]. split; assumption.
Defined.

End EarlyReturns.

(** ** The per-AP loop *)

Section StartAp.

(** The run of [start_ap], step by step. *)
Lemma start_ap_inv (p : platform) (i : Z) (s s' : kstate) (u : unit) :
  start_ap p i s = Some (u, s') ->
  exists me vs1 vs2 rest s_out,
    0 <= i /\
    processor_local_data s !! Z.to_nat i = Some me /\
    lapic_answers s = vs1 ++ vs2 ++ rest /\
    ap_answers p (lapic_id me) = true /\
    ap_main p (ap_entry p i (lapic_id me) vs1 vs2 rest s) = Some (tt, s_out) /\
    s' = set_trace (trace s_out ++ [Pause]) s_out.
Proof.
  intros H. unfold start_ap, gdt_copy_to_trampoline, valloc in H.
  monad_unfold in H. state_norm in H.
  destruct (core_at _ _) as [[me s1]|] eqn:H1 in H; [|discriminate].
  apply core_at_inv in H1. destruct H1 as (-> & Hi & Hme). state_norm in Hme.
  destruct (lapic_send_ipi _ _ _) as [[[] s2]|] eqn:H2 in H; [|discriminate].
  apply lapic_send_ipi_inv in H2.
  destruct H2 as (busy1 & idle1 & rest1 & Hans1 & _ & _ & ->).
  state_norm in Hans1. unfold after_io in H. state_norm in H.
  destruct (core_at _ _) as [[me2 s3]|] eqn:H3 in H; [|discriminate].
  apply core_at_inv in H3. destruct H3 as (-> & _ & Hme2). state_norm in Hme2.
  rewrite Hme in Hme2. injection Hme2 as <-.
  destruct (lapic_send_ipi _ _ _) as [[[] s4]|] eqn:H4 in H; [|discriminate].
  apply lapic_send_ipi_inv in H4.
  destruct H4 as (busy2 & idle2 & rest2 & Hans2 & _ & _ & ->).
  state_norm in Hans2. unfold after_io in H. state_norm in H.
  destruct (core_at _ _) as [[me3 s5]|] eqn:H5 in H; [|discriminate].
  apply core_at_inv in H5. destruct H5 as (-> & _ & Hme3). state_norm in Hme3.
  rewrite Hme in Hme3. injection Hme3 as <-.
  unfold await_ap in H. monad_unfold in H.
  match type of H with
  | context [(if _ then _ else _) ?x] =>
    replace x with (ap_entry p i (lapic_id me) (busy1 ++ [idle1])
                      (busy2 ++ [idle2]) rest2 s) in H
  end.
  2: { unfold ap_entry, kick_events, ipi_events.
       apply kstate_eq; state_norm; try reflexivity.
       rewrite <- !app_assoc. reflexivity. }
  exists me, (busy1 ++ [idle1]), (busy2 ++ [idle2]), rest2.
  destruct (ap_answers p (lapic_id me)).
  - destruct (ap_main p _) as [[[] s_out]|] eqn:Hmain; [|discriminate].
    exists s_out. state_norm in H.
    destruct (_ap_startup_flag s_out =? 0); [discriminate|].
    destruct u. injection H as <-.
    split; [exact Hi|]. split; [exact Hme|].
    split; [rewrite Hans1, Hans2, <- !app_assoc; reflexivity|].
    repeat split.
  - exfalso. unfold ap_entry in H. state_norm in H. cbn [Z.eqb] in H.
    discriminate H.
Qed.

(** What one round of the loop of line 317 leaves. *)
Lemma start_ap_effect (p : platform) (i : Z) (s s' : kstate) (u : unit) :
  start_ap p i s = Some (u, s') ->
  exists me vs1 vs2 rest,
    0 <= i /\
    processor_local_data s !! Z.to_nat i = Some me /\
    lapic_answers s = vs1 ++ vs2 ++ rest /\
    ap_answers p (lapic_id me) = true /\
    ap_main p (ap_entry p i (lapic_id me) vs1 vs2 rest s) <> None /\
    trace s'
    = trace s ++ kick_events p (lapic_final s) i (lapic_id me) vs1 vs2
      ++ ap_entry_events p (lapic_final s) i me ++ [SwitchNext; Pause] /\
    _ap_startup_flag s' = 1 /\
    _ap_current s' = i /\
    _ap_stack_base s' = u64 (stack_given p i + KERNEL_STACK_SIZE p) /\
    processor_count s' = processor_count s /\
    lapic_final s' = lapic_final s /\
    lapic_answers s' = rest /\
    phys s' = memcpy_from (phys s) (trampoline + _ap_bootstrap_gdtp p)
                (take 10 (gdt_pointer p i)) /\
    Forall2 same_ids (processor_local_data s) (processor_local_data s') /\
    (forall (j : nat) (d : processor_local),
       processor_local_data s !! j = Some d ->
       exists d',
         processor_local_data s' !! j = Some d' /\
         if decide (j = Z.to_nat i)
         then current_pml d' = init_page_region p /\
              kernel_idle_task d' = kidle_given p i 0 /\
              current_process d' = kidle_given p i 0
         else same_tasks d d').
Proof.
  intros H. apply start_ap_inv in H.
  destruct H as (me & vs1 & vs2 & rest & s_out & Hi & Hme & Hans & Hup & Hmain & ->).
  exists me, vs1, vs2, rest.
  do 4 (split; [assumption|]).
  split; [rewrite Hmain; discriminate|].
  pose proof (ap_main_effect p _ _ _ me Hmain) as Heff.
  unfold ap_entry in Heff. state_norm in Heff.
  destruct (Heff Hme)
    as (Htr & Hflag & Hc & Hl & Hcur & Hsb & Hph & Ha & Hids & Htasks).
  state_norm.
  split; [rewrite Htr, <- !app_assoc; reflexivity|].
  do 7 (split; [assumption|]).
  split; [exact Hids | exact Htasks].
Qed.

End StartAp.

Section BringupOrder.

Lemma lapic_register_eqb (base x y : Z) :
  0 <= x < 2 ^ 64 -> 0 <= y < 2 ^ 64 ->
  (u64 (base + x) =? u64 (base + y)) = (x =? y).
Proof.
  intros Hx Hy. destruct (Z.eqb_spec x y) as [->|Hne].
  - apply Z.eqb_refl.
  - apply Z.eqb_neq. intros H. unfold u64, wrap in H.
    pose proof (Z.div_mod (base + x) (2 ^ 64)) as H1.
    pose proof (Z.div_mod (base + y) (2 ^ 64)) as H2.
    rewrite H in H1.
    set (q1 := (base + x) / 2 ^ 64) in *. set (q2 := (base + y) / 2 ^ 64) in *.
    set (r := (base + y) mod 2 ^ 64) in *.
    change (2 ^ 64) with 18446744073709551616 in *.
    assert (q1 = q2) by lia. lia.
Qed.

Lemma stores_to_app (a : Z) (e1 e2 : list event) :
  stores_to a (e1 ++ e2) = stores_to a e1 ++ stores_to a e2.
Proof. unfold stores_to. apply flat_map_app. Qed.

Lemma stores_to_polls (a base : Z) (vs : list Z) :
  stores_to a (polls base vs) = [].
Proof. induction vs as [|v vs IH]; [reflexivity | exact IH]. Qed.

Lemma stores_to_entry (p : platform) (base i r : Z) (me : processor_local) :
  0 <= r < 2 ^ 64 -> r <> 0x0F0 ->
  stores_to (u64 (base + r)) (ap_entry_events p base i me) = [].
Proof.
  intros Hr Hne. unfold ap_entry_events. rewrite !stores_to_app.
  destruct (lapic_id me =? _); cbn [stores_to flat_map app];
    rewrite lapic_register_eqb by lia;
    destruct (Z.eqb_spec 0x0F0 r) as [E|_]; solve [congruence | reflexivity].
Qed.

Lemma stores_to_kick (p : platform) (base i id : Z) (vs1 vs2 : list Z) :
  stores_to (u64 (base + 0x300)) (kick_events p base i id vs1 vs2)
  = [0x4500; 0x4601] /\
  stores_to (u64 (base + 0x310)) (kick_events p base i id vs1 vs2)
  = [u32 (Z.shiftl id 24); u32 (Z.shiftl id 24)].
Proof.
  unfold kick_events, ipi_events. rewrite !stores_to_app, !stores_to_polls.
  cbn [stores_to flat_map app]. rewrite !lapic_register_eqb by lia.
  split; reflexivity.
Qed.

(** The LAPIC ids of the [n] descriptors from slot [i] on. *)
Lemma same_ids_lapic (l l' : list processor_local) :
  Forall2 same_ids l l' -> map lapic_id l' = map lapic_id l.
Proof.
  induction 1 as [|d d' l l' [_ H] _ IH]; [reflexivity|].
  cbn [map]. rewrite H, IH. reflexivity.
Qed.

(** What the loop of line 317 leaves, for the [n] APs from slot [i] on. *)
Lemma start_aps_effect (p : platform) (n : nat) :
  forall (i : Z) (s s' : kstate) (u : unit),
    start_aps p n i s = Some (u, s') -> 0 <= i ->
    let ids := take n (drop (Z.to_nat i) (map lapic_id (processor_local_data s))) in
    length ids = n /\
    Forall (fun id => ap_answers p id = true) ids /\
    (exists evs,
       trace s' = trace s ++ evs /\
       stores_to (u64 (lapic_final s + 0x300)) evs
       = flat_map (fun _ => [0x4500; 0x4601]) ids /\
       stores_to (u64 (lapic_final s + 0x310)) evs
       = flat_map (fun id => [u32 (Z.shiftl id 24); u32 (Z.shiftl id 24)]) ids) /\
    processor_count s' = processor_count s /\
    lapic_final s' = lapic_final s /\
    Forall2 same_ids (processor_local_data s) (processor_local_data s') /\
    (forall (j : nat) (d : processor_local),
       processor_local_data s !! j = Some d ->
       exists d',
         processor_local_data s' !! j = Some d' /\
         if decide (Z.to_nat i <= j < Z.to_nat i + n)%nat
         then current_pml d' = init_page_region p /\
              kernel_idle_task d' = kidle_given p (Z.of_nat j) 0 /\
              current_process d' = kidle_given p (Z.of_nat j) 0
         else same_tasks d d') /\
    ((0 < n)%nat ->
     _ap_startup_flag s' = 1 /\
     _ap_current s' = i + Z.of_nat n - 1 /\
     _ap_stack_base s'
     = u64 (stack_given p (i + Z.of_nat n - 1) + KERNEL_STACK_SIZE p)).
Proof.
  induction n as [|n IH]; intros i s s' u H Hi ids; subst ids.
  - cbn [start_aps] in H. injection H as _ <-.
    rewrite take_0. cbn [length flat_map].
    split; [reflexivity|]. split; [constructor|].
    split; [exists []; rewrite app_nil_r; repeat split|].
    split; [reflexivity|]. split; [reflexivity|].
    split; [apply Forall2_same_ids_refl; intros ? []|].
    split; [|lia].
    intros j d Hd. exists d. split; [exact Hd|].
    destruct (decide _) as [e|_]; [lia|]. repeat split.
  - cbn [start_aps] in H. unfold bind in H.
    destruct (start_ap p i s) as [[[] s1]|] eqn:E1; [|discriminate].
    apply start_ap_effect in E1.
    destruct E1 as (me & vs1 & vs2 & rest & _ & Hme & _ & Hup & _ & Htr1 & Hflag1
                    & Hcur1 & Hsb1 & Hc1 & Hl1 & _ & _ & Hids1 & Htasks1).
    destruct (IH (i + 1) s1 s' u H ltac:(lia))
      as (Hlen & Hups & (evs2 & Htr2 & Hlow & Hhigh) & Hc2 & Hl2 & Hids2
          & Htasks2 & Hlast).
    rewrite (same_ids_lapic _ _ Hids1) in Hlen, Hups, Hlow, Hhigh.
    rewrite Hl1 in Hlow, Hhigh.
    replace (Z.to_nat (i + 1)) with (S (Z.to_nat i)) in * by lia.
    assert (Hdrop : drop (Z.to_nat i) (map lapic_id (processor_local_data s))
                    = lapic_id me
                      :: drop (S (Z.to_nat i))
                           (map lapic_id (processor_local_data s))).
    { apply drop_S. rewrite list_lookup_fmap, Hme. reflexivity. }
    rewrite Hdrop. cbn [take length flat_map].
    split; [rewrite Hlen; reflexivity|].
    split; [constructor; assumption|].
    split.
    { eexists. split; [rewrite Htr2, Htr1, <- app_assoc; reflexivity|].
      rewrite !stores_to_app.
      destruct (stores_to_kick p (lapic_final s) i (lapic_id me) vs1 vs2)
        as [-> ->].
      rewrite !stores_to_entry by lia. rewrite Hlow, Hhigh.
      cbn [stores_to flat_map app]. split; reflexivity. }
    split; [congruence|]. split; [congruence|].
    split; [etransitivity; eassumption|].
    split.
    { intros j d Hd.
      destruct (Htasks1 j d Hd) as [d1 [Hd1 Ht1]].
      destruct (Htasks2 j d1 Hd1) as [d' [Hd' Ht2]].
      exists d'. split; [exact Hd'|].
      destruct (decide (j = Z.to_nat i)) as [->|Hne].
      - destruct (decide (S (Z.to_nat i) <= Z.to_nat i < S (Z.to_nat i) + n)%nat)
          as [e|_]; [lia|].
        destruct (decide (Z.to_nat i <= Z.to_nat i < Z.to_nat i + S n)%nat)
          as [_|e]; [|lia].
        destruct Ht2 as (H1 & H2 & H3). destruct Ht1 as (H4 & H5 & H6).
        rewrite Z2Nat.id by lia. repeat split; congruence.
      - destruct (decide (S (Z.to_nat i) <= j < S (Z.to_nat i) + n)%nat)
          as [e|e];
          destruct (decide (Z.to_nat i <= j < Z.to_nat i + S n)%nat)
            as [e'|e']; try (exfalso; lia).
        + exact Ht2.
        + etransitivity; eassumption. }
    intros _. destruct n as [|n].
    + cbn [start_aps] in H. injection H as _ <-.
      replace (i + Z.of_nat 1 - 1) with i by lia. repeat split; assumption.
    + destruct (Hlast ltac:(lia)) as (H1 & H2 & H3).
      replace (i + Z.of_nat (S (S n)) - 1) with (i + 1 + Z.of_nat (S n) - 1)
        by lia.
      repeat split; assumption.
Qed.

End BringupOrder.

Section DiscoveredMadt.

(** Discovery on a firmware with one MADT: the count, the LAPIC address and
    the state it leaves. *)
Lemma discover_one_madt (fuel : nat) (p : platform) (k : Z) (s : kstate)
    (es : list madt_entry) (lapic_base : Z) :
  finds_madt fuel p s es lapic_base ->
  table_of_32 s -> info_ready 0 k s ->
  exists s0,
    only_cores s s0 /\
    cores_step (rel_and same_ids same_tasks) s s0 /\
    smp_discover fuel p s
    = Some (Some (Z.of_nat (length (entered_ids es)), lapic_base),
            set_processor_count (Z.of_nat (length (entered_ids es)))
              (walked s0 0 (entered_ids es)
                 (if Nat.ltb 32 (length (enabled_ids es))
                  then [too_many_cores] else []))).
Proof.
  intros (rsdp & table & before & after & Hscan & Hrej & Hnosmp & Hrsdt
          & Hnot & Hmadt & Hbase & Hfuel) Hlen Hready.
  destruct (bsp_info p k s Hready) as [s0 [Hinfo [Honly Hcores]]].
  pose proof (smp_discover_cases fuel p s s0 true rsdp Hscan Hinfo Honly)
    as Hcases.
  rewrite Hrej, Hnosmp in Hcases. cbn [negb] in Hcases.
  assert (Hphys : phys s0 = phys s)
    by (apply (only_cores_keeps phys); [reflexivity | exact Honly]).
  assert (Hlen0 : table_of_32 s0).
  { unfold table_of_32, cores_step in *.
    rewrite <- (Forall2_length _ _ _ Hcores). exact Hlen. }
  rewrite <- Hphys in Hrsdt, Hnot, Hmadt.
  pose proof (parse_tables_one_madt fuel rsdp table before after es s0
                Hrsdt Hnot Hmadt Hfuel Hlen0) as Hparse.
  exists s0. split; [exact Honly|]. split; [exact Hcores|].
  rewrite Hcases, Hparse, Hphys, Hbase. unfold entered_ids.
  rewrite length_take_32. reflexivity.
Qed.

(** The LAPIC ids of the slots the walk has filled. *)
Lemma assign_cores_lapic_ids (ids : list Z) (l : list processor_local) :
  (length ids <= length l)%nat ->
  take (length ids) (map lapic_id (assign_cores 0 ids l)) = ids.
Proof.
  intros Hlen. apply list_eq. intros j.
  destruct (decide (j < length ids)%nat) as [Hj|Hj].
  - rewrite lookup_take_lt by exact Hj. rewrite list_lookup_fmap.
    destruct (lookup_lt_is_Some_2 ids j Hj) as [id Hid].
    destruct (assign_cores_slot ids 0 l j id ltac:(lia) Hid)
      as [d [Hd [_ Hlap]]]; [simpl; lia|].
    change (Z.to_nat 0 + j)%nat with j in Hd.
    rewrite Hd, Hid. cbn. rewrite Hlap. reflexivity.
  - rewrite lookup_take_ge by lia. symmetry. apply lookup_ge_None. lia.
Qed.

Lemma length_assign_cores (ids : list Z) :
  forall c l, length (assign_cores c ids l) = length l.
Proof.
  induction ids as [|id ids IH]; intros c l; cbn [assign_cores]; [reflexivity|].
  rewrite IH, !length_alter. reflexivity.
Qed.

End DiscoveredMadt.

Section StartedProcessors.

Lemma stores_to_printf (a : Z) (toomany : bool) :
  stores_to a (if toomany then [too_many_cores] else []) = [].
Proof. destruct toomany; reflexivity. Qed.

(** Lines 303-343 on a run that starts APs. *)
Lemma smp_start_effect (p : platform) (cores lapic_base : Z) (s s' : kstate) :
  lapic_base <> 0 -> 1 < cores ->
  smp_start p cores lapic_base s = Some (tt, s') ->
  let base := mmio_mapping p lapic_base 0x1000 in
  let ids := take (Z.to_nat (cores - 1))
               (drop 1 (map lapic_id (processor_local_data s))) in
  length ids = Z.to_nat (cores - 1) /\
  Forall (fun id => ap_answers p id = true) ids /\
  (exists evs,
     trace s' = trace s ++ evs /\
     stores_to (u64 (base + 0x300)) evs
     = flat_map (fun _ => [0x4500; 0x4601]) ids /\
     stores_to (u64 (base + 0x310)) evs
     = flat_map (fun id => [u32 (Z.shiftl id 24); u32 (Z.shiftl id 24)]) ids) /\
  lapic_final s' = base /\
  (forall (j : nat) (d : processor_local),
     processor_local_data s !! j = Some d ->
     exists d',
       processor_local_data s' !! j = Some d' /\
       same_ids d d' /\
       if decide (1 <= j < Z.to_nat cores)%nat
       then current_pml d' = init_page_region p /\
            kernel_idle_task d' = kidle_given p (Z.of_nat j) 0 /\
            current_process d' = kidle_given p (Z.of_nat j) 0
       else same_tasks d d') /\
  _ap_startup_flag s' = 1 /\
  _ap_current s' = cores - 1 /\
  _ap_stack_base s' = u64 (stack_given p (cores - 1) + KERNEL_STACK_SIZE p).
Proof.
  intros Hbase Hcores Hrun base ids. subst base ids.
  destruct (smp_start_multi p cores lapic_base s s' Hbase Hcores Hrun)
    as [s3 [Hloop ->]].
  apply start_aps_effect in Hloop; [|lia].
  unfold installed in Hloop. state_norm in Hloop.
  change (Z.to_nat 1) with 1%nat in Hloop.
  destruct Hloop as (Hlen & Hups & (evs & Htr & Hlow & Hhigh) & _ & Hl & Hids
                     & Htasks & Hlast).
  unfold restored. state_norm.
  split; [exact Hlen|]. split; [exact Hups|]. split.
  { eexists. split; [rewrite Htr, <- !app_assoc; reflexivity|].
    rewrite !stores_to_app, Hlow, Hhigh. cbn [stores_to flat_map app].
    rewrite !app_nil_r. split; reflexivity. }
  split; [exact Hl|]. split.
  { intros j d Hd. destruct (Htasks j d Hd) as [d' [Hd' Ht]].
    exists d'. split; [exact Hd'|].
    split; [exact (Forall2_lookup_lr _ _ _ _ _ _ Hids Hd Hd')|].
    destruct (decide (1 <= j < 1 + Z.to_nat (cores - 1))%nat) as [e|e];
      destruct (decide (1 <= j < Z.to_nat cores)%nat) as [e'|e'];
      try (exfalso; lia); exact Ht. }
  destruct (Hlast ltac:(lia)) as (H1 & H2 & H3).
  rewrite Z2Nat.id in H2, H3 by lia.
  replace (1 + (cores - 1) - 1) with (cores - 1) in H2, H3 by lia.
  repeat split; assumption.
Qed.

End StartedProcessors.

Section AfterDiscovery.

Lemma assign_cores_tasks (ids : list Z) :
  forall c l, Forall2 same_tasks l (assign_cores c ids l).
Proof.
  induction ids as [|id ids IH]; intros c l; cbn [assign_cores].
  - reflexivity.
  - etransitivity; [|apply IH].
    etransitivity;
      (apply (Forall2_diag_alter same_tasks); intros d; repeat split).
Qed.

(** smp_initialize on a firmware with one MADT: discovery, and then lines
    303-343 from the state discovery leaves. *)
Lemma smp_initialize_one_madt (fuel : nat) (p : platform) (k : Z) (s : kstate)
    (es : list madt_entry) (lapic_base : Z) :
  finds_madt fuel p s es lapic_base ->
  table_of_32 s -> info_ready 0 k s ->
  exists s1,
    exec (smp_initialize fuel p) s
    = exec (smp_start p (Z.of_nat (length (entered_ids es))) lapic_base) s1 /\
    processor_count s1 = Z.of_nat (length (entered_ids es)) /\
    lapic_final s1 = lapic_final s /\
    phys s1 = phys s /\
    trace s1 = trace s ++ (if Nat.ltb 32 (length (enabled_ids es))
                           then [too_many_cores] else []) /\
    take (length (entered_ids es)) (map lapic_id (processor_local_data s1))
    = entered_ids es /\
    length (processor_local_data s1) = 32%nat /\
    Forall2 same_tasks (processor_local_data s) (processor_local_data s1).
Proof.
  intros Hfinds Hlen Hready.
  destruct (discover_one_madt fuel p k s es lapic_base Hfinds Hlen Hready)
    as (s0 & Honly & Hcores & Hdisc).
  apply only_cores_fields in Honly.
  destruct Honly as (_ & Hl & _ & _ & _ & Hph & _ & Htr).
  unfold cores_step in Hcores.
  assert (Hlen0 : length (processor_local_data s0) = 32%nat)
    by (rewrite <- (Forall2_length _ _ _ Hcores); exact Hlen).
  eexists. split.
  { unfold smp_initialize, exec, bind. rewrite Hdisc. reflexivity. }
  unfold walked. state_norm.
  split; [reflexivity|]. split; [exact Hl|]. split; [exact Hph|].
  split; [rewrite Htr; reflexivity|].
  split.
  { apply assign_cores_lapic_ids. rewrite Hlen0. unfold entered_ids.
    rewrite length_take. lia. }
  split; [rewrite length_assign_cores; exact Hlen0|].
  etransitivity; [|apply assign_cores_tasks].
  eapply Forall2_impl; [exact Hcores|]. intros x y [_ H]. exact H.
Qed.

(** X16: a MADT whose LAPIC address is 0.  The processors are counted and
    entered, the too-many-cores line apart nothing is logged, and there
    smp_initialize returns (line 303): the LAPIC is not mapped,
    [lapic_final] stays as it was, no frame is allocated, no IPI is sent and
    no AP is started, however many processors the table enables. *)
Theorem no_lapic_address (fuel : nat) (p : platform) (k : Z) (s : kstate)
    (es : list madt_entry) :
  finds_madt fuel p s es 0 ->
  table_of_32 s -> info_ready 0 k s ->
  exists s',
    exec (smp_initialize fuel p) s = Some s' /\
    processor_count s' = Z.min (Z.of_nat (length (enabled_ids es))) 32 /\
    lapic_final s' = lapic_final s /\
    emitted s s' = (if Nat.ltb 32 (length (enabled_ids es))
                    then [too_many_cores] else []) /\
    phys s' = phys s.
Proof.
  intros Hfinds Hlen Hready.
  destruct (smp_initialize_one_madt fuel p k s es 0 Hfinds Hlen Hready)
    as (s1 & Hrun & Hc & Hl & Hph & Htr & _).
  exists s1. split; [rewrite Hrun; reflexivity|].
  split; [rewrite Hc; unfold entered_ids; apply length_take_32|].
  split; [exact Hl|]. split; [apply emitted_app; exact Htr | exact Hph].
Qed.

Lemma no_lapic_address_witness :
  exists s',
    exec (smp_initialize 9 (Demo.machine ∅))
         (Demo.at_boot Demo.no_lapic_firmware []) = Some s' /\
    processor_count s' = 2 /\ lapic_final s' = 0 /\
    emitted (Demo.at_boot Demo.no_lapic_firmware []) s' = [].
Proof.
  destruct (no_lapic_address 9 (Demo.machine ∅) 0
              (Demo.at_boot Demo.no_lapic_firmware []) Demo.two_list)
    as (s' & Hrun & Hcount & Hlapic & Hev & _).
  - finds_madt_by_evaluation 0xE0000 0xE2000.
  - reflexivity.
  - info_ready_by_evaluation.
  - exists s'. split; [exact Hrun|]. split; [exact Hcount|].
    split; [exact Hlapic | exact Hev].
Defined.

(** X17: a MADT with a LAPIC address and at most one enabled processor.
    smp_initialize maps the LAPIC (one page at the address the MADT gives),
    stores the mapping in [lapic_final] and returns (line 308): no frame is
    allocated, physical memory is not written, no IPI is sent. *)
Theorem single_processor (fuel : nat) (p : platform) (k : Z) (s : kstate)
    (es : list madt_entry) (lapic_base : Z) :
  finds_madt fuel p s es lapic_base ->
  table_of_32 s -> info_ready 0 k s ->
  lapic_base <> 0 -> (length (enabled_ids es) <= 1)%nat ->
  exists s',
    exec (smp_initialize fuel p) s = Some s' /\
    processor_count s' = Z.of_nat (length (enabled_ids es)) /\
    lapic_final s' = mmio_mapping p lapic_base 0x1000 /\
    emitted s s' = [MapMmioRegion lapic_base 0x1000] /\
    phys s' = phys s.
Proof.
  intros Hfinds Hlen Hready Hbase Hone.
  destruct (smp_initialize_one_madt fuel p k s es lapic_base Hfinds Hlen Hready)
    as (s1 & Hrun & Hc & Hl & Hph & Htr & _).
  assert (Hent : length (entered_ids es) = length (enabled_ids es))
    by (unfold entered_ids; rewrite length_take; lia).
  rewrite Hent in *.
  replace (Nat.ltb 32 (length (enabled_ids es))) with false in Htr
    by (symmetry; apply Nat.ltb_ge; lia).
  rewrite app_nil_r in Htr.
  unfold smp_start, mmu_map_mmio_region in Hrun. monad_unfold in Hrun.
  destruct (Z.eqb_spec lapic_base 0) as [E|_]; [contradiction|].
  destruct (Z.leb_spec (Z.of_nat (length (enabled_ids es))) 1) as [_|E]; [|lia].
  eexists. split; [exact Hrun|]. state_norm.
  split; [exact Hc|]. split; [reflexivity|].
  split; [apply emitted_app; rewrite Htr; reflexivity | exact Hph].
Qed.

Lemma single_processor_witness :
  exists s',
    exec (smp_initialize 9 (Demo.machine ∅))
         (Demo.at_boot (Demo.firmware Demo.good_rsdp Demo.one_core []) [])
    = Some s' /\
    processor_count s' = 1 /\ lapic_final s' = 0xffffff1fc0000000 /\
    emitted (Demo.at_boot (Demo.firmware Demo.good_rsdp Demo.one_core []) []) s'
    = [MapMmioRegion 0xFEE00000 0x1000].
Proof.
  destruct (single_processor 9 (Demo.machine ∅) 0
              (Demo.at_boot (Demo.firmware Demo.good_rsdp Demo.one_core []) [])
              Demo.one_list 0xFEE00000)
    as (s' & Hrun & Hcount & Hlapic & Hev & _).
  - finds_madt_by_evaluation 0xE0000 0xE2000.
  - reflexivity.
  - info_ready_by_evaluation.
  - lia.
  - vm_compute. lia.
  - exists s'. split; [exact Hrun|]. split; [exact Hcount|].
    split; [exact Hlapic | exact Hev].
Defined.

Lemma aps_of_discovered (es : list madt_entry) (s1 : kstate) :
  take (length (entered_ids es)) (map lapic_id (processor_local_data s1))
  = entered_ids es ->
  take (Z.to_nat (Z.of_nat (length (entered_ids es)) - 1))
    (drop 1 (map lapic_id (processor_local_data s1)))
  = ap_ids es.
Proof.
  intros H. unfold ap_ids.
  destruct (entered_ids es) as [|id ids] eqn:E; [reflexivity|].
  cbn [length] in *.
  replace (Z.to_nat (Z.of_nat (S (length ids)) - 1)) with (length ids) by lia.
  rewrite take_drop_commute. change (1 + length ids)%nat with (S (length ids)).
  rewrite H. reflexivity.
Qed.

End AfterDiscovery.

(** ** The bring-up as a whole *)

Section StartedAps.



(** X19: the order of the IPIs of a bring-up.  On a firmware whose MADT
    has a LAPIC address and enables two or more processors, the commands
    smp_initialize writes to the ICR (offset 0x300 of the mapped LAPIC) are
    INIT (0x4500) and then SIPI (0x4601) for each AP in turn, and the
    destinations it writes (offset 0x310) are, twice each and in the order
    of the table, the LAPIC ids of the enabled processors from the second
    to the thirty-second.  The first enabled processor is taken for the
    BSP and is sent nothing. *)
Theorem init_sipi_order (fuel : nat) (p : platform) (k : Z) (s s' : kstate)
    (es : list madt_entry) (lapic_base : Z) :
  finds_madt fuel p s es lapic_base ->
  table_of_32 s -> info_ready 0 k s ->
  lapic_base <> 0 -> (2 <= length (enabled_ids es))%nat ->
  exec (smp_initialize fuel p) s = Some s' ->
  stores_to (u64 (mmio_mapping p lapic_base 0x1000 + 0x300)) (emitted s s')
  = flat_map (fun _ => [0x4500; 0x4601]) (ap_ids es) /\
  stores_to (u64 (mmio_mapping p lapic_base 0x1000 + 0x310)) (emitted s s')
  = flat_map (fun id => [u32 (Z.shiftl id 24); u32 (Z.shiftl id 24)])
             (ap_ids es).
Proof.
  intros Hfinds Hlen Hready Hbase Htwo Hrun.
  destruct (smp_initialize_one_madt fuel p k s es lapic_base Hfinds Hlen Hready)
    as (s1 & Hrun1 & _ & _ & _ & Htr & Hids & _).
  rewrite Hrun1 in Hrun. unfold exec in Hrun.
  destruct (smp_start p _ lapic_base s1) as [[[] s2]|] eqn:Hstart;
    [|discriminate].
  injection Hrun as <-.
  assert (Hent : (2 <= length (entered_ids es))%nat)
    by (unfold entered_ids; rewrite length_take; lia).
  apply smp_start_effect in Hstart; [|exact Hbase|lia].
  rewrite (aps_of_discovered es s1 Hids) in Hstart.
  destruct Hstart as (_ & _ & (evs & Htr2 & Hlow & Hhigh) & _).
  rewrite (emitted_app s s2 _ ltac:(rewrite Htr2, Htr, <- app_assoc; reflexivity)).
  rewrite !stores_to_app, !stores_to_printf, Hlow, Hhigh.
  split; reflexivity.
Qed.

Lemma init_sipi_order_witness :
  exists s',
    exec (smp_initialize 9 (Demo.machine ∅))
         (Demo.at_boot (Demo.firmware Demo.good_rsdp Demo.two_cores [])
                       [0x1000; 0; 0])
    = Some s' /\
    stores_to 0xffffff1fc0000300
      (emitted (Demo.at_boot (Demo.firmware Demo.good_rsdp Demo.two_cores [])
                             [0x1000; 0; 0]) s')
    = [0x4500; 0x4601] /\
    stores_to 0xffffff1fc0000310
      (emitted (Demo.at_boot (Demo.firmware Demo.good_rsdp Demo.two_cores [])
                             [0x1000; 0; 0]) s')
    = [0x1000000; 0x1000000].
Proof.
  assert (Hsome :
    (fun _ => tt) <$>
      exec (smp_initialize 9 (Demo.machine ∅))
           (Demo.at_boot (Demo.firmware Demo.good_rsdp Demo.two_cores [])
                         [0x1000; 0; 0])
    = Some tt) by (vm_compute; reflexivity).
  destruct (exec (smp_initialize 9 (Demo.machine ∅))
              (Demo.at_boot (Demo.firmware Demo.good_rsdp Demo.two_cores [])
                            [0x1000; 0; 0]))
    as [s'|] eqn:Hrun; [|discriminate Hsome].
  exists s'. split; [reflexivity|].
  apply (init_sipi_order 9 (Demo.machine ∅) 0
           (Demo.at_boot (Demo.firmware Demo.good_rsdp Demo.two_cores [])
              [0x1000; 0; 0])
           s' Demo.two_list 0xFEE00000).
  - finds_madt_by_evaluation 0xE0000 0xE2000.
  - reflexivity.
  - info_ready_by_evaluation.
  - lia.
  - vm_compute. lia.
  - exact Hrun.
Defined.

(** X20: what a bring-up leaves.  On a firmware whose MADT has a LAPIC
    address and enables two or more processors, when smp_initialize returns
    the LAPIC is mapped; every AP slot, from 1 to the count less one, has
    [init_page_region] as its page map and the task [spawn_kidle] gave that
    AP as both idle task and current process; slot 0, the BSP's, and the
    slots behind the count have the page map and tasks they had; and the
    globals are those of the last AP started: the flag 1, [_ap_current] the
    last slot, [_ap_stack_base] the end of its stack. *)
Theorem aps_brought_up (fuel : nat) (p : platform) (k : Z) (s s' : kstate)
    (es : list madt_entry) (lapic_base : Z) :
  finds_madt fuel p s es lapic_base ->
  table_of_32 s -> info_ready 0 k s ->
  lapic_base <> 0 -> (2 <= length (enabled_ids es))%nat ->
  exec (smp_initialize fuel p) s = Some s' ->
  lapic_final s' = mmio_mapping p lapic_base 0x1000 /\
  (forall j : nat,
     (1 <= j < length (entered_ids es))%nat ->
     exists d',
       processor_local_data s' !! j = Some d' /\
       current_pml d' = init_page_region p /\
       kernel_idle_task d' = kidle_given p (Z.of_nat j) 0 /\
       current_process d' = kidle_given p (Z.of_nat j) 0) /\
  (forall (j : nat) (d : processor_local),
     (j = 0 \/ length (entered_ids es) <= j)%nat ->
     processor_local_data s !! j = Some d ->
     exists d', processor_local_data s' !! j = Some d' /\ same_tasks d d') /\
  _ap_startup_flag s' = 1 /\
  _ap_current s' = Z.of_nat (length (entered_ids es)) - 1 /\
  _ap_stack_base s'
  = u64 (stack_given p (Z.of_nat (length (entered_ids es)) - 1)
         + KERNEL_STACK_SIZE p).
Proof.
  intros Hfinds Hlen Hready Hbase Htwo Hrun.
  destruct (smp_initialize_one_madt fuel p k s es lapic_base Hfinds Hlen Hready)
    as (s1 & Hrun1 & _ & _ & _ & _ & _ & Hlen1 & Htasks1).
  rewrite Hrun1 in Hrun. unfold exec in Hrun.
  destruct (smp_start p _ lapic_base s1) as [[[] s2]|] eqn:Hstart;
    [|discriminate].
  injection Hrun as <-.
  assert (Hent : (2 <= length (entered_ids es) <= 32)%nat)
    by (unfold entered_ids; rewrite length_take; lia).
  apply smp_start_effect in Hstart; [|exact Hbase|lia].
  destruct Hstart as (_ & _ & _ & Hl & Htasks & Hflag & Hcur & Hsb).
  split; [exact Hl|]. split; [|split].
  - intros j Hj.
    destruct (lookup_lt_is_Some_2 (processor_local_data s1) j ltac:(lia))
      as [d1 Hd1].
    destruct (Htasks j d1 Hd1) as [d' [Hd' [_ Ht]]].
    destruct (decide _) as [_|n] in Ht; [|exfalso; lia].
    exists d'. split; assumption.
  - intros j d Hj Hd.
    destruct (Forall2_lookup_l _ _ _ _ _ Htasks1 Hd) as [d1 [Hd1 Ht1]].
    destruct (Htasks j d1 Hd1) as [d' [Hd' [_ Ht]]].
    destruct (decide _) as [e|_] in Ht; [exfalso; lia|].
    exists d'. split; [exact Hd'|]. etransitivity; eassumption.
  - repeat split; assumption.
Qed.

Lemma aps_brought_up_witness :
  exists s' d',
    exec (smp_initialize 9 (Demo.machine ∅))
         (Demo.at_boot (Demo.firmware Demo.good_rsdp Demo.two_cores [])
                       [0x1000; 0; 0])
    = Some s' /\
    lapic_final s' = 0xffffff1fc0000000 /\
    processor_local_data s' !! 1%nat = Some d' /\
    current_pml d' = 0x200000 /\
    kernel_idle_task d' = 0x7001 /\ current_process d' = 0x7001.
Proof.
  assert (Hsome :
    (fun _ => tt) <$>
      exec (smp_initialize 9 (Demo.machine ∅))
           (Demo.at_boot (Demo.firmware Demo.good_rsdp Demo.two_cores [])
                         [0x1000; 0; 0])
    = Some tt) by (vm_compute; reflexivity).
  destruct (exec (smp_initialize 9 (Demo.machine ∅))
              (Demo.at_boot (Demo.firmware Demo.good_rsdp Demo.two_cores [])
                            [0x1000; 0; 0]))
    as [s'|] eqn:Hrun; [|discriminate Hsome].
  destruct (aps_brought_up 9 (Demo.machine ∅) 0
              (Demo.at_boot (Demo.firmware Demo.good_rsdp Demo.two_cores [])
              [0x1000; 0; 0])
              s' Demo.two_list 0xFEE00000)
    as (Hlapic & Haps & _).
  - finds_madt_by_evaluation 0xE0000 0xE2000.
  - reflexivity.
  - info_ready_by_evaluation.
  - lia.
  - vm_compute. lia.
  - exact Hrun.
  - destruct (Haps 1%nat) as (d' & Hd' & Hpml & Hidle & Hcur);
      [vm_compute; lia|].
    exists s', d'. split; [reflexivity|]. split; [exact Hlapic|].
    split; [exact Hd'|]. split; [exact Hpml|]. split; [exact Hidle | exact Hcur].
Defined.

(** X21: the wait of line 336 has no bound.  On a firmware whose MADT has
    a LAPIC address and enables two or more processors, smp_initialize
    returns only when every AP has started: if one of them does not answer
    INIT and SIPI, smp_initialize does not return. *)
Theorem silent_ap_hangs (fuel : nat) (p : platform) (k : Z) (s : kstate)
    (es : list madt_entry) (lapic_base : Z) :
  finds_madt fuel p s es lapic_base ->
  table_of_32 s -> info_ready 0 k s ->
  lapic_base <> 0 ->
  Exists (fun id => ap_answers p id = false) (ap_ids es) ->
  exec (smp_initialize fuel p) s = None.
Proof.
  intros Hfinds Hlen Hready Hbase Hsilent.
  destruct (smp_initialize_one_madt fuel p k s es lapic_base Hfinds Hlen Hready)
    as (s1 & Hrun1 & _ & _ & _ & _ & Hids & _).
  rewrite Hrun1. unfold exec.
  destruct (smp_start p _ lapic_base s1) as [[[] s2]|] eqn:Hstart;
    [|reflexivity].
  exfalso.
  assert (Hent : (2 <= length (entered_ids es))%nat).
  { unfold ap_ids in Hsilent. apply Exists_exists in Hsilent.
    destruct Hsilent as [id [Hin _]].
    apply list_elem_of_lookup in Hin. destruct Hin as [j Hj].
    apply lookup_lt_Some in Hj. rewrite length_drop in Hj. lia. }
  apply smp_start_effect in Hstart; [|exact Hbase|lia].
  rewrite (aps_of_discovered es s1 Hids) in Hstart.
  destruct Hstart as (_ & Hups & _).
  apply Exists_exists in Hsilent. destruct Hsilent as [id [Hin Hno]].
  rewrite Forall_forall in Hups. rewrite (Hups id Hin) in Hno. discriminate.
Qed.

Lemma silent_ap_hangs_witness :
  exec (smp_initialize 9 Demo.silent)
       (Demo.at_boot (Demo.firmware Demo.good_rsdp Demo.two_cores [])
                     [0x1000; 0; 0])
  = None.
Proof.
  apply (silent_ap_hangs 9 Demo.silent 0
           (Demo.at_boot (Demo.firmware Demo.good_rsdp Demo.two_cores [])
              [0x1000; 0; 0])
           Demo.two_list 0xFEE00000).
  - finds_madt_by_evaluation 0xE0000 0xE2000.
  - reflexivity.
  - info_ready_by_evaluation.
  - lia.
  - vm_compute. apply Exists_cons_hd. reflexivity.
Defined.

End StartedAps.

Section MemoryFootprint.



End MemoryFootprint.
